(** * Airbnb manager: a shallow embedding of the reservation assistant

  The development follows the Python sources of [airbnb-manager]:

  - [db/database.py]            reservations and messages (SQLite)
  - [db/optimized_database.py]  cached availability query
  - [db/conversation_db.py]     conversation store and conversation ids
  - [utils/conversation_tracker.py]  file-backed conversation ids
  - [core/nlp_engine.py], [core/optimized_nlp.py]  regex based extraction
  - [utils/memory_optimizer.py] object pools

  Python [str] values are sequences of Unicode code points; text held by
  SQLite is the UTF-8 encoding of such a sequence and is compared byte by
  byte.  Both views are kept: [Py.str] for the text handled by [re] and
  [hashlib], [string] for what is stored in a table. *)

From Stdlib Require Import ZArith NArith List String Ascii Bool Lia.
From Stdlib Require Import OrderedTypeEx.
From stdpp Require Import gmap strings list fin_maps pretty.

Open Scope N_scope.

(* ===================================================================== *)
(** ** Python strings                                                     *)
(* ===================================================================== *)

Module Py.

(** A [str] is a list of code points. *)
Abbreviation str := (list N).

(** [Py_UNICODE_ISSPACE]: the characters removed by [str.strip()] and
    matched by [\s] in a [str] pattern. *)
Definition isspace (c : N) : bool :=
  ((9 <=? c) && (c <=? 13)) || ((28 <=? c) && (c <=? 32))
  || (c =? 133) || (c =? 160) || (c =? 5760)
  || ((8192 <=? c) && (c <=? 8202))
  || (c =? 8232) || (c =? 8233) || (c =? 8239) || (c =? 8287)
  || (c =? 12288).

(** The case and category tables are written out for Basic Latin and the
    Latin-1 Supplement (U+0000 to U+00FF), the repertoire of the Spanish
    messages the application handles.  [latin1] marks the texts on which
    the tables below are those of CPython. *)
Definition latin1_cp (c : N) : bool := c <? 256.
Definition latin1 (s : str) : Prop := Forall (fun c => c < 256) s.
Definition latin1b (s : str) : bool := forallb latin1_cp s.

Definition isupper_cp (c : N) : bool :=
  ((65 <=? c) && (c <=? 90))
  || ((192 <=? c) && (c <=? 222) && negb (c =? 215)).

(** [str.lower()] on Latin-1 text, one code point at a time. *)
Definition lower_cp (c : N) : N := if isupper_cp c then c + 32 else c.
Definition lower (s : str) : str := map lower_cp s.

(** [\d] of a [str] pattern ([Py_UNICODE_ISDECIMAL]); the decimals of
    Latin-1 are the ASCII digits. *)
Definition isdecimal (c : N) : bool := (48 <=? c) && (c <=? 57).

Definition isalpha (c : N) : bool :=
  ((65 <=? c) && (c <=? 90)) || ((97 <=? c) && (c <=? 122))
  || (c =? 170) || (c =? 181) || (c =? 186)
  || ((192 <=? c) && (c <=? 214)) || ((216 <=? c) && (c <=? 246))
  || ((248 <=? c) && (c <=? 255)).

(** digits and numerics that are not decimals: superscripts and vulgar
    fractions *)
Definition isnumeric_other (c : N) : bool :=
  (c =? 178) || (c =? 179) || (c =? 185) || ((188 <=? c) && (c <=? 190)).

(** [\w] of a [str] pattern, on Latin-1: [Py_UNICODE_ISALNUM] or
    underscore. *)
Definition isword (c : N) : bool :=
  isalpha c || isdecimal c || isnumeric_other c || (c =? 95).

Fixpoint lstrip (s : str) : str :=
  match s with
  | c :: t => if isspace c then lstrip t else s
  | [] => []
  end.
Definition rstrip (s : str) : str := rev (lstrip (rev s)).
(** [str.strip()] *)
Definition strip (s : str) : str := rstrip (lstrip s).

(** [needle in haystack] for two strings *)
Fixpoint startswith (p s : str) : bool :=
  match p, s with
  | [], _ => true
  | a :: p', b :: s' => (a =? b) && startswith p' s'
  | _ :: _, [] => false
  end.
Fixpoint contains (needle s : str) : bool :=
  startswith needle s ||
  match s with
  | [] => false
  | _ :: t => contains needle t
  end.

(** [int(s)] on a run of ASCII digits (the only decimals of Latin-1) *)
Definition int_of_digits (s : str) : Z :=
  fold_left (fun acc c => (10 * acc + Z.of_N (c - 48))%Z) s 0%Z.

(** *** UTF-8 *)

(** [s.encode()]: [None] stands for the [UnicodeEncodeError] raised on a
    surrogate or a value beyond U+10FFFF. *)
Definition utf8_encode_cp (c : N) : option (list N) :=
  if c <? 128 then Some [c]
  else if c <? 2048 then Some [192 + c / 64; 128 + c mod 64]
  else if (55296 <=? c) && (c <=? 57343) then None
  else if c <? 65536 then
    Some [224 + c / 4096; 128 + (c / 64) mod 64; 128 + c mod 64]
  else if c <? 1114112 then
    Some [240 + c / 262144; 128 + (c / 4096) mod 64;
          128 + (c / 64) mod 64; 128 + c mod 64]
  else None.

Fixpoint utf8_encode (s : str) : option (list N) :=
  match s with
  | [] => Some []
  | c :: t =>
      match utf8_encode_cp c, utf8_encode t with
      | Some b, Some bs => Some (b ++ bs)
      | _, _ => None
      end
  end.

(** Decoder used to read the literals of this file, which are UTF-8. *)
Fixpoint utf8_decode (b : list N) : str :=
  match b with
  | [] => []
  | x :: t =>
      if x <? 128 then x :: utf8_decode t
      else match t with
           | y :: t' =>
               if x <? 224 then ((x - 192) * 64 + (y - 128)) :: utf8_decode t'
               else x :: utf8_decode t
           | [] => [x]
           end
  end.

Fixpoint bytes_of_string (s : string) : list N :=
  match s with
  | EmptyString => []
  | String a t => N_of_ascii a :: bytes_of_string t
  end.

Fixpoint string_of_bytes (b : list N) : string :=
  match b with
  | [] => EmptyString
  | x :: t => String (ascii_of_N x) (string_of_bytes t)
  end.

(** The [str] written by a literal of at most two-byte characters. *)
Definition u (s : string) : str := utf8_decode (bytes_of_string s).

(** The bytes SQLite stores for a [str] that can be encoded. *)
Definition to_text (s : str) : string :=
  match utf8_encode s with
  | Some b => string_of_bytes b
  | None => EmptyString
  end.

End Py.

(* ===================================================================== *)
(** ** hashlib.md5 (RFC 1321)                                             *)
(* ===================================================================== *)

Module Md5.

Definition w32 : N := 4294967296.
Definition add32 (x y : N) : N := (x + y) mod w32.
Definition not32 (x : N) : N := N.lxor x 4294967295.
Definition rotl32 (x n : N) : N :=
  N.lor ((N.shiftl x n) mod w32) (N.shiftr x (32 - n)).

Definition K : list N :=
  [ 0xd76aa478; 0xe8c7b756; 0x242070db; 0xc1bdceee;
    0xf57c0faf; 0x4787c62a; 0xa8304613; 0xfd469501;
    0x698098d8; 0x8b44f7af; 0xffff5bb1; 0x895cd7be;
    0x6b901122; 0xfd987193; 0xa679438e; 0x49b40821;
    0xf61e2562; 0xc040b340; 0x265e5a51; 0xe9b6c7aa;
    0xd62f105d; 0x02441453; 0xd8a1e681; 0xe7d3fbc8;
    0x21e1cde6; 0xc33707d6; 0xf4d50d87; 0x455a14ed;
    0xa9e3e905; 0xfcefa3f8; 0x676f02d9; 0x8d2a4c8a;
    0xfffa3942; 0x8771f681; 0x6d9d6122; 0xfde5380c;
    0xa4beea44; 0x4bdecfa9; 0xf6bb4b60; 0xbebfbc70;
    0x289b7ec6; 0xeaa127fa; 0xd4ef3085; 0x04881d05;
    0xd9d4d039; 0xe6db99e5; 0x1fa27cf8; 0xc4ac5665;
    0xf4292244; 0x432aff97; 0xab9423a7; 0xfc93a039;
    0x655b59c3; 0x8f0ccc92; 0xffeff47d; 0x85845dd1;
    0x6fa87e4f; 0xfe2ce6e0; 0xa3014314; 0x4e0811a1;
    0xf7537e82; 0xbd3af235; 0x2ad7d2bb; 0xeb86d391 ].

Definition S : list N :=
  [ 7; 12; 17; 22; 7; 12; 17; 22; 7; 12; 17; 22; 7; 12; 17; 22;
    5; 9; 14; 20; 5; 9; 14; 20; 5; 9; 14; 20; 5; 9; 14; 20;
    4; 11; 16; 23; 4; 11; 16; 23; 4; 11; 16; 23; 4; 11; 16; 23;
    6; 10; 15; 21; 6; 10; 15; 21; 6; 10; 15; 21; 6; 10; 15; 21 ].

Record state := mk { sa : N; sb : N; sc : N; sd : N }.

Definition init : state :=
  mk 0x67452301 0xefcdab89 0x98badcfe 0x10325476.

(** the round function and the message index of step [i] *)
Definition mix (i b c d : N) : N :=
  if i <? 16 then N.lor (N.land b c) (N.land (not32 b) d)
  else if i <? 32 then N.lor (N.land d b) (N.land (not32 d) c)
  else if i <? 48 then N.lxor (N.lxor b c) d
  else N.lxor c (N.lor b (not32 d)).

Definition pick (i : N) : N :=
  if i <? 16 then i
  else if i <? 32 then (5 * i + 1) mod 16
  else if i <? 48 then (3 * i + 5) mod 16
  else (7 * i) mod 16.

Definition step (m : list N) (st : state) (i : N) : state :=
  let f := mix i (sb st) (sc st) (sd st) in
  let x := nth (N.to_nat (pick i)) m 0 in
  let k := nth (N.to_nat i) K 0 in
  let s := nth (N.to_nat i) S 0 in
  let f' := add32 (add32 (add32 f (sa st)) k) x in
  mk (sd st) (add32 (sb st) (rotl32 f' s)) (sb st) (sc st).

Definition steps : list N := map N.of_nat (seq 0 64).

(** one 512-bit block, given as sixteen little-endian words *)
Definition compress (st : state) (m : list N) : state :=
  let r := fold_left (step m) steps st in
  mk (add32 (sa st) (sa r)) (add32 (sb st) (sb r))
     (add32 (sc st) (sc r)) (add32 (sd st) (sd r)).

Definition le32 (x : N) : list N :=
  [ x mod 256; (x / 256) mod 256; (x / 65536) mod 256; (x / 16777216) mod 256 ].

Definition le64 (x : N) : list N := le32 (x mod w32) ++ le32 ((x / w32) mod w32).

Fixpoint words (b : list N) : list N :=
  match b with
  | b0 :: b1 :: b2 :: b3 :: t =>
      (b0 + 256 * b1 + 65536 * b2 + 16777216 * b3) :: words t
  | _ => []
  end.

Definition pad (msg : list N) : list N :=
  let n := N.of_nat (length msg) in
  let z := (119 - n mod 64) mod 64 in
  msg ++ [128] ++ repeat 0 (N.to_nat z) ++ le64 (8 * n).

Fixpoint blocks (fuel : nat) (ws : list N) (st : state) : state :=
  match fuel with
  | O => st
  | Datatypes.S fuel' =>
      match ws with
      | [] => st
      | _ => blocks fuel' (skipn 16 ws) (compress st (firstn 16 ws))
      end
  end.

(** [hashlib.md5(msg).digest()] *)
Definition digest (msg : list N) : list N :=
  let ws := words (pad msg) in
  let st := blocks (length ws) ws init in
  le32 (sa st) ++ le32 (sb st) ++ le32 (sc st) ++ le32 (sd st).

Definition hexchar (n : N) : ascii :=
  ascii_of_N (if n <? 10 then 48 + n else 87 + n).

Fixpoint hex (b : list N) : string :=
  match b with
  | [] => EmptyString
  | x :: t => String (hexchar (x / 16)) (String (hexchar (x mod 16)) (hex t))
  end.

(** [hashlib.md5(msg).hexdigest()] *)
Definition hexdigest (msg : list N) : string := hex (digest msg).

End Md5.

(* ===================================================================== *)
(** ** The fragment of [re] used by the application                       *)
(* ===================================================================== *)

Module Re.

(** Patterns.  Repetition is greedy, as every quantifier in the sources
    is; [Rep lo None] has no upper bound. *)
Inductive regex : Type :=
| Eps
| Chr (p : N -> bool)
| Seq (a b : regex)
| Alt (a b : regex)
| Rep (lo : nat) (hi : option nat) (a : regex)
| Grp (n : nat) (a : regex)
| Bol
| Wb.

(** group number and captured text, most recent first *)
Definition caps := list (nat * Py.str).

Definition word_before (pre : Py.str) : bool :=
  match pre with
  | c :: _ => Py.isword c
  | [] => false
  end.

(** What remains to be matched, as a function of the position reached and
    the groups captured so far. *)
Definition cont (A : Type) : Type := Py.str -> Py.str -> caps -> option A.

(** Greedy repetition of [body]: one more round is tried before stopping
    is; [i] counts the rounds done and [fuel] bounds those still allowed. *)
Fixpoint rep_loop {A : Type} (body : Py.str -> Py.str -> caps -> cont A -> option A)
    (lo : nat) (k : cont A) (fuel i : nat) (pre rest : Py.str) (c : caps)
    {struct fuel} : option A :=
  let stop := if (lo <=? i)%nat then k pre rest c else None in
  match fuel with
  | O => stop
  | S fuel' =>
      match body pre rest c (rep_loop body lo k fuel' (S i)) with
      | Some v => Some v
      | None => stop
      end
  end.

(** A position in the subject is the reversed text before it and the
    text after it.  [run] is the backtracking matcher: alternatives are
    tried left to right and [k] is what remains to be matched. *)
Fixpoint run {A : Type} (r : regex) (pre rest : Py.str) (c : caps)
    (k : cont A) {struct r} : option A :=
  match r with
  | Eps => k pre rest c
  | Chr p =>
      match rest with
      | x :: t => if p x then k (x :: pre) t c else None
      | [] => None
      end
  | Seq a b => run a pre rest c (fun pre' rest' c' => run b pre' rest' c' k)
  | Alt a b =>
      match run a pre rest c k with
      | Some v => Some v
      | None => run b pre rest c k
      end
  | Rep lo hi a =>
      rep_loop (run a) lo k
        (match hi with Some h => h | None => length rest end) O pre rest c
  | Grp n a =>
      run a pre rest c
        (fun pre' rest' c' =>
           k pre' rest'
             ((n, rev (firstn (length pre' - length pre) pre')) :: c'))
  | Bol =>
      match pre with
      | [] => k pre rest c
      | _ :: _ => None
      end
  | Wb =>
      if xorb (word_before pre) (word_before rest)
      then k pre rest c else None
  end.

(** a match starting exactly at the given position: the position where
    it ends, and its groups *)
Definition match_at (r : regex) (pre rest : Py.str)
  : option (Py.str * Py.str * caps) :=
  run r pre rest [] (fun pre' rest' c' => Some (pre', rest', c')).

(** [re.search]: the leftmost position with a match *)
Fixpoint search_from (r : regex) (pre rest : Py.str)
  : option (Py.str * Py.str * caps) :=
  match match_at r pre rest with
  | Some m => Some m
  | None =>
      match rest with
      | [] => None
      | x :: t => search_from r (x :: pre) t
      end
  end.

Definition search (r : regex) (s : Py.str) : bool :=
  match search_from r [] s with
  | Some _ => true
  | None => false
  end.

(** text of group [n]; a group that took no part in the match is [''] *)
Fixpoint group (n : nat) (c : caps) : Py.str :=
  match c with
  | [] => []
  | (m, s) :: t => if (m =? n)%nat then s else group n t
  end.

Definition groups (ngroups : nat) (c : caps) : list Py.str :=
  map (fun n => group n c) (seq 1 ngroups).

(** the scan shared by [findall] and [sub]: successive matches, left to
    right, never overlapping *)
Fixpoint findall_from (fuel : nat) (r : regex) (ngroups : nat)
    (pre rest : Py.str) : list (list Py.str) :=
  match fuel with
  | O => []
  | S fuel' =>
      let next :=
        match rest with
        | [] => []
        | x :: t => findall_from fuel' r ngroups (x :: pre) t
        end in
      match match_at r pre rest with
      | Some (pre', rest', c) =>
          if (length rest' <? length rest)%nat
          then groups ngroups c :: findall_from fuel' r ngroups pre' rest'
          else groups ngroups c :: next
      | None => next
      end
  end.

(** [re.findall] for a pattern with [ngroups] groups *)
Definition findall (r : regex) (ngroups : nat) (s : Py.str)
  : list (list Py.str) :=
  findall_from (S (length s)) r ngroups [] s.

Fixpoint sub_from (fuel : nat) (r : regex) (repl : Py.str)
    (pre rest : Py.str) : Py.str :=
  match fuel with
  | O => rest
  | S fuel' =>
      let next :=
        match rest with
        | [] => []
        | x :: t => x :: sub_from fuel' r repl (x :: pre) t
        end in
      match match_at r pre rest with
      | Some (pre', rest', _) =>
          if (length rest' <? length rest)%nat
          then repl ++ sub_from fuel' r repl pre' rest'
          else repl ++ next
      | None => next
      end
  end.

(** [re.sub(r, repl, s)] for a replacement without group references *)
Definition sub (r : regex) (repl s : Py.str) : Py.str :=
  sub_from (S (length s)) r repl [] s.

(** *** Pattern syntax *)

Definition chr (c : N) : regex := Chr (N.eqb c).
(** a literal under [re.IGNORECASE], met by a Latin-1 character: the two
    have the same lowercase form *)
Definition chri (c : N) : regex :=
  Chr (fun x => Py.lower_cp x =? Py.lower_cp c).
Definition oneof (s : Py.str) : regex := Chr (fun x => existsb (N.eqb x) s).

Fixpoint seqs (l : list regex) : regex :=
  match l with
  | [] => Eps
  | [r] => r
  | r :: t => Seq r (seqs t)
  end.
Fixpoint alts (l : list regex) : regex :=
  match l with
  | [] => Eps
  | [r] => r
  | r :: t => Alt r (alts t)
  end.

Definition lit (s : string) : regex := seqs (map chr (Py.u s)).
Definition liti (s : string) : regex := seqs (map chri (Py.u s)).
Definition opt (r : regex) : regex := Rep 0 (Some 1%nat) r.
Definition star (r : regex) : regex := Rep 0 None r.
Definition plus (r : regex) : regex := Rep 1 None r.
Definition ws : regex := Chr Py.isspace.          (* \s *)
Definition digit : regex := Chr Py.isdecimal.     (* \d *)

End Re.

(* ===================================================================== *)
(** ** Exceptions                                                         *)
(* ===================================================================== *)

Inductive exn : Type :=
| ValueError (msg : string)
| OverflowError
| TypeError
| UnicodeEncodeError.

Inductive result (A : Type) : Type :=
| Ok (a : A)
| Raise (e : exn).
Arguments Ok {A} a.
Arguments Raise {A} e.

#[global] Instance result_ret : MRet result := fun A a => Ok a.
#[global] Instance result_bind : MBind result := fun A B f m =>
  match m with
  | Ok a => f a
  | Raise e => Raise e
  end.
#[global] Instance result_fmap : FMap result := fun A B f m =>
  match m with
  | Ok a => Ok (f a)
  | Raise e => Raise e
  end.

(* ===================================================================== *)
(** ** SQLite values, column affinity and three-valued logic              *)
(* ===================================================================== *)

Module Sql.

Open Scope Z_scope.

(** What [sqlite3] binds to a [?] and hands back in a row: [None], an
    [int] or a [str] (as UTF-8 bytes).  Floating-point numbers are left
    out of the model. *)
Inductive value : Type :=
| Null
| Int (n : Z)
| Text (s : string).

#[global] Instance value_eq_dec : EqDecision value.
Proof. solve_decision. Defined.

(** [TEXT] columns; [INTEGER] columns; and the columns declared [DATE],
    [BOOLEAN] or [TIMESTAMP], which SQLite gives [NUMERIC] affinity. *)
Inductive affinity : Type := TEXT | INTEGER | NUMERIC.

(** [bool(v)] in Python for a value read back from a row *)
Definition truthy (v : value) : bool :=
  match v with
  | Null => false
  | Int n => negb (n =? 0)
  | Text s => negb (String.eqb s "")
  end.

(** [sqlite3] refuses an [int] outside the signed 64-bit range with an
    [OverflowError] before the statement runs. *)
Definition bindable (v : value) : bool :=
  match v with
  | Int n => (-9223372036854775808 <=? n) && (n <=? 9223372036854775807)
  | _ => true
  end.

Definition bind_params (l : list value) : result unit :=
  if forallb bindable l then Ok tt else Raise OverflowError.

(** *** Numeric literals inside a text *)

Definition is_space (a : ascii) : bool :=
  let n := N_of_ascii a in ((n =? 32) || ((9 <=? n) && (n <=? 13)))%N.
Definition is_digit (a : ascii) : bool :=
  let n := N_of_ascii a in ((48 <=? n) && (n <=? 57))%N.
Definition is_sign (a : ascii) : bool :=
  let n := N_of_ascii a in ((n =? 43) || (n =? 45))%N.

Fixpoint ltrim (s : list ascii) : list ascii :=
  match s with
  | a :: t => if is_space a then ltrim t else s
  | [] => []
  end.
Definition trim (s : list ascii) : list ascii := rev (ltrim (rev (ltrim s))).

Fixpoint span_digits (s : list ascii) : list ascii * list ascii :=
  match s with
  | a :: t =>
      if is_digit a
      then let '(d, r) := span_digits t in (a :: d, r)
      else ([], s)
  | [] => ([], [])
  end.

Definition digits_value (d : list ascii) : Z :=
  fold_left (fun acc a => 10 * acc + Z.of_N (N_of_ascii a - 48)) d 0.

(** How SQLite reads a text that reaches a column or an operand of
    numeric affinity: not a number; an integer that fits 64 bits; or
    another well-formed number (a real, or an integer too large), whose
    conversion is floating point. *)
Inductive literal : Type :=
| NotNumeric
| IntLit (n : Z)
| OtherNumeric.

Definition classify (s : string) : literal :=
  let t := trim (list_ascii_of_string s) in
  let '(neg, t1) :=
    match t with
    | a :: r => if is_sign a then ((N_of_ascii a =? 45)%N, r) else (false, t)
    | [] => (false, t)
    end in
  let '(ip, t2) := span_digits t1 in
  let '(isint, fp, t3) :=
    match t2 with
    | a :: r =>
        if (N_of_ascii a =? 46)%N
        then let '(f, r') := span_digits r in (false, f, r')
        else (true, [], t2)
    | [] => (true, [], t2)
    end in
  if (length ip + length fp =? 0)%nat then NotNumeric
  else
    match t3 with
    | [] =>
        if isint then
          let v := if neg then - digits_value ip else digits_value ip in
          if bindable (Int v) then IntLit v else OtherNumeric
        else OtherNumeric
    | a :: r =>
        if ((N_of_ascii a =? 101) || (N_of_ascii a =? 69))%N then
          let r1 := match r with
                    | b :: x => if is_sign b then x else r
                    | [] => r
                    end in
          let '(ed, r2) := span_digits r1 in
          match ed, r2 with
          | _ :: _, [] => OtherNumeric
          | _, _ => NotNumeric
          end
        else NotNumeric
    end.

(** decimal rendering of an integer, as [TEXT] affinity produces it *)
Definition dec (n : Z) : string := pretty n.

(** The value a column of the given affinity holds after it is assigned
    [v], and the value an operand becomes when it is compared with such
    a column.  A text that is [OtherNumeric] would become a float: it
    is kept as it is here, and [exact] says when that did not happen. *)
Definition store (a : affinity) (v : value) : value :=
  match a, v with
  | TEXT, Int n => Text (dec n)
  | INTEGER, Text s | NUMERIC, Text s =>
      match classify s with
      | IntLit n => Int n
      | _ => v
      end
  | _, _ => v
  end.

Definition exact (a : affinity) (v : value) : bool :=
  match a, v with
  | INTEGER, Text s | NUMERIC, Text s =>
      match classify s with
      | OtherNumeric => false
      | _ => true
      end
  | _, _ => true
  end.

(** *** Comparison and logic *)

(** [None] is SQL's NULL truth value. *)
Definition tv := option bool.

Definition not3 (a : tv) : tv := negb <$> a.
Definition and3 (a b : tv) : tv :=
  match a, b with
  | Some false, _ | _, Some false => Some false
  | Some true, Some true => Some true
  | _, _ => None
  end.
Definition or3 (a b : tv) : tv :=
  match a, b with
  | Some true, _ | _, Some true => Some true
  | Some false, Some false => Some false
  | _, _ => None
  end.

(** a row is selected when its WHERE clause is true *)
Definition holds (a : tv) : bool :=
  match a with
  | Some true => true
  | _ => false
  end.

(** Integers sort before texts; texts compare by their bytes. *)
Definition compare (a b : value) : option comparison :=
  match a, b with
  | Null, _ | _, Null => None
  | Int x, Int y => Some (x ?= y)
  | Int _, Text _ => Some Lt
  | Text _, Int _ => Some Gt
  | Text s, Text t => Some (String.compare s t)
  end.

Definition test (f : comparison -> bool) (a b : value) : tv :=
  f <$> compare a b.

Definition eq3 : value -> value -> tv :=
  test (fun c => match c with Eq => true | _ => false end).
Definition ne3 : value -> value -> tv :=
  test (fun c => match c with Eq => false | _ => true end).
Definition lt3 : value -> value -> tv :=
  test (fun c => match c with Lt => true | _ => false end).
Definition le3 : value -> value -> tv :=
  test (fun c => match c with Gt => false | _ => true end).
Definition gt3 : value -> value -> tv :=
  test (fun c => match c with Gt => true | _ => false end).
Definition ge3 : value -> value -> tv :=
  test (fun c => match c with Lt => false | _ => true end).

(** [str(v)] inside an f-string *)
Definition format (v : value) : string :=
  match v with
  | Null => "None"
  | Int n => dec n
  | Text s => s
  end.

End Sql.

(* ===================================================================== *)
(** ** db/database.py                                                     *)
(* ===================================================================== *)

Module Database.

Import Sql.

(** A row of [reservas].  [precio_total] is a REAL computed when the row
    is created; no query below reads it and it is not represented. *)
Record reserva : Type := mk_reserva {
  reserva_id : Z;
  propiedad_id : value;
  fecha_inicio : value;
  fecha_fin : value;
  huesped : value;
  correo : value;
  telefono : value;
  estado : value
}.

(** A row of [mensajes]. *)
Record mensaje : Type := mk_mensaje {
  mensaje_id : Z;
  remitente : value;
  asunto : value;
  cuerpo : value;
  fecha_recibido : value;
  respondido : value;
  respuesta : value;
  motivo_no_respuesta : value
}.

(** The tables of [data/reservas.db] that the functions below touch. *)
Record db : Type := mk_db {
  reservas : list reserva;
  mensajes : list mensaje
}.

(** [[
    WHERE propiedad_id = ?
      AND estado IN ('confirmada', 'pendiente')
      AND NOT (fecha_fin < ? OR fecha_inicio > ?)
    ]]
    The parameters meet columns of INTEGER and NUMERIC affinity. *)
Definition conflicto (p_id inicio fin : value) (r : reserva) : tv :=
  and3
    (and3 (eq3 (propiedad_id r) (store INTEGER p_id))
          (or3 (eq3 (estado r) (Text "confirmada"))
               (eq3 (estado r) (Text "pendiente"))))
    (not3 (or3 (lt3 (fecha_fin r) (store NUMERIC inicio))
               (gt3 (fecha_inicio r) (store NUMERIC fin)))).

Definition verificar_disponibilidad (d : db) (p_id inicio fin : value)
  : result bool :=
  _ ← bind_params [p_id; inicio; fin];
  let data := List.filter (fun r => holds (conflicto p_id inicio fin r))
                          (reservas d) in
  mret (length data =? 0)%nat.

(** [UPDATE mensajes SET ... WHERE id = ?] *)
Definition update_mensajes (d : db) (m_id : value) (f : mensaje -> mensaje)
  : db :=
  mk_db (reservas d)
        (map (fun m => if holds (eq3 (Int (mensaje_id m)) (store INTEGER m_id))
                       then f m else m)
             (mensajes d)).

Definition set_respuesta (resp : value) (m : mensaje) : mensaje :=
  mk_mensaje (mensaje_id m) (remitente m) (asunto m) (cuerpo m)
             (fecha_recibido m) (Int 1) (store TEXT resp)
             (motivo_no_respuesta m).

Definition set_respuesta_motivo (resp motivo : value) (m : mensaje)
  : mensaje :=
  mk_mensaje (mensaje_id m) (remitente m) (asunto m) (cuerpo m)
             (fecha_recibido m) (Int 1) (store TEXT resp)
             (store TEXT motivo).

Definition marcar_mensaje_respondido (d : db)
    (m_id resp motivo : value) : result db :=
  if truthy motivo then
    _ ← bind_params [resp; motivo; m_id];
    mret (update_mensajes d m_id (set_respuesta_motivo resp motivo))
  else
    _ ← bind_params [resp; m_id];
    mret (update_mensajes d m_id (set_respuesta resp)).

End Database.

(* ===================================================================== *)
(** ** db/optimized_database.py                                           *)
(* ===================================================================== *)

Module OptimizedDatabase.

Import Sql.

(** [QueryCache.cache]: key to (result, timestamp, ttl).  Clock readings
    are taken in whole seconds. *)
Abbreviation QueryCache := (gmap string (bool * Z * Z)).

Definition default_ttl : Z := 300.

Definition cache_get (c : QueryCache) (now : Z) (key : string)
  : option bool * QueryCache :=
  match c !! key with
  | Some (r, timestamp, ttl) =>
      if (now - timestamp <? ttl)%Z then (Some r, c)
      else (None, delete key c)
  | None => (None, c)
  end.

Definition cache_set (c : QueryCache) (now : Z) (key : string)
    (v : bool) (ttl : Z) : QueryCache :=
  let ttl := if (ttl =? 0)%Z then default_ttl else ttl in
  <[key := (v, now, ttl)]> c.

(** [[
    WHERE propiedad_id = ?
      AND estado != 'cancelada'
      AND ((fecha_inicio <= ? AND fecha_fin > ?) OR
           (fecha_inicio < ? AND fecha_fin >= ?) OR
           (fecha_inicio >= ? AND fecha_fin <= ?))
    ]]
    bound to (id, inicio, inicio, fin, fin, inicio, fin). *)
Definition conflicto (p_id inicio fin : value) (r : Database.reserva) : tv :=
  let i := store NUMERIC inicio in
  let f := store NUMERIC fin in
  and3
    (and3 (eq3 (Database.propiedad_id r) (store INTEGER p_id))
          (ne3 (Database.estado r) (Text "cancelada")))
    (or3 (or3 (and3 (le3 (Database.fecha_inicio r) i)
                    (gt3 (Database.fecha_fin r) i))
              (and3 (lt3 (Database.fecha_inicio r) f)
                    (ge3 (Database.fecha_fin r) f)))
         (and3 (ge3 (Database.fecha_inicio r) i)
               (le3 (Database.fecha_fin r) f))).

Definition cache_key (p_id inicio fin : value) : string :=
  "disponibilidad_" +:+ format p_id +:+ "_" +:+ format inicio
                    +:+ "_" +:+ format fin.

(** [t_get] and [t_set] are the clock readings of the cache lookup and
    of the later cache fill.  The connection pool only hands out the
    cursor and does not enter the result. *)
Definition verificar_disponibilidad_optimized (c : QueryCache)
    (t_get t_set : Z) (d : Database.db) (p_id inicio fin : value)
  : result (bool * QueryCache) :=
  let key := cache_key p_id inicio fin in
  match cache_get c t_get key with
  | (Some cached_result, c') => mret (cached_result, c')
  | (None, c') =>
      _ ← bind_params [p_id; inicio; inicio; fin; fin; inicio; fin];
      let conflictos :=
        length (List.filter (fun r => holds (conflicto p_id inicio fin r))
                            (Database.reservas d)) in
      let disponible := (conflictos =? 0)%nat in
      mret (disponible, cache_set c' t_set key disponible 300)
  end.

End OptimizedDatabase.

(* ===================================================================== *)
(** ** db/conversation_db.py                                              *)
(* ===================================================================== *)

Module ConversationDb.

Import Sql.

(** [r'^(re|fw|fwd):\s*'] *)
Definition reply_prefix : Re.regex :=
  Re.seqs [ Re.Bol;
            Re.Grp 1 (Re.alts [Re.lit "re"; Re.lit "fw"; Re.lit "fwd"]);
            Re.lit ":";
            Re.star Re.ws ].

Definition clean_subject (asunto : Py.str) : Py.str :=
  Re.sub reply_prefix [] (Py.strip (Py.lower asunto)).

Definition conversation_key (remitente asunto : Py.str) : Py.str :=
  Py.lower remitente ++ Py.u "|" ++ clean_subject asunto.

(** [hashlib.md5(conversation_key.encode()).hexdigest()[:12]] *)
Definition get_conversation_id (remitente asunto : Py.str) : result string :=
  match Py.utf8_encode (conversation_key remitente asunto) with
  | Some bytes => Ok (String.substring 0 12 (Md5.hexdigest bytes))
  | None => Raise UnicodeEncodeError
  end.

(** A row of [conversations]; [id] is the primary key under which the row
    is kept. *)
Record conversation : Type := mk_conversation {
  asunto : value;
  remitente : value;
  nombre_cliente : value;
  propiedad : value;
  propiedad_id : value;
  check_in : value;
  check_out : value;
  numero_huespedes : value;
  correo_cliente : value;
  telefono_cliente : value;
  confirmacion : value;
  estado : value;
  created_at : value;
  updated_at : value
}.

(** The table [conversations] of [data/conversations.db], by [id]. *)
Abbreviation db := (gmap string conversation).

(** affinity of the declared column types *)
Definition affinity_of (field : string) : affinity :=
  if decide (field = "propiedad_id") then INTEGER
  else if decide (field = "numero_huespedes") then INTEGER
  else if decide (field = "check_in") then NUMERIC
  else if decide (field = "check_out") then NUMERIC
  else if decide (field = "created_at") then NUMERIC
  else if decide (field = "updated_at") then NUMERIC
  else TEXT.

(** [conversation.get(field)] on the dictionary built from a row *)
Definition get (c : conversation) (field : string) : value :=
  if decide (field = "asunto") then asunto c
  else if decide (field = "remitente") then remitente c
  else if decide (field = "nombre_cliente") then nombre_cliente c
  else if decide (field = "propiedad") then propiedad c
  else if decide (field = "propiedad_id") then propiedad_id c
  else if decide (field = "check_in") then check_in c
  else if decide (field = "check_out") then check_out c
  else if decide (field = "numero_huespedes") then numero_huespedes c
  else if decide (field = "correo_cliente") then correo_cliente c
  else if decide (field = "telefono_cliente") then telefono_cliente c
  else if decide (field = "confirmacion") then confirmacion c
  else if decide (field = "estado") then estado c
  else if decide (field = "created_at") then created_at c
  else if decide (field = "updated_at") then updated_at c
  else Null.

Definition with_updated_at (v : value) (c : conversation) : conversation :=
  mk_conversation (asunto c) (remitente c) (nombre_cliente c) (propiedad c)
    (propiedad_id c) (check_in c) (check_out c) (numero_huespedes c)
    (correo_cliente c) (telefono_cliente c) (confirmacion c) (estado c)
    (created_at c) v.

(** [SET {field} = ?] for a column that may be named in the statement *)
Definition set (field : string) (v : value) (c : conversation) : conversation :=
  if decide (field = "nombre_cliente") then
    mk_conversation (asunto c) (remitente c) v (propiedad c)
      (propiedad_id c) (check_in c) (check_out c) (numero_huespedes c)
      (correo_cliente c) (telefono_cliente c) (confirmacion c) (estado c)
      (created_at c) (updated_at c)
  else if decide (field = "propiedad") then
    mk_conversation (asunto c) (remitente c) (nombre_cliente c) v
      (propiedad_id c) (check_in c) (check_out c) (numero_huespedes c)
      (correo_cliente c) (telefono_cliente c) (confirmacion c) (estado c)
      (created_at c) (updated_at c)
  else if decide (field = "propiedad_id") then
    mk_conversation (asunto c) (remitente c) (nombre_cliente c) (propiedad c)
      v (check_in c) (check_out c) (numero_huespedes c)
      (correo_cliente c) (telefono_cliente c) (confirmacion c) (estado c)
      (created_at c) (updated_at c)
  else if decide (field = "check_in") then
    mk_conversation (asunto c) (remitente c) (nombre_cliente c) (propiedad c)
      (propiedad_id c) v (check_out c) (numero_huespedes c)
      (correo_cliente c) (telefono_cliente c) (confirmacion c) (estado c)
      (created_at c) (updated_at c)
  else if decide (field = "check_out") then
    mk_conversation (asunto c) (remitente c) (nombre_cliente c) (propiedad c)
      (propiedad_id c) (check_in c) v (numero_huespedes c)
      (correo_cliente c) (telefono_cliente c) (confirmacion c) (estado c)
      (created_at c) (updated_at c)
  else if decide (field = "numero_huespedes") then
    mk_conversation (asunto c) (remitente c) (nombre_cliente c) (propiedad c)
      (propiedad_id c) (check_in c) (check_out c) v
      (correo_cliente c) (telefono_cliente c) (confirmacion c) (estado c)
      (created_at c) (updated_at c)
  else if decide (field = "correo_cliente") then
    mk_conversation (asunto c) (remitente c) (nombre_cliente c) (propiedad c)
      (propiedad_id c) (check_in c) (check_out c) (numero_huespedes c)
      v (telefono_cliente c) (confirmacion c) (estado c)
      (created_at c) (updated_at c)
  else if decide (field = "telefono_cliente") then
    mk_conversation (asunto c) (remitente c) (nombre_cliente c) (propiedad c)
      (propiedad_id c) (check_in c) (check_out c) (numero_huespedes c)
      (correo_cliente c) v (confirmacion c) (estado c)
      (created_at c) (updated_at c)
  else if decide (field = "confirmacion") then
    mk_conversation (asunto c) (remitente c) (nombre_cliente c) (propiedad c)
      (propiedad_id c) (check_in c) (check_out c) (numero_huespedes c)
      (correo_cliente c) (telefono_cliente c) v (estado c)
      (created_at c) (updated_at c)
  else if decide (field = "estado") then
    mk_conversation (asunto c) (remitente c) (nombre_cliente c) (propiedad c)
      (propiedad_id c) (check_in c) (check_out c) (numero_huespedes c)
      (correo_cliente c) (telefono_cliente c) (confirmacion c) v
      (created_at c) (updated_at c)
  else c.

(** [WHERE id = ?]: the parameter meets a TEXT column. *)
Definition row_key (conversation_id : value) : option string :=
  match store TEXT conversation_id with
  | Text s => Some s
  | _ => None
  end.

Definition lookup_row (d : db) (conversation_id : value) : option conversation :=
  k ← row_key conversation_id; d !! k.

(** [now] is [datetime.now().isoformat()] and [timestamp] is SQLite's
    [CURRENT_TIMESTAMP]. *)
Definition create_or_update_conversation (d : db) (now timestamp : string)
    (remitente asunto : Py.str) : result (string * db) :=
  conversation_id ← get_conversation_id remitente asunto;
  match d !! conversation_id with
  | Some c =>
      mret (conversation_id,
            <[conversation_id := with_updated_at (store NUMERIC (Text now)) c]> d)
  | None =>
      mret (conversation_id,
            <[conversation_id :=
                mk_conversation (Text (Py.to_text asunto))
                  (Text (Py.to_text remitente))
                  Null Null Null Null Null Null Null Null Null
                  (Text "en_progreso")
                  (store NUMERIC (Text timestamp))
                  (store NUMERIC (Text timestamp))]> d)
  end.

Definition get_conversation (d : db) (conversation_id : value)
  : result (option conversation) :=
  _ ← bind_params [conversation_id];
  mret (lookup_row d conversation_id).

Definition allowed_fields : list string :=
  [ "nombre_cliente"; "propiedad"; "propiedad_id"; "check_in"; "check_out";
    "numero_huespedes"; "correo_cliente"; "telefono_cliente"; "confirmacion";
    "estado" ].

Definition update_conversation_field (d : db) (now : string)
    (conversation_id : value) (field : string) (v : value) : result db :=
  if negb (bool_decide (field ∈ allowed_fields)) then
    Raise (ValueError ("Campo no válido: " +:+ field))
  else
    _ ← bind_params [v; Text now; conversation_id];
    match row_key conversation_id with
    | Some k =>
        mret (alter (fun c => with_updated_at (store NUMERIC (Text now))
                                (set field (store (affinity_of field) v) c))
                    k d)
    | None => mret d
    end.

Definition required_fields : list string :=
  [ "nombre_cliente"; "propiedad"; "check_in"; "check_out";
    "numero_huespedes"; "correo_cliente" ].

Definition get_missing_fields (d : db) (conversation_id : value)
  : result (list string) :=
  conversation ← get_conversation d conversation_id;
  match conversation with
  | None =>
      mret [ "nombre_cliente"; "propiedad"; "check_in"; "check_out";
             "numero_huespedes"; "correo_cliente" ]
  | Some c =>
      let faltantes := [] in
      let faltantes := if negb (truthy (get c "nombre_cliente"))
                       then faltantes ++ ["nombre_cliente"] else faltantes in
      let faltantes := if negb (truthy (get c "propiedad"))
                       then faltantes ++ ["propiedad"] else faltantes in
      let faltantes := if negb (truthy (get c "check_in"))
                       then faltantes ++ ["check_in"] else faltantes in
      let faltantes := if negb (truthy (get c "check_out"))
                       then faltantes ++ ["check_out"] else faltantes in
      let faltantes := if negb (truthy (get c "numero_huespedes"))
                       then faltantes ++ ["numero_huespedes"] else faltantes in
      let faltantes := if negb (truthy (get c "correo_cliente"))
                       then faltantes ++ ["correo_cliente"] else faltantes in
      mret faltantes
  end.

Definition is_confirmed (d : db) (conversation_id : value) : result bool :=
  conversation ← get_conversation d conversation_id;
  match conversation with
  | Some c => mret (bool_decide (get c "confirmacion" = Text "sí"))
  | None => mret false
  end.

End ConversationDb.

(* ===================================================================== *)
(** ** utils/conversation_tracker.py                                      *)
(* ===================================================================== *)

Module ConversationTracker.

Definition generate_conversation_id (client_email subject : Py.str)
  : result string :=
  let clean_subject :=
    Re.sub (Re.seqs [ Re.Bol;
                      Re.Grp 1 (Re.alts [Re.lit "re"; Re.lit "fw"; Re.lit "fwd"]);
                      Re.lit ":";
                      Re.star Re.ws ])
           [] (Py.strip (Py.lower subject)) in
  let conversation_key := Py.lower client_email ++ Py.u "|" ++ clean_subject in
  match Py.utf8_encode conversation_key with
  | Some bytes => Ok (String.substring 0 12 (Md5.hexdigest bytes))
  | None => Raise UnicodeEncodeError
  end.

End ConversationTracker.

(* ===================================================================== *)
(** ** utils/memory_optimizer.py                                          *)
(* ===================================================================== *)

Module MemoryOptimizer.

(** Objects live in a heap and are passed around by reference, so that a
    caller and a pool can hold the same list. *)
Abbreviation ref := nat.

(** The objects the pools see: strings, lists and dicts (their items are
    kept as integers), and instances of a class, which may define a
    [reset] method acting on the instance's state. *)
Inductive obj : Type :=
| PyStr (s : string)
| PyList (items : list Z)
| PyDict (items : list (Z * Z))
| PyObject (state : Z) (reset : option (Z -> Z)).

Abbreviation heap := (gmap ref obj).

(** [hasattr(obj, 'reset')] and [obj.reset()] *)
Definition has_reset (o : obj) : bool :=
  match o with
  | PyObject _ (Some _) => true
  | _ => false
  end.

Definition call_reset (o : obj) : obj :=
  match o with
  | PyObject state (Some f) => PyObject (f state) (Some f)
  | _ => o
  end.

(** [obj.clear()] on a list or a dict *)
Definition clear (o : obj) : obj :=
  match o with
  | PyList _ => PyList []
  | PyDict _ => PyDict []
  | _ => o
  end.

(** CPython cannot create a weak reference to a [str], a [list] or a
    [dict]: [WeakSet.add] and [WeakSet.discard] raise [TypeError] on them. *)
Definition weakrefable (o : obj) : bool :=
  match o with
  | PyObject _ _ => true
  | _ => false
  end.

Record ObjectPool : Type := mk_pool {
  factory : obj;                (* what [factory()] builds *)
  max_size : nat;
  pool : list ref;              (* deque(maxlen=max_size), left end first *)
  active_objects : gset ref     (* weakref.WeakSet() *)
}.

(** [ObjectPool(factory, max_size)] *)
Definition new_pool (factory : obj) (max_size : nat) : ObjectPool :=
  mk_pool factory max_size [] ∅.

(** [deque.append] on a deque of bounded length: when the bound is
    exceeded the leftmost item is dropped. *)
Definition deque_append (maxlen : nat) (d : list ref) (x : ref) : list ref :=
  let d' := d ++ [x] in
  if (maxlen <? length d')%nat then tail d' else d'.

(** [ObjectPool.get]: the outcome, the heap and the pool afterwards. *)
Definition get (h : heap) (p : ObjectPool)
  : result ref * heap * ObjectPool :=
  let '(r, h1, pool1) :=
    match pool p with
    | r :: rest => (r, h, rest)                            (* popleft *)
    | [] => let r := fresh (dom h) in (r, <[r := factory p]> h, [])
    end in
  match h1 !! r with
  | Some o =>
      if weakrefable o
      then (Ok r, h1,
            mk_pool (factory p) (max_size p) pool1 ({[r]} ∪ active_objects p))
      else (Raise TypeError, h1,
            mk_pool (factory p) (max_size p) pool1 (active_objects p))
  | None =>
      (Raise TypeError, h1,
       mk_pool (factory p) (max_size p) pool1 (active_objects p))
  end.

(** [ObjectPool.return_object] *)
Definition return_object (h : heap) (p : ObjectPool) (r : ref)
  : result unit * heap * ObjectPool :=
  let '(h1, pool1) :=
    if (length (pool p) <? max_size p)%nat then
      let h1 :=
        match h !! r with
        | Some o => if has_reset o then <[r := call_reset o]> h else h
        | None => h
        end in
      (h1, deque_append (max_size p) (pool p) r)
    else (h, pool p) in
  match h1 !! r with
  | Some o =>
      if weakrefable o
      then (Ok tt, h1,
            mk_pool (factory p) (max_size p) pool1 (active_objects p ∖ {[r]}))
      else (Raise TypeError, h1,
            mk_pool (factory p) (max_size p) pool1 (active_objects p))
  | None =>
      (Raise TypeError, h1,
       mk_pool (factory p) (max_size p) pool1 (active_objects p))
  end.

(** The three pools of the module. *)
Record pools : Type := mk_pools {
  string_pool : ObjectPool;
  list_pool : ObjectPool;
  dict_pool : ObjectPool
}.

Definition initial_pools : pools :=
  mk_pools (new_pool (PyStr "") 50)
           (new_pool (PyList []) 20)
           (new_pool (PyDict []) 20).

Definition get_pooled_string (h : heap) (ps : pools)
  : result ref * heap * pools :=
  let '(res, h', p') := get h (string_pool ps) in
  (res, h', mk_pools p' (list_pool ps) (dict_pool ps)).

Definition get_pooled_list (h : heap) (ps : pools)
  : result ref * heap * pools :=
  let '(res, h', p') := get h (list_pool ps) in
  (res, h', mk_pools (string_pool ps) p' (dict_pool ps)).

Definition get_pooled_dict (h : heap) (ps : pools)
  : result ref * heap * pools :=
  let '(res, h', p') := get h (dict_pool ps) in
  (res, h', mk_pools (string_pool ps) (list_pool ps) p').

Definition return_to_pool (h : heap) (ps : pools) (r : ref)
  : result unit * heap * pools :=
  match h !! r with
  | Some (PyStr _) =>
      let '(res, h', p') := return_object h (string_pool ps) r in
      (res, h', mk_pools p' (list_pool ps) (dict_pool ps))
  | Some (PyList items) =>
      let h1 := <[r := clear (PyList items)]> h in
      let '(res, h', p') := return_object h1 (list_pool ps) r in
      (res, h', mk_pools (string_pool ps) p' (dict_pool ps))
  | Some (PyDict items) =>
      let h1 := <[r := clear (PyDict items)]> h in
      let '(res, h', p') := return_object h1 (dict_pool ps) r in
      (res, h', mk_pools (string_pool ps) (list_pool ps) p')
  | _ => (Ok tt, h, ps)
  end.

End MemoryOptimizer.

(* ===================================================================== *)
(** ** The [datetime] module, as far as the engine calls it               *)
(* ===================================================================== *)

(** [strptime] and [timedelta] addition can fail ([None] stands for the
    exception, which every caller catches). *)
Class Datetime : Type := {
  datetime : Type;
  now_month : Z;                                   (* datetime.now().month *)
  now_year : Z;                                    (* datetime.now().year *)
  strptime : Py.str -> Py.str -> option datetime;
  strftime : datetime -> Py.str -> Py.str;
  add_days : datetime -> Z -> option datetime      (* d + timedelta(days=n) *)
}.

(* ===================================================================== *)
(** ** core/nlp_engine.py                                                 *)
(* ===================================================================== *)

Module NlpEngine.

Import Re.

(** *** More of Python's string functions *)

Definition str_of_Z (n : Z) : Py.str := Py.bytes_of_string (pretty n).

(** [f"{n:02d}"] *)
Definition format_02d (n : Z) : Py.str :=
  if ((0 <=? n) && (n <? 10))%Z then Py.u "0" ++ str_of_Z n else str_of_Z n.

(** digits of [int(s)], where single underscores may separate digits *)
Fixpoint int_digits (s : Py.str) (after_digit : bool) (acc : Z) : option Z :=
  match s with
  | [] => if after_digit then Some acc else None
  | c :: t =>
      if Py.isdecimal c then int_digits t true (10 * acc + Z.of_N (c - 48))%Z
      else if (c =? 95) && after_digit then
        match t with
        | d :: _ => if Py.isdecimal d then int_digits t false acc else None
        | [] => None
        end
      else None
  end.

(** [int(s)]; [None] stands for [ValueError] *)
Definition int (s : Py.str) : option Z :=
  match Py.strip s with
  | 43 :: t => int_digits t false 0%Z
  | 45 :: t => Z.opp <$> int_digits t false 0%Z
  | t => int_digits t false 0%Z
  end.

(** [s.split(sep)] for a non-empty separator *)
Fixpoint split_from (fuel : nat) (sep cur s : Py.str) : list Py.str :=
  match fuel with
  | O => [rev cur]
  | S fuel' =>
      match s with
      | [] => [rev cur]
      | c :: t =>
          if Py.startswith sep s
          then rev cur :: split_from fuel' sep [] (skipn (length sep) s)
          else split_from fuel' sep (c :: cur) t
      end
  end.

Definition split (sep s : Py.str) : list Py.str :=
  split_from (S (length s)) sep [] s.

(** order of [str] values: by code point, a proper prefix first *)
Fixpoint str_ltb (a b : Py.str) : bool :=
  match a, b with
  | _, [] => false
  | [], _ :: _ => true
  | x :: a', y :: b' => (x <? y) || ((x =? y) && str_ltb a' b')
  end.

Fixpoint insert_sorted (x : Py.str) (l : list Py.str) : list Py.str :=
  match l with
  | [] => [x]
  | y :: t =>
      if str_ltb x y then x :: l
      else if str_ltb y x then y :: insert_sorted x t
      else l
  end.

(** [sorted(list(set(l)))] *)
Definition sorted_set (l : list Py.str) : list Py.str :=
  fold_right insert_sorted [] l.

(** *** The engine's tables *)

Definition spanish_months : gmap Py.str Z :=
  list_to_map
    [ (Py.u "enero", 1%Z); (Py.u "febrero", 2%Z); (Py.u "marzo", 3%Z);
      (Py.u "abril", 4%Z); (Py.u "mayo", 5%Z); (Py.u "junio", 6%Z);
      (Py.u "julio", 7%Z); (Py.u "agosto", 8%Z); (Py.u "septiembre", 9%Z);
      (Py.u "octubre", 10%Z); (Py.u "noviembre", 11%Z);
      (Py.u "diciembre", 12%Z) ].

(** [[a-zA-Záéíóúñ]] *)
Definition letra : regex :=
  Chr (fun c => ((97 <=? c) && (c <=? 122)) || ((65 <=? c) && (c <=? 90))
                || existsb (N.eqb c) (Py.u "áéíóúñ")).

(** [\d{1,2}] *)
Definition dia : regex := Rep 1 (Some 2%nat) digit.

Definition desde_el : regex :=
  opt (seqs [lit "desde"; plus ws; lit "el"; plus ws]).

(** [(?:del?\s+)?(\d{1,2})\s+(?:al?\s+)?(\d{1,2})\s+de\s+([a-zA-Záéíóúñ]+)] *)
Definition pattern1 : regex :=
  seqs [ opt (seqs [lit "de"; opt (lit "l"); plus ws]);
         Grp 1 dia; plus ws;
         opt (seqs [lit "a"; opt (lit "l"); plus ws]);
         Grp 2 dia; plus ws; lit "de"; plus ws; Grp 3 (plus letra) ].

(** [(?:desde\s+el\s+)?(\d{1,2})\s+de\s+(MES)\s+(?:hasta\s+el\s+)?(\d{1,2})\s+de\s+(MES)] *)
Definition pattern2 : regex :=
  seqs [ desde_el;
         Grp 1 dia; plus ws; lit "de"; plus ws; Grp 2 (plus letra); plus ws;
         opt (seqs [lit "hasta"; plus ws; lit "el"; plus ws]);
         Grp 3 dia; plus ws; lit "de"; plus ws; Grp 4 (plus letra) ].

(** [(?:desde\s+el\s+)?(\d{1,2})\s+de\s+(MES)\s+por\s+(\d+)\s+(?:d[ií]as?|noches?)] *)
Definition pattern3 : regex :=
  seqs [ desde_el;
         Grp 1 dia; plus ws; lit "de"; plus ws; Grp 2 (plus letra); plus ws;
         lit "por"; plus ws; Grp 3 (plus digit); plus ws;
         alts [ seqs [lit "d"; oneof (Py.u "ií"); lit "a"; opt (lit "s")];
                seqs [lit "noche"; opt (lit "s")] ] ].

(** [entre\s+el\s+(\d{1,2})\s+y\s+(\d{1,2})\s+de\s+([a-zA-Záéíóúñ]+)] *)
Definition pattern_entre : regex :=
  seqs [ lit "entre"; plus ws; lit "el"; plus ws;
         Grp 1 dia; plus ws; lit "y"; plus ws;
         Grp 2 dia; plus ws; lit "de"; plus ws; Grp 3 (plus letra) ].

(** [(\d{1,2}[/-]\d{1,2}[/-]\d{2,4})] *)
Definition standard_pattern : regex :=
  Grp 1 (seqs [ dia; oneof (Py.u "/-"); dia; oneof (Py.u "/-");
                Rep 2 (Some 4%nat) digit ]).

(** [(\d{1,2})\s+de\s+([a-zA-Záéíóúñ]+)] *)
Definition pattern_dia_de_mes : regex :=
  seqs [ Grp 1 dia; plus ws; lit "de"; plus ws; Grp 2 (plus letra) ].

(** [_build_date_patterns]: the table kept in [self.date_patterns], each
    pattern with its number of groups *)
Definition _build_date_patterns : list (regex * nat) :=
  [ (pattern1, 3%nat); (pattern2, 4%nat);
    (pattern3, 3%nat); (pattern_entre, 3%nat);
    (standard_pattern, 1%nat); (pattern_dia_de_mes, 2%nat) ].

(** [_build_confirmation_patterns] *)
Definition _build_confirmation_patterns : list regex :=
  [ seqs [ Wb;
           Grp 1 (alts [ lit "confirmo"; lit "reservo"; lit "acepto"; lit "ok";
                         seqs [lit "s"; oneof (Py.u "ií")];
                         lit "perfecto"; lit "genial"; lit "bien" ]);
           Wb ];
    seqs [ Wb;
           Grp 1 (alts [ lit "tomamos"; lit "reservamos";
                         seqs [lit "me"; plus ws; lit "quedo"];
                         seqs [lit "nos"; plus ws; lit "quedamos"] ]);
           Wb ];
    seqs [ Wb;
           Grp 1 (alts [lit "quiero"; lit "deseo"]); plus ws;
           alts [ lit "reservar"; lit "tomar"; lit "quedarme";
                  lit "hospedarme" ];
           Wb ] ].

Section Engine.

Context `{Datetime}.

(** [_get_appropriate_year] *)
Definition _get_appropriate_year (month_num : Z) : Z :=
  let current_month := now_month in
  let current_year := now_year in
  if ((month_num <? current_month) && (10 <=? current_month))%Z
  then (current_year + 1)%Z
  else current_year.

(** [f"{year}-{month_num:02d}-{day:02d}"] *)
Definition format_date (year month_num day : Z) : Py.str :=
  str_of_Z year ++ Py.u "-" ++ format_02d month_num
                ++ Py.u "-" ++ format_02d day.

Definition formats : list Py.str :=
  [ Py.u "%d/%m/%Y"; Py.u "%d-%m-%Y"; Py.u "%Y-%m-%d";
    Py.u "%d/%m/%y"; Py.u "%d-%m-%y" ].

(** the first format that parses the text *)
Fixpoint try_formats (fmts : list Py.str) (date_str : Py.str)
  : option Py.str :=
  match fmts with
  | [] => None
  | fmt :: rest =>
      match strptime date_str fmt with
      | Some date_obj => Some (strftime date_obj (Py.u "%Y-%m-%d"))
      | None => try_formats rest date_str
      end
  end.

(** [_normalize_date] *)
Definition _normalize_date (date_str : Py.str) : option Py.str :=
  match try_formats formats date_str with
  | Some normalized => Some normalized
  | None =>
      if Py.contains (Py.u "de") date_str then
        match split (Py.u " de ") date_str with
        | [day; month] =>
            match spanish_months !! Py.lower month with
            | Some month_num =>
                if (month_num =? 0)%Z then None
                else
                  let year := _get_appropriate_year month_num in
                  match int day with
                  | Some d => Some (format_date year month_num d)
                  | None => None
                  end
            | None => None
            end
        | _ => None
        end
      else None
  end.

(** the two dates a "del D1 al D2 de MES" match contributes *)
Definition dates_del_al (m : list Py.str) : list Py.str :=
  match m with
  | [g1; g2; g3] =>
      let day_start := Py.int_of_digits g1 in
      let day_end := Py.int_of_digits g2 in
      let month_name := Py.lower g3 in
      match spanish_months !! month_name with
      | Some month_num =>
          if (month_num =? 0)%Z then []
          else
            let year := _get_appropriate_year month_num in
            [ format_date year month_num day_start;
              format_date year month_num day_end ]
      | None => []
      end
  | _ => []
  end.

Definition dates_desde_hasta (m : list Py.str) : list Py.str :=
  match m with
  | [g1; g2; g3; g4] =>
      let day_start := Py.int_of_digits g1 in
      let month_start_name := Py.lower g2 in
      let day_end := Py.int_of_digits g3 in
      let month_end_name := Py.lower g4 in
      match spanish_months !! month_start_name,
            spanish_months !! month_end_name with
      | Some month_start_num, Some month_end_num =>
          if ((month_start_num =? 0) || (month_end_num =? 0))%Z then []
          else
            let year_start := _get_appropriate_year month_start_num in
            let year_end := _get_appropriate_year month_end_num in
            [ format_date year_start month_start_num day_start;
              format_date year_end month_end_num day_end ]
      | _, _ => []
      end
  | _ => []
  end.

Definition dates_por_dias (m : list Py.str) : list Py.str :=
  match m with
  | [g1; g2; g3] =>
      let day_start := Py.int_of_digits g1 in
      let month_name := Py.lower g2 in
      let days := Py.int_of_digits g3 in
      match spanish_months !! month_name with
      | Some month_num =>
          if (month_num =? 0)%Z then []
          else
            let year := _get_appropriate_year month_num in
            let start_date := format_date year month_num day_start in
            match strptime start_date (Py.u "%Y-%m-%d") with
            | Some start_obj =>
                match add_days start_obj (days - 1) with
                | Some end_obj =>
                    [start_date; strftime end_obj (Py.u "%Y-%m-%d")]
                | None => []
                end
            | None => []
            end
      | None => []
      end
  | _ => []
  end.

(** the raw strings collected before normalisation *)
Definition dates_found (text : Py.str) : list Py.str :=
  let text_lower := Py.lower text in
  concat (map dates_del_al (findall pattern1 3 text_lower))
  ++ concat (map dates_desde_hasta (findall pattern2 4 text_lower))
  ++ concat (map dates_por_dias (findall pattern3 3 text_lower))
  ++ concat (findall standard_pattern 1 text).

(** [NLPEngine.extract_dates] *)
Definition extract_dates (text : Py.str) : list Py.str :=
  let normalized_dates :=
    omap (fun date_str =>
            match _normalize_date date_str with
            | Some (c :: t) => Some (c :: t)       (* if normalized: *)
            | _ => None
            end)
         (dates_found text) in
  sorted_set normalized_dates.

End Engine.

Definition reservation_context : list Py.str :=
  [ Py.u "reserva"; Py.u "propiedad"; Py.u "casa"; Py.u "alojamiento";
    Py.u "airbnb" ].

(** [NLPEngine.detect_confirmation]: the loop over the patterns returns at
    the first one that matches while a context word is present. *)
Definition detect_confirmation (text : Py.str) : bool :=
  let text_lower := Py.lower text in
  existsb (fun pattern =>
             search pattern text_lower &&
             existsb (fun context => Py.contains context text_lower)
                     reservation_context)
          _build_confirmation_patterns.

End NlpEngine.

(* ===================================================================== *)
(** ** core/optimized_nlp.py                                              *)
(* ===================================================================== *)

Module OptimizedNlp.

Import Re.

(** What [_result_cache] holds under a key: the boolean of a confirmation
    check, or the data of another extraction. *)
Inductive cached : Type :=
| CBool (b : bool)
| CData.

(** The engine's [_result_cache], a dictionary in insertion order. *)
Abbreviation cache := (list (string * cached)).

Definition _max_cache_size : nat := 1000.

(** [_compiled_patterns['confirmation']]:
    [\b(?:confirmo|confirmado|ok|sí|si|vale|perfecto|de acuerdo)\b] with
    [re.IGNORECASE] *)
Definition confirmation : regex :=
  seqs [ Wb;
         alts [ liti "confirmo"; liti "confirmado"; liti "ok"; liti "sí";
                liti "si"; liti "vale"; liti "perfecto"; liti "de acuerdo" ];
         Wb ].

(** [_get_cache_key] *)
Definition _get_cache_key (text : Py.str) (operation : string) : result string :=
  match Py.utf8_encode text with
  | Some bytes => Ok (operation +:+ "_" +:+ Md5.hexdigest bytes)
  | None => Raise UnicodeEncodeError
  end.

Fixpoint dict_get (c : cache) (key : string) : option cached :=
  match c with
  | [] => None
  | (k, v) :: t => if String.eqb k key then Some v else dict_get t key
  end.

(** [d[key] = v]: an existing key keeps its place *)
Fixpoint dict_set (c : cache) (key : string) (v : cached) : cache :=
  match c with
  | [] => [(key, v)]
  | (k, w) :: t =>
      if String.eqb k key then (k, v) :: t else (k, w) :: dict_set t key v
  end.

(** [_get_cached_result] *)
Definition _get_cached_result (c : cache) (text : Py.str) (operation : string)
  : result (option cached) :=
  cache_key ← _get_cache_key text operation;
  mret (dict_get c cache_key).

(** [_cache_result]: at the size limit the hundred oldest keys go first. *)
Definition _cache_result (c : cache) (text : Py.str) (operation : string)
    (v : cached) : result cache :=
  let c1 := if (_max_cache_size <=? length c)%nat then skipn 100 c else c in
  cache_key ← _get_cache_key text operation;
  mret (dict_set c1 cache_key v).

(** [detect_confirmation_optimized]: what is returned, and the cache
    afterwards. *)
Definition detect_confirmation_optimized (c : cache) (text : Py.str)
  : result (cached * cache) :=
  cached_result ← _get_cached_result c text "confirmation";
  match cached_result with
  | Some v => mret (v, c)
  | None =>
      let confirmation := search confirmation text in
      c' ← _cache_result c text "confirmation" (CBool confirmation);
      mret (CBool confirmation, c')
  end.

End OptimizedNlp.

(* ===================================================================== *)
(** * Further code of the same files                                      *)
(* ===================================================================== *)

(* ===================================================================== *)
(** ** More exceptions                                                    *)
(* ===================================================================== *)

(** The exceptions of the functions below: those of [exn], and the lookup
    and database errors. *)
Inductive exception : Type :=
| Builtin (e : exn)
| KeyError (key : string)
| IndexError
| OperationalError (msg : string)
| IntegrityError (msg : string)
| ZeroDivisionError.

Inductive outcome (A : Type) : Type :=
| Done (a : A)
| Throws (e : exception).
Arguments Done {A} a.
Arguments Throws {A} e.

#[global] Instance outcome_ret : MRet outcome := fun A a => Done a.
#[global] Instance outcome_bind : MBind outcome := fun A B f m =>
  match m with
  | Done a => f a
  | Throws e => Throws e
  end.
#[global] Instance outcome_fmap : FMap outcome := fun A B f m =>
  match m with
  | Done a => Done (f a)
  | Throws e => Throws e
  end.

(** a [result] seen as an [outcome] *)
Definition lift {A : Type} (r : result A) : outcome A :=
  match r with
  | Ok a => Done a
  | Raise e => Throws (Builtin e)
  end.

(* ===================================================================== *)
(** ** db/optimized_database.py: [QueryCache] and [OptimizedDatabase]     *)
(* ===================================================================== *)

Module QueryCache.

(** [self.cache]: key to (result, timestamp, ttl), with [str] keys and
    results of type [A] (rows, or anything else).  Clock readings are
    taken in whole seconds. *)
Abbreviation t A := (gmap Py.str (A * Z * Z)).

Section Cache.

Context {A : Type}.

Definition default_ttl : Z := 300.

(** [get]: the answer and the cache afterwards (an expired entry is
    deleted) *)
Definition get (c : t A) (now : Z) (key : Py.str) : option A * t A :=
  match c !! key with
  | Some (result, timestamp, ttl) =>
      if (now - timestamp <? ttl)%Z then (Some result, c)
      else (None, delete key c)
  | None => (None, c)
  end.

(** [set]; [ttl] is [None] or an [int], and [ttl or self.default_ttl]
    replaces both [None] and 0 *)
Definition set (c : t A) (now : Z) (key : Py.str) (value : A)
    (ttl : option Z) : t A :=
  let ttl := match ttl with
             | Some n => if (n =? 0)%Z then default_ttl else n
             | None => default_ttl
             end in
  <[key := (value, now, ttl)]> c.

(** [invalidate]: [pattern] is [None] or a [str]; a non-empty pattern
    removes the keys it occurs in, anything else clears the cache *)
Definition invalidate (c : t A) (pattern : option Py.str) : t A :=
  match pattern with
  | Some (x :: p) => filter (fun kv => negb (Py.contains (x :: p) kv.1)) c
  | _ => ∅
  end.

End Cache.

End QueryCache.

Module OptimizedQueries.

Import Re.

(** [s.split()]: the runs of characters that are not white space *)
Fixpoint split_whitespace_from (cur : Py.str) (s : Py.str) : list Py.str :=
  match s with
  | [] => match cur with [] => [] | _ => [rev cur] end
  | c :: t =>
      if Py.isspace c
      then match cur with
           | [] => split_whitespace_from [] t
           | _ => rev cur :: split_whitespace_from [] t
           end
      else split_whitespace_from (c :: cur) t
  end.

Definition split_whitespace (s : Py.str) : list Py.str :=
  split_whitespace_from [] s.

(** [l[i]], which raises [IndexError] past the end *)
Definition item {A : Type} (l : list A) (i : nat) : outcome A :=
  match nth_error l i with
  | Some x => Done x
  | None => Throws IndexError
  end.

(** [_cache_key]: [hq] and [hp] are [hash(query)] and [hash(params)] *)
Definition _cache_key (hq hp : Z) : Py.str :=
  NlpEngine.str_of_Z hq ++ Py.u "_" ++ NlpEngine.str_of_Z hp.

(** [_extract_table_name] *)
Definition _extract_table_name (query : Py.str) : outcome (option Py.str) :=
  let query_lower := Py.strip (Py.lower query) in
  if Py.startswith (Py.u "insert into") query_lower then
    rest ← item (NlpEngine.split (Py.u "insert into") query_lower) 1;
    word ← item (split_whitespace rest) 0;
    mret (Some (Py.strip word))
  else if Py.startswith (Py.u "update") query_lower then
    rest ← item (NlpEngine.split (Py.u "update") query_lower) 1;
    name ← item (NlpEngine.split (Py.u "set") rest) 0;
    mret (Some (Py.strip name))
  else if Py.startswith (Py.u "delete from") query_lower then
    rest ← item (NlpEngine.split (Py.u "delete from") query_lower) 1;
    word ← item (split_whitespace rest) 0;
    mret (Some (Py.strip word))
  else mret None.

Section Queries.

(** the rows a cursor fetches *)
Context {rows : Type}.

(** [execute_cached_query].  [fetched] is what running the query on the
    database gives, should the cache not answer; [t_get] and [t_set] are
    the clock readings of the lookup and of the fill.  The outcome comes
    with the cache afterwards. *)
Definition execute_cached_query (c : QueryCache.t rows) (t_get t_set : Z)
    (hq hp : Z) (ttl : Z) (fetched : outcome rows)
  : outcome rows * QueryCache.t rows :=
  let cache_key := _cache_key hq hp in
  match QueryCache.get c t_get cache_key with
  | (Some cached_result, c') => (Done cached_result, c')
  | (None, c') =>
      match fetched with
      | Done result =>
          (Done result, QueryCache.set c' t_set cache_key result (Some ttl))
      | Throws e => (Throws e, c')
      end
  end.

(** [execute_write_query].  [executed] is what [cursor.execute] did: the
    cursor's [lastrowid] ([None] or an [int]) and [rowcount], or the
    exception it raised. *)
Definition execute_write_query (c : QueryCache.t rows) (query : Py.str)
    (executed : outcome (option Z * Z)) : outcome Z * QueryCache.t rows :=
  match executed with
  | Throws e => (Throws e, c)
  | Done (lastrowid, rowcount) =>
      match _extract_table_name query with
      | Throws e => (Throws e, c)
      | Done table_name =>
          let c' := match table_name with
                    | Some (x :: name) => QueryCache.invalidate c (Some (x :: name))
                    | _ => c
                    end in
          (Done (match lastrowid with
                 | Some n => if (n =? 0)%Z then rowcount else n
                 | None => rowcount
                 end), c')
      end
  end.

End Queries.

End OptimizedQueries.

(* ===================================================================== *)
(** ** db/database.py: inserting and listing                              *)
(* ===================================================================== *)

Module DatabaseOps.

Import Sql Database.

Open Scope Z_scope.

(** The tables together with the counters SQLite keeps in
    [sqlite_sequence] for the two AUTOINCREMENT keys (0 before the first
    insert). *)
Record estado_db : Type := mk_estado {
  tablas : db;
  seq_reservas : Z;
  seq_mensajes : Z
}.

(** The key an AUTOINCREMENT column gives a new row: one more than the
    largest key the table holds or ever held.  Past the largest 64-bit
    integer the insert fails. *)
Definition next_rowid (ids : list Z) (seq : Z) : outcome Z :=
  let v := match ids with
           | [] => 1
           | x :: t => fold_right Z.max x t + 1
           end in
  if (9223372036854775807 <? v) || (seq =? 9223372036854775807)
  then Throws (OperationalError "database or disk is full")
  else Done (Z.max v (seq + 1)).

(** a NOT NULL column refuses NULL *)
Definition not_null (column : string) (v : value) : outcome unit :=
  match v with
  | Null => Throws (IntegrityError ("NOT NULL constraint failed: " +:+ column))
  | _ => Done tt
  end.

(** *** ORDER BY *)

(** SQLite's sort order: NULL first, then integers, then texts *)
Definition sorts_before (a b : value) : bool :=
  match a, b with
  | Null, Null => false
  | Null, _ => true
  | _, Null => false
  | _, _ => match compare a b with Some Lt => true | _ => false end
  end.

(** [ORDER BY key DESC]: rows with equal keys come in an order SQLite
    does not fix; here they stay in table order. *)
Fixpoint insert_desc {A : Type} (key : A -> value) (x : A) (l : list A)
  : list A :=
  match l with
  | [] => [x]
  | y :: t =>
      if sorts_before (key x) (key y) then y :: insert_desc key x t
      else x :: l
  end.

Definition order_by_desc {A : Type} (key : A -> value) (l : list A) : list A :=
  fold_right (insert_desc key) [] l.

(** *** Messages *)

(** [guardar_mensaje]; [timestamp] is SQLite's [CURRENT_TIMESTAMP].
    Returns [cursor.lastrowid]. *)
Definition guardar_mensaje (st : estado_db) (timestamp : string)
    (remitente asunto cuerpo : value) : outcome (Z * estado_db) :=
  _ ← lift (bind_params [remitente; asunto; cuerpo]);
  mensaje_id ← next_rowid (map mensaje_id (mensajes (tablas st)))
                          (seq_mensajes st);
  let m := mk_mensaje mensaje_id (store TEXT remitente) (store TEXT asunto)
             (store TEXT cuerpo) (store NUMERIC (Text timestamp))
             (Int 0) Null Null in
  mret (mensaje_id,
        mk_estado (mk_db (reservas (tablas st)) (mensajes (tablas st) ++ [m]))
                  (seq_reservas st) mensaje_id).

(** [SELECT * FROM mensajes WHERE respondido = 0 ORDER BY fecha_recibido DESC] *)
Definition obtener_mensajes_no_respondidos (d : db) : list mensaje :=
  order_by_desc fecha_recibido
    (List.filter (fun m => holds (eq3 (respondido m) (Int 0))) (mensajes d)).

(** [WHERE respondido = 0 AND motivo_no_respuesta IS NOT NULL] *)
Definition obtener_mensajes_que_requieren_atencion (d : db) : list mensaje :=
  order_by_desc fecha_recibido
    (List.filter
       (fun m => holds (and3 (eq3 (respondido m) (Int 0))
                             (Some (negb (bool_decide (motivo_no_respuesta m = Null))))))
       (mensajes d)).

(** [WHERE respuesta IS NOT NULL ORDER BY fecha_recibido DESC LIMIT 1],
    read with [fetchone] *)
Definition obtener_ultima_respuesta_sistema (d : db) : option mensaje :=
  head (order_by_desc fecha_recibido
          (List.filter (fun m => negb (bool_decide (respuesta m = Null)))
                       (mensajes d))).

(** *** Reservations *)

(** [crear_reserva_con_detalles].  The nightly price is read first, to
    compute [precio_total]; a missing property or a date that does not
    parse gives the price 0 and raises nothing, and the price is not kept
    in [reserva].  The availability is not looked at. *)
Definition crear_reserva_con_detalles (st : estado_db)
    (propiedad_id fecha_inicio fecha_fin huesped correo telefono estado : value)
  : outcome (Z * estado_db) :=
  _ ← lift (bind_params [propiedad_id]);
  _ ← lift (bind_params [propiedad_id; fecha_inicio; fecha_fin; huesped;
                         correo; telefono; estado]);
  reserva_id ← next_rowid (map reserva_id (reservas (tablas st)))
                          (seq_reservas st);
  _ ← not_null "reservas.fecha_inicio" fecha_inicio;
  _ ← not_null "reservas.fecha_fin" fecha_fin;
  _ ← not_null "reservas.huesped" huesped;
  let r := mk_reserva reserva_id (store INTEGER propiedad_id)
             (store NUMERIC fecha_inicio) (store NUMERIC fecha_fin)
             (store TEXT huesped) (store TEXT correo) (store TEXT telefono)
             (store TEXT estado) in
  mret (reserva_id,
        mk_estado (mk_db (reservas (tablas st) ++ [r]) (mensajes (tablas st)))
                  reserva_id (seq_mensajes st)).

End DatabaseOps.

(* ===================================================================== *)
(** ** utils/conversation_tracker.py: the file-backed store               *)
(* ===================================================================== *)

Module Tracker.

Open Scope Z_scope.

(** A conversation as [_create_empty_conversation] builds it.  [V] is
    what callers keep under a key of ['data'] and in ['messages']: any
    value that [json] can write and read back.  The two dates are kept as
    the instants they denote, in microseconds: [isoformat] writes an
    instant and [fromisoformat] reads it back. *)
Record conversation (V : Type) : Type := mk_conversation {
  id : string;
  created_at : Z;
  updated_at : Z;
  state : string;
  data : gmap string V;
  messages : list V
}.
Arguments mk_conversation {V}.
Arguments id {V}.
Arguments created_at {V}.
Arguments updated_at {V}.
Arguments state {V}.
Arguments data {V}.
Arguments messages {V}.

(** What [_load_conversations] returns: the dictionary written to
    [data/conversations.json], or the empty one when the file is missing
    or unreadable. *)
Abbreviation conversations V := (gmap string (conversation V)).

Section Store.

Context {V : Type}.

(** [_create_empty_conversation]; [t1] and [t2] are its two clock
    readings *)
Definition _create_empty_conversation (t1 t2 : Z) (conversation_id : string)
  : conversation V :=
  mk_conversation conversation_id t1 t2 "new" ∅ [].

(** [timedelta(hours=48)] *)
Definition hours_48 : Z := 172800000000.

(** [_cleanup_old_conversations], which deletes from the dictionary it
    is given; [now] is the clock reading the cutoff is taken from *)
Definition _cleanup_old_conversations (now : Z) (c : conversations V)
  : conversations V :=
  let cutoff := now - hours_48 in
  filter (fun kv => negb (created_at kv.2 <? cutoff)) c.

(** [_save_conversations]: the dictionary after the cleanup, which is
    both what the file then holds and what the caller's dictionary has
    become *)
Definition _save_conversations (now : Z) (c : conversations V)
  : conversations V :=
  _cleanup_old_conversations now c.

(** [get_conversation]; the default is built whether it is needed or not *)
Definition get_conversation (file : conversations V) (t1 t2 : Z)
    (conversation_id : string) : conversation V :=
  default (_create_empty_conversation t1 t2 conversation_id)
          (file !! conversation_id).

(** [update_conversation_data]: what is returned, and the file afterwards.
    [t1], [t2] are read when the conversation is created, [t3] for
    [updated_at] and [t4] by the cleanup. *)
Definition update_conversation_data (file : conversations V)
    (t1 t2 t3 t4 : Z)
    (conversation_id : string) (data_dict : gmap string V)
  : outcome (gmap string V) * conversations V :=
  let conversations :=
    match file !! conversation_id with
    | Some _ => file
    | None => <[conversation_id :=
                  _create_empty_conversation t1 t2 conversation_id]> file
    end in
  let conversations :=
    alter (fun c => mk_conversation (id c) (created_at c) t3 (state c)
                      (data_dict ∪ data c) (messages c))
          conversation_id conversations in
  let conversations := _save_conversations t4 conversations in
  (match conversations !! conversation_id with
   | Some c => Done (data c)
   | None => Throws (KeyError conversation_id)
   end, conversations).

(** [get_conversation_data] *)
Definition get_conversation_data (file : conversations V) (t1 t2 : Z)
    (conversation_id : string) : gmap string V :=
  data (get_conversation file t1 t2 conversation_id).

(** [set_conversation_state]: the file afterwards *)
Definition set_conversation_state (file : conversations V) (t3 t4 : Z)
    (conversation_id : string) (new_state : string) : conversations V :=
  match file !! conversation_id with
  | Some c =>
      _save_conversations t4
        (<[conversation_id :=
             mk_conversation (id c) (created_at c) t3 new_state (data c)
                             (messages c)]> file)
  | None => file
  end.

(** [get_conversation_state] *)
Definition get_conversation_state (file : conversations V) (t1 t2 : Z)
    (conversation_id : string) : string :=
  state (get_conversation file t1 t2 conversation_id).

Definition required : list string :=
  ["property_id"; "check_in"; "check_out"; "guest_name"]%string.

(** [has_complete_reservation_data] *)
Definition has_complete_reservation_data (file : conversations V)
    (t1 t2 : Z)
    (conversation_id : string) : bool :=
  let data := get_conversation_data file t1 t2 conversation_id in
  forallb (fun field => bool_decide (is_Some (data !! field))) required.

(** [get_missing_reservation_fields] *)
Definition get_missing_reservation_fields (file : conversations V)
    (t1 t2 : Z)
    (conversation_id : string) : list string :=
  let data := get_conversation_data file t1 t2 conversation_id in
  List.filter (fun field => negb (bool_decide (is_Some (data !! field))))
              required.

End Store.

End Tracker.

(* ===================================================================== *)
(** ** utils/memory_optimizer.py: [MemoryEfficientList]                   *)
(* ===================================================================== *)

Module MemoryEfficientList.

Open Scope Z_scope.

(** *** Python lists *)

(** where a slice bound falls in a list of length [n] *)
Definition clamp (n i : Z) : Z :=
  if i <? 0 then Z.max (i + n) 0 else Z.min i n.

(** [l[start:stop]] *)
Definition slice {A : Type} (l : list A) (start stop : Z) : list A :=
  let n := Z.of_nat (length l) in
  let s := clamp n start in
  let e := clamp n stop in
  firstn (Z.to_nat (e - s)) (skipn (Z.to_nat s) l).

(** [l[i]] *)
Definition item {A : Type} (l : list A) (i : Z) : outcome A :=
  let n := Z.of_nat (length l) in
  let j := if i <? 0 then i + n else i in
  if (0 <=? j) && (j <? n) then
    match nth_error l (Z.to_nat j) with
    | Some x => Done x
    | None => Throws IndexError
    end
  else Throws IndexError.

Section List.

Context {A : Type}.

(** [data] is the list the data source returns, at every call the same;
    [chunk_size] is the constructor's argument. *)
Variable data : list A.
Variable chunk_size : Z.

Record t : Type := mk {
  _chunks : gmap Z (list A);
  _total_size : option Z
}.

(** the list as constructed *)
Definition new : t := mk ∅ None.

(** [__len__]: the length, and the list with the length remembered *)
Definition __len__ (l : t) : Z * t :=
  match _total_size l with
  | Some n => (n, l)
  | None => let n := Z.of_nat (length data) in (n, mk (_chunks l) (Some n))
  end.

(** [min(self._chunks.keys())] *)
Definition oldest_chunk (chunks : gmap Z (list A)) : option Z :=
  match (map_to_list chunks).*1 with
  | [] => None
  | k :: ks => Some (fold_right Z.min k ks)
  end.

(** [_load_chunk] *)
Definition _load_chunk (l : t) (chunk_index : Z) : t :=
  match _chunks l !! chunk_index with
  | Some _ => l
  | None =>
      let start_index := chunk_index * chunk_size in
      let end_index := start_index + chunk_size in
      let chunk := slice data start_index end_index in
      let chunks :=
        if 10 <? Z.of_nat (size (_chunks l)) then
          match oldest_chunk (_chunks l) with
          | Some oldest => delete oldest (_chunks l)
          | None => _chunks l
          end
        else _chunks l in
      mk (<[chunk_index := chunk]> chunks) (_total_size l)
  end.

(** [__getitem__] for an [int] index: the outcome, and the list with the
    chunks it holds afterwards *)
Definition __getitem__ (l : t) (index : Z) : outcome A * t :=
  if chunk_size =? 0 then (Throws ZeroDivisionError, l)
  else
    let chunk_index := index / chunk_size in
    let item_index := index mod chunk_size in
    let l := match _chunks l !! chunk_index with
             | Some _ => l
             | None => _load_chunk l chunk_index
             end in
    match _chunks l !! chunk_index with
    | Some chunk =>
        if item_index <? Z.of_nat (length chunk)
        then (item chunk item_index, l)
        else (Throws IndexError, l)
    | None => (Throws (KeyError (pretty chunk_index)), l)
    end.

(** [clear_cache] *)
Definition clear_cache (l : t) : t := mk ∅ None.

End List.

End MemoryEfficientList.

(* ===================================================================== *)
(** ** core/nlp_engine.py and core/optimized_nlp.py: capacity             *)
(* ===================================================================== *)

Module Capacity.

Import Re.

(** [personas?|hu[eé]spedes?|huespedes?|pax] *)
Definition huespedes : list regex :=
  [ seqs [lit "persona"; opt (lit "s")];
    seqs [lit "hu"; oneof (Py.u "eé"); lit "spede"; opt (lit "s")];
    seqs [lit "huespede"; opt (lit "s")];
    lit "pax" ].

(** [personas?|hu[eé]spedes?|huespedes?] *)
Definition huespedes_sin_pax : list regex :=
  [ seqs [lit "persona"; opt (lit "s")];
    seqs [lit "hu"; oneof (Py.u "eé"); lit "spede"; opt (lit "s")];
    seqs [lit "huespede"; opt (lit "s")] ].

(** [NLPEngine._build_capacity_patterns]; every pattern has one group *)
Definition _build_capacity_patterns : list regex :=
  [ seqs [ Grp 1 (plus digit); star ws;
           alts (huespedes ++ [seqs [lit "invitado"; opt (lit "s")]]) ];
    seqs [ lit "para"; plus ws; Grp 1 (plus digit); star ws; alts huespedes ];
    seqs [ Grp 1 (plus digit); star ws; alts huespedes; star ws;
           alts [ lit "son"; seqs [lit "ser"; oneof (Py.u "íi"); lit "an"];
                  lit "vamos"; lit "somos" ] ];
    seqs [ alts [ seqs [lit "nos"; plus ws; lit "hospedaremos"];
                  seqs [lit "nos"; plus ws; lit "alojaremos"];
                  seqs [lit "vamos"; plus ws; lit "a"; plus ws; lit "ser"] ];
           plus ws; Grp 1 (plus digit); star ws; alts huespedes_sin_pax ];
    seqs [ alts [lit "somos"; lit "seremos"];
           plus ws; Grp 1 (plus digit); star ws; alts huespedes_sin_pax ] ].

(** the first match of a pattern that gives a capacity from 1 to 20 *)
Fixpoint first_in_range (matches : list (list Py.str)) : option Z :=
  match matches with
  | [] => None
  | m :: rest =>
      let capacity := Py.int_of_digits (hd [] m) in
      if ((1 <=? capacity) && (capacity <=? 20))%Z then Some capacity
      else first_in_range rest
  end.

Fixpoint first_pattern (patterns : list regex) (text_lower : Py.str)
  : option Z :=
  match patterns with
  | [] => None
  | pattern :: rest =>
      match first_in_range (findall pattern 1 text_lower) with
      | Some capacity => Some capacity
      | None => first_pattern rest text_lower
      end
  end.

(** [NLPEngine.extract_capacity] *)
Definition extract_capacity (text : Py.str) : option Z :=
  first_pattern _build_capacity_patterns (Py.lower text).

(** [_compiled_patterns['capacity']]:
    [\b(\d+)\s*(?:persona|huésped|gente|pax)\b] with [re.IGNORECASE] *)
Definition capacity : regex :=
  seqs [ Wb; Grp 1 (plus digit); star ws;
         alts [liti "persona"; liti "huésped"; liti "gente"; liti "pax"];
         Wb ].

(** [OptimizedNLPEngine.extract_capacity_optimized].  [cached_result] is
    what the result cache holds for the text ([None] when it holds
    nothing); the cache afterwards is not followed here. *)
Definition extract_capacity_optimized (cached_result : option Z)
    (text : Py.str) : result (option Z) :=
  _ ← OptimizedNlp._get_cache_key text "capacity";
  match cached_result with
  | Some capacity => mret (Some capacity)
  | None =>
      mret (match search_from capacity [] text with
            | Some (_, _, c) => Some (Py.int_of_digits (group 1 c))
            | None => None
            end)
  end.

End Capacity.

(* ===================================================================== *)
(** ** db/optimized_database.py: [ConnectionPool]                         *)
(* ===================================================================== *)

Module ConnectionPool.

Open Scope Z_scope.

(** a connection object, by identity *)
Abbreviation connection := nat.

(** [_lock_held] records that [self._lock], which is not reentrant, was
    left held by a call that never returns. *)
Record t : Type := mk {
  max_connections : Z;
  _pool : list connection;
  _in_use : gset connection;
  _lock_held : bool
}.

(** [ConnectionPool(database_path, max_connections)] *)
Definition new (max_connections : Z) : t := mk max_connections [] ∅ false.

(** [get_connection]: the connection returned, or [None] when the call
    never returns.  With the pool empty and every connection in use the
    method calls itself while it holds the lock, and waits for that lock
    for ever. *)
Definition get_connection (p : t) : option connection * t :=
  if _lock_held p then (None, p)
  else
    match rev (_pool p) with
    | conn :: rest =>                                   (* self._pool.pop() *)
        (Some conn,
         mk (max_connections p) (rev rest) ({[conn]} ∪ _in_use p) false)
    | [] =>
        if Z.of_nat (size (_in_use p)) <? max_connections p then
          let conn := fresh (_in_use p) in              (* sqlite3.connect *)
          (Some conn,
           mk (max_connections p) [] ({[conn]} ∪ _in_use p) false)
        else
          (None, mk (max_connections p) [] (_in_use p) true)
    end.

(** [return_connection]: [None] when the call never returns *)
Definition return_connection (p : t) (conn : connection) : option unit * t :=
  if _lock_held p then (None, p)
  else if bool_decide (conn ∈ _in_use p) then
    (Some tt,
     mk (max_connections p) (_pool p ++ [conn]) (_in_use p ∖ {[conn]}) false)
  else (Some tt, p).

End ConnectionPool.

(* ===================================================================== *)
(** ** db/optimized_database.py: batches                                  *)
(* ===================================================================== *)

Module Batch.

Import Sql OptimizedQueries.

(** the columns of [mensajes], as [init_db] creates the table *)
Definition mensajes_columns : list string :=
  [ "id"; "remitente"; "asunto"; "cuerpo"; "fecha_recibido"; "respondido";
    "respuesta"; "motivo_no_respuesta" ].

(** An [INSERT INTO mensajes (columns) ...] is compiled before any
    parameter is bound; a column the table does not have stops it. *)
Fixpoint prepare_insert (columns : list string) : outcome unit :=
  match columns with
  | [] => Done tt
  | column :: rest =>
      if bool_decide (column ∈ mensajes_columns) then prepare_insert rest
      else Throws (OperationalError
                     ("table mensajes has no column named " +:+ column))
  end.

(** [lastrowid or rowcount] *)
Definition lastrowid_or_rowcount (r : option Z * Z) : Z :=
  match r.1 with
  | Some n => if (n =? 0)%Z then r.2 else n
  | None => r.2
  end.

(** the loop of [execute_batch] over a database in state [S]:
    [execute params st] is what [cursor.execute(query, params)] does *)
Fixpoint execute_all {P S : Type}
    (execute : P -> S -> outcome ((option Z * Z) * S))
    (params_list : list P) (st : S) : outcome (list Z * S) :=
  match params_list with
  | [] => Done ([], st)
  | params :: rest =>
      r ← execute params st;
      results ← execute_all execute rest r.2;
      mret (lastrowid_or_rowcount r.1 :: results.1, results.2)
  end.

Section Cached.

Context {rows S : Type}.

(** [execute_batch], run with a connection the pool can hand out: the
    outcome, the database and the cache afterwards.  [get_cursor]
    commits when the block ends and rolls back when it raises, which
    leaves the database and the cache as they were. *)
Definition execute_batch {P : Type} (c : QueryCache.t rows) (query : Py.str)
    (execute : P -> S -> outcome ((option Z * Z) * S))
    (params_list : list P) (st : S)
  : outcome (list Z) * S * QueryCache.t rows :=
  match execute_all execute params_list st with
  | Throws e => (Throws e, st, c)
  | Done (results, st') =>
      match _extract_table_name query with
      | Throws e => (Throws e, st, c)
      | Done table_name =>
          (Done results, st',
           match table_name with
           | Some (x :: name) => QueryCache.invalidate c (Some (x :: name))
           | _ => c
           end)
      end
  end.

(** the statement of [bulk_insert_messages] *)
Definition bulk_insert_query : Py.str :=
  Py.u "
        INSERT INTO mensajes (asunto, remitente, contenido, fecha_recibido, respondido)
        VALUES (?, ?, ?, ?, ?)
    ".

(** the columns it names *)
Definition bulk_insert_columns : list string :=
  ["asunto"; "remitente"; "contenido"; "fecha_recibido"; "respondido"].

(** [msg[key]] *)
Definition subscript (msg : gmap string value) (key : string) : outcome value :=
  match msg !! key with
  | Some v => Done v
  | None => Throws (KeyError key)
  end.

(** the tuple built from one message *)
Definition params_of (msg : gmap string value) : outcome (list value) :=
  asunto ← subscript msg "asunto";
  remitente ← subscript msg "remitente";
  contenido ← subscript msg "contenido";
  fecha_recibido ← subscript msg "fecha_recibido";
  mret [asunto; remitente; contenido; fecha_recibido;
        default (Int 0) (msg !! "respondido"%string)].

Fixpoint params_list_of (messages : list (gmap string value))
  : outcome (list (list value)) :=
  match messages with
  | [] => Done []
  | msg :: rest =>
      params ← params_of msg;
      others ← params_list_of rest;
      mret (params :: others)
  end.

(** What a compiled [INSERT] does with its parameters is left open: the
    statement has to compile first. *)
Variable insert : list value -> S -> outcome ((option Z * Z) * S).

(** [bulk_insert_messages] *)
Definition bulk_insert_messages (c : QueryCache.t rows) (st : S)
    (messages : list (gmap string value))
  : outcome (list Z) * S * QueryCache.t rows :=
  match params_list_of messages with
  | Throws e => (Throws e, st, c)
  | Done params_list =>
      execute_batch c bulk_insert_query
        (fun params st =>
           _ ← prepare_insert bulk_insert_columns;
           insert params st)
        params_list st
  end.

End Cached.

End Batch.

(* ===================================================================== *)
(** ** db/conversation_db.py: the history of a conversation               *)
(* ===================================================================== *)

Module ConversationMessages.

Import Sql DatabaseOps.

Open Scope Z_scope.

(** a row of [conversation_messages] *)
Record message : Type := mk_message {
  id : Z;
  conversation_id : value;
  message_id : value;
  sender : value;
  subject : value;
  body : value;
  received_at : value;
  message_type : value;
  processed : value
}.

(** the table and its AUTOINCREMENT counter *)
Record estado : Type := mk_estado {
  conversation_messages : list message;
  seq : Z
}.

(** [ORDER BY key]: ascending, rows with equal keys in table order *)
Fixpoint insert_asc {A : Type} (key : A -> value) (x : A) (l : list A)
  : list A :=
  match l with
  | [] => [x]
  | y :: t =>
      if sorts_before (key y) (key x) then y :: insert_asc key x t
      else x :: l
  end.

Definition order_by {A : Type} (key : A -> value) (l : list A) : list A :=
  fold_right (insert_asc key) [] l.

(** [message_data.get(key)] and [message_data.get(key, default)] *)
Definition dict_get (message_data : gmap string value) (key : string)
    (default_value : value) : value :=
  default default_value (message_data !! key).

(** [add_message_to_conversation]; [timestamp] is SQLite's
    [CURRENT_TIMESTAMP].  No row of [conversations] is looked up. *)
Definition add_message_to_conversation (st : estado) (timestamp : string)
    (conversation_id : value) (message_data : gmap string value)
  : outcome estado :=
  let message_id := dict_get message_data "message_id" Null in
  let sender := dict_get message_data "sender" Null in
  let subject := dict_get message_data "subject" Null in
  let body := dict_get message_data "body" Null in
  let message_type :=
    dict_get message_data "message_type" (Text "desconocido") in
  _ ← lift (bind_params [conversation_id; message_id; sender; subject; body;
                         message_type]);
  rowid ← next_rowid (map id (conversation_messages st)) (seq st);
  let m := mk_message rowid (store TEXT conversation_id)
             (store INTEGER message_id) (store TEXT sender)
             (store TEXT subject) (store TEXT body)
             (store NUMERIC (Text timestamp)) (store TEXT message_type)
             (Int 0) in
  mret (mk_estado (conversation_messages st ++ [m]) rowid).

(** the columns [get_conversation_messages] selects *)
Definition selected (m : message) : list value :=
  [sender m; subject m; body m; received_at m; message_type m].

(** [WHERE conversation_id = ?]: the parameter meets a TEXT column *)
Definition of_conversation (conversation_id : value) (m : message) : bool :=
  holds (eq3 (ConversationMessages.conversation_id m)
             (store TEXT conversation_id)).

Definition get_conversation_messages (st : estado) (conversation_id : value)
  : result (list (list value)) :=
  _ ← bind_params [conversation_id];
  mret (map selected
          (order_by received_at
             (List.filter (of_conversation conversation_id)
                          (conversation_messages st)))).

End ConversationMessages.

(** * Vocabulary of the statements *)

Module SqlProps.
Import Sql.

(** Prop-level readings of a comparison between two values; each one
    fails when an operand is NULL. *)
Definition vlt (a b : value) : Prop := compare a b = Some Lt.
Definition vle (a b : value) : Prop :=
  compare a b = Some Lt \/ compare a b = Some Eq.

End SqlProps.

Module DatabaseProps.
Import Sql SqlProps Database.

(** The reservation is for the requested property. *)
Definition de_propiedad (p_id : value) (r : reserva) : Prop :=
  propiedad_id r = store INTEGER p_id /\ propiedad_id r <> Null.

(** Its status is 'confirmada' or 'pendiente'. *)
Definition activa (r : reserva) : Prop :=
  estado r = Text "confirmada" \/ estado r = Text "pendiente".

(** [NOT (existing.fecha_fin < inicio OR existing.fecha_inicio > fin)] is
    true: no operand is NULL and neither comparison holds. *)
Definition solapa (inicio fin : value) (r : reserva) : Prop :=
  (fecha_inicio r <> Null /\ fecha_fin r <> Null /\
   inicio <> Null /\ fin <> Null) /\
  ~ (vlt (fecha_fin r) inicio \/ vlt fin (fecha_inicio r)).

Definition una_reserva_pendiente : db :=
  mk_db [ mk_reserva 1 (Int 1) (Text "2024-10-10") (Text "2024-10-15")
                     (Text "Maria") Null Null (Text "pendiente") ] [].

End DatabaseProps.

Module OptimizedDatabaseProps.
Import Sql SqlProps Database DatabaseProps.

(** The status is not 'cancelada' (and is not NULL). *)
Definition no_cancelada (r : reserva) : Prop :=
  estado r <> Text "cancelada" /\ estado r <> Null.

(** The three interval clauses of the optimized query. *)
Definition solapa_opt (inicio fin : value) (r : reserva) : Prop :=
  (vle (fecha_inicio r) inicio /\ vlt inicio (fecha_fin r)) \/
  (vlt (fecha_inicio r) fin /\ vle fin (fecha_fin r)) \/
  (vle inicio (fecha_inicio r) /\ vle (fecha_fin r) fin).

Definition estado_conocido (r : reserva) : Prop :=
  estado r = Null \/ estado r = Text "confirmada" \/
  estado r = Text "pendiente" \/ estado r = Text "cancelada".

(** a reservation that only touches the request: it ends on the requested
    first day or starts on the requested last day *)
Definition toca (inicio fin : value) (r : reserva) : Prop :=
  fecha_fin r = inicio \/ fecha_inicio r = fin.

End OptimizedDatabaseProps.

Module ConversationIdProps.
Import ConversationDb.
Open Scope N_scope.

Definition all_space (s : Py.str) : bool := forallb Py.isspace s.

Definition here : Re.cont (Py.str * Py.str * Re.caps) :=
  fun pre rest c => Some (pre, rest, c).

Definition starts_with_reply_prefix (t : Py.str) : bool :=
  Py.startswith (Py.u "re:") t || Py.startswith (Py.u "fw:") t
  || Py.startswith (Py.u "fwd:") t.

(** the text left when the pattern is removed from the front of [t] *)
Definition without_prefix (t : Py.str) : Py.str :=
  if Py.startswith (Py.u "re:") t then Py.lstrip (skipn 3 t)
  else if Py.startswith (Py.u "fw:") t then Py.lstrip (skipn 3 t)
  else if Py.startswith (Py.u "fwd:") t then Py.lstrip (skipn 4 t)
  else t.

Ltac split_eqb :=
  repeat match goal with
         | |- context [N.eqb ?a ?b] => destruct (N.eqb_spec a b); subst; try lia
         end.

Definition prefixes : list Py.str := [Py.u "re:"; Py.u "fw:"; Py.u "fwd:"].

Definition is_hex_char (a : ascii) : bool :=
  let n := N_of_ascii a in
  ((48 <=? n) && (n <=? 57)) || ((97 <=? n) && (n <=? 102)).

Fixpoint is_hex_string (s : string) : bool :=
  match s with
  | EmptyString => true
  | String a t => is_hex_char a && is_hex_string t
  end.

End ConversationIdProps.

Module ConversationDbProps.
Import Sql ConversationDb.
Open Scope nat_scope.

Ltac by_columns :=
  unfold get, set, with_updated_at, affinity_of;
  repeat case_decide; subst; simpl; try reflexivity; try congruence.

(** the row written by [UPDATE conversations SET field = ?, updated_at = ?] *)
Definition updated (now field : string) (v : value) (c : conversation)
  : conversation :=
  with_updated_at (store NUMERIC (Text now))
                  (set field (store (affinity_of field) v) c).

(** the fields [get_missing_fields] reports for a row *)
Definition faltantes (c : conversation) : list string :=
  List.filter (fun f => negb (truthy (get c f))) required_fields.

Fixpoint update_fields (d : db) (now : string) (id : string)
    (l : list (string * value)) : result db :=
  match l with
  | [] => Ok d
  | (field, v) :: t =>
      d' ← update_conversation_field d now (Text id) field v;
      update_fields d' now id t
  end.

(** the value last given to [field] in [l] *)
Fixpoint assigned (l : list (string * value)) (field : string) : option value :=
  match l with
  | [] => None
  | (f, v) :: t =>
      match assigned t field with
      | Some w => Some w
      | None => if decide (f = field) then Some v else None
      end
  end.

(** The scenario of [test_conversation_db.py]: a conversation is created
    and its six fields are set one after the other. *)
Definition seis_campos : list (string * value) :=
  [ ("nombre_cliente", Text "Juan Pérez"); ("propiedad", Text "Depa Isla Teja");
    ("check_in", Text "2024-10-15"); ("check_out", Text "2024-10-20");
    ("numero_huespedes", Int 2); ("correo_cliente", Text "juan@ejemplo.com") ]%string.

(** the same scenario with the text "0" given as check-in date *)
Definition seis_campos_cero : list (string * value) :=
  [ ("nombre_cliente", Text "Juan Pérez"); ("propiedad", Text "Depa Isla Teja");
    ("check_in", Text "0"); ("check_out", Text "2024-10-20");
    ("numero_huespedes", Int 2); ("correo_cliente", Text "juan@ejemplo.com") ]%string.

Definition alta : result (string * db) :=
  create_or_update_conversation ∅ "2024-10-01T10:00:00" "2024-10-01 10:00:00"
    (Py.u "test123") (Py.u "Reserva Depa Isla Teja").

Definition conversacion_id : string :=
  match alta with Ok (id, _) => id | Raise _ => "" end.

Definition conversacion_nueva : db :=
  match alta with Ok (_, d) => d | Raise _ => ∅ end.

End ConversationDbProps.

Module MensajesProps.
Import Sql SqlProps Database.

(** The row the statement's [WHERE id = ?] selects. *)
Definition selected (m_id : value) (m : mensaje) : Prop :=
  Int (mensaje_id m) = store INTEGER m_id.

Definition buzon : db :=
  mk_db []
    [ mk_mensaje 1 (Text "ana@ejemplo.com") (Text "Consulta") (Text "Hola")
        (Text "2024-10-01 09:00:00") (Int 0) Null (Text "Sin fechas");
      mk_mensaje 2 (Text "luis@ejemplo.com") (Text "Reserva") (Text "Buenas")
        (Text "2024-10-01 09:30:00") (Int 0) Null Null ].

End MensajesProps.

Module MemoryOptimizerProps.
Import MemoryOptimizer.
Open Scope nat_scope.

Inductive call : Type :=
| Get
| ReturnObject (r : ref).

Definition step (st : heap * ObjectPool) (c : call) : heap * ObjectPool :=
  match c with
  | Get => let '(_, h, p) := get st.1 st.2 in (h, p)
  | ReturnObject r => let '(_, h, p) := return_object st.1 st.2 r in (h, p)
  end.

Definition run (calls : list call) (st : heap * ObjectPool) : heap * ObjectPool :=
  fold_left step calls st.

Definition bounded (p : ObjectPool) : Prop := length (pool p) <= max_size p.

Inductive module_call : Type :=
| GetPooledString
| GetPooledList
| GetPooledDict
| ReturnToPool (r : ref).

Definition module_step (st : heap * pools) (c : module_call) : heap * pools :=
  match c with
  | GetPooledString => let '(_, h, ps) := get_pooled_string st.1 st.2 in (h, ps)
  | GetPooledList => let '(_, h, ps) := get_pooled_list st.1 st.2 in (h, ps)
  | GetPooledDict => let '(_, h, ps) := get_pooled_dict st.1 st.2 in (h, ps)
  | ReturnToPool r => let '(_, h, ps) := return_to_pool st.1 st.2 r in (h, ps)
  end.

Definition module_run (calls : list module_call) (st : heap * pools)
  : heap * pools :=
  fold_left module_step calls st.

(** every list waiting in the list pool is empty, and there are at most
    twenty of them *)
Definition lists_cleared (st : heap * pools) : Prop :=
  max_size (list_pool st.2) = 20 /\
  length (pool (list_pool st.2)) <= 20 /\
  forall r, In r (pool (list_pool st.2)) -> st.1 !! r = Some (PyList []).

End MemoryOptimizerProps.

Module ConfirmationProps.
Import Re OptimizedNlp.

(** the engine's cache after the texts of [history] were checked one after
    the other; a call that raises leaves the cache as it was *)
Fixpoint run_history (c : cache) (history : list Py.str) : cache :=
  match history with
  | [] => c
  | text :: rest =>
      match detect_confirmation_optimized c text with
      | Ok (_, c') => run_history c' rest
      | Raise _ => run_history c rest
      end
  end.

(** no two of the texts share a cache key *)
Definition no_collision (texts : list Py.str) : Prop :=
  forall t1 t2 key, In t1 texts -> In t2 texts ->
    _get_cache_key t1 "confirmation" = Ok key ->
    _get_cache_key t2 "confirmation" = Ok key -> t1 = t2.

(** every entry is the outcome of the pattern on one of the texts *)
Definition coherent (texts : list Py.str) (c : cache) : Prop :=
  forall key v, In (key, v) c ->
    exists t, In t texts /\ _get_cache_key t "confirmation" = Ok key /\
              v = CBool (search confirmation t).

(** the cache once the hundred oldest entries were dropped at the limit *)
Definition evicted (c : cache) : cache :=
  if (_max_cache_size <=? length c)%nat then skipn 100 c else c.

End ConfirmationProps.

Module DateProps.
Import Re NlpEngine.

Definition meses : list Py.str :=
  [ Py.u "enero"; Py.u "febrero"; Py.u "marzo"; Py.u "abril"; Py.u "mayo";
    Py.u "junio"; Py.u "julio"; Py.u "agosto"; Py.u "septiembre";
    Py.u "octubre"; Py.u "noviembre"; Py.u "diciembre" ].

Definition dias : list Z := map Z.of_nat (seq 1 31).

(** "entre el D1 y D2 de MES" *)
Definition entre_text (d1 d2 : Z) (mes : Py.str) : Py.str :=
  Py.u "entre el " ++ str_of_Z d1 ++ Py.u " y " ++ str_of_Z d2
                   ++ Py.u " de " ++ mes.

(** every such text with days from 1 to 31 and a Spanish month name *)
Definition entre_texts : list Py.str :=
  flat_map (fun d1 =>
    flat_map (fun d2 => map (entre_text d1 d2) meses) dias) dias.

Definition is_nil {A : Type} (l : list A) : bool :=
  match l with
  | [] => true
  | _ :: _ => false
  end.

(** none of the four patterns that [extract_dates] tries is found *)
Definition no_raw_match (text : Py.str) : bool :=
  let text_lower := Py.lower text in
  is_nil (findall pattern1 3 text_lower)
  && is_nil (findall pattern2 4 text_lower)
  && is_nil (findall pattern3 3 text_lower)
  && is_nil (findall standard_pattern 1 text).

End DateProps.

Module ReProps.
Import Re.

(** patterns without repetition *)
Fixpoint simple (r : regex) : bool :=
  match r with
  | Seq a b | Alt a b => simple a && simple b
  | Grp _ a => simple a
  | Rep _ _ _ => false
  | _ => true
  end.

(** [reaches r pre rest pre' rest']: read from the position [(pre, rest)],
    the pattern [r], which has no repetition, can end at the position
    [(pre', rest')] *)
Fixpoint reaches (r : regex) (pre rest pre' rest' : Py.str) : Prop :=
  match r with
  | Eps => pre' = pre /\ rest' = rest
  | Chr p => exists x, rest = x :: rest' /\ pre' = x :: pre /\ p x = true
  | Seq a b =>
      exists pm rm, reaches a pre rest pm rm /\ reaches b pm rm pre' rest'
  | Alt a b => reaches a pre rest pre' rest' \/ reaches b pre rest pre' rest'
  | Grp _ a => reaches a pre rest pre' rest'
  | Bol => pre = [] /\ pre' = pre /\ rest' = rest
  | Wb =>
      xorb (word_before pre) (word_before rest) = true /\
      pre' = pre /\ rest' = rest
  | Rep _ _ _ => False
  end.

(** whether the continuation succeeds does not depend on the groups *)
Definition caps_blind {A : Type} (k : cont A) : Prop :=
  forall pre rest c1 c2, is_Some (k pre rest c1) <-> is_Some (k pre rest c2).

End ReProps.

Module KeywordProps.
Import Re.

(** the keywords of the confirmation pattern, as it writes them and as
    texts *)
Definition written : list string :=
  [ "confirmo"; "confirmado"; "ok"; "sí"; "si"; "vale"; "perfecto";
    "de acuerdo" ]%string.

Definition keywords : list Py.str := map Py.u written.

(** the text ends, or begins, with a word character *)
Definition ends_in_word (s : Py.str) : bool := word_before (rev s).
Definition starts_with_word (s : Py.str) : bool := word_before s.

(** [text] holds one of the keywords, in any case, as a whole word: the
    character before it and the character after it, if there are any,
    are not word characters *)
Definition has_keyword (text : Py.str) : Prop :=
  exists before w after kw,
    text = before ++ w ++ after /\ In kw keywords /\ Py.lower w = kw /\
    ends_in_word before = false /\ starts_with_word after = false.

End KeywordProps.


(** ** Vocabulary of the further properties *)

Module UpsertProps.
Import Sql ConversationDb ConversationDbProps.

(** The conversation of [conversacion_nueva] once the client's name was
    extracted, and the reply that arrives afterwards. *)
Definition con_nombre : db :=
  match update_conversation_field conversacion_nueva "2024-10-01T10:05:00"
          (Text conversacion_id) "nombre_cliente" (Text "Juan Pérez") with
  | Ok d => d
  | Raise _ => ∅
  end.

Definition respuesta_del_cliente : result (string * db) :=
  create_or_update_conversation con_nombre "2024-10-01T11:00:00"
    "2024-10-01 11:00:00" (Py.u "Test123") (Py.u "RE: Reserva Depa Isla Teja").

Definition despues_de_responder : db :=
  match respuesta_del_cliente with Ok (_, d) => d | Raise _ => ∅ end.

End UpsertProps.

Module PoolProps.
Import MemoryOptimizer MemoryOptimizerProps.

(** the reference holds an object that cannot be weakly referenced *)
Definition no_weakref (h : heap) (r : ref) : Prop :=
  exists o, h !! r = Some o /\ weakrefable o = false.

(** the three pools build, and hold, only such objects *)
Definition builtin_pools (st : heap * pools) : Prop :=
  weakrefable (factory (string_pool st.2)) = false /\
  weakrefable (factory (list_pool st.2)) = false /\
  weakrefable (factory (dict_pool st.2)) = false /\
  forall r, In r (pool (string_pool st.2)) \/ In r (pool (list_pool st.2))
            \/ In r (pool (dict_pool st.2)) -> no_weakref st.1 r.

(** an instance in use, whose [reset] sets its state to 0 *)
Definition reiniciar : Z -> Z := fun _ => 0%Z.

Definition en_uso : heap := {[ 0%nat := PyObject 7 (Some reiniciar) ]}.

End PoolProps.

Module QueryCacheProps.
Import OptimizedQueries.

(** the characters a key made by [_cache_key] can hold: digits, the minus
    sign and the underscore *)
Definition key_char (c : N) : bool :=
  ((48 <=? c) && (c <=? 57)) || (c =? 45) || (c =? 95).

(** the table name read off a write query, if any, has a character that
    no such key holds (a letter, say) *)
Definition names_a_table (query : Py.str) : Prop :=
  forall name, _extract_table_name query = Done (Some name) ->
               name = [] \/ forallb key_char name = false.

(** [ttl or self.default_ttl] *)
Definition effective_ttl (ttl : option Z) : Z :=
  match ttl with
  | Some n => if (n =? 0)%Z then 300%Z else n
  | None => 300%Z
  end.

(** A write into [reservas], and the cache once a query was answered
    from the database at time 0. *)
Definition cancelar : Py.str :=
  Py.u "UPDATE reservas SET estado = 'cancelada' WHERE id = 7".

Definition tras_consulta : QueryCache.t (list Z) :=
  (execute_cached_query ∅ 0 0 1234567 (-89) 300 (Done [7; 8]%Z)).2.

Definition tras_cancelar : QueryCache.t (list Z) :=
  (execute_write_query tras_consulta cancelar (Done (Some 0%Z, 1%Z))).2.

(** The availability cache after a first answer at time 0 on a database
    without reservations. *)
Definition sin_reservas : Database.db := Database.mk_db [] [].

Definition tras_verificar : OptimizedDatabase.QueryCache :=
  match OptimizedDatabase.verificar_disponibilidad_optimized ∅ 0 0 sin_reservas
          (Sql.Int 1) (Sql.Text "2024-10-12") (Sql.Text "2024-10-20") with
  | Ok (_, c) => c
  | Raise _ => ∅
  end.

End QueryCacheProps.

Module DatabaseOpsProps.
Import Sql Database DatabaseOps.

(** no unanswered message carries a reason *)
Definition sin_motivo_pendiente (d : db) : Prop :=
  forall m, In m (mensajes d) ->
    respondido m = Int 0 -> motivo_no_respuesta m = Null.

(** the two writers of [mensajes] *)
Inductive operacion : Type :=
| Guardar (timestamp : string) (remitente asunto cuerpo : value)
| Marcar (mensaje_id respuesta motivo_no_respuesta : value).

(** the state after an operation; one that raises changes nothing *)
Definition aplicar (st : estado_db) (op : operacion) : estado_db :=
  match op with
  | Guardar timestamp remitente asunto cuerpo =>
      match guardar_mensaje st timestamp remitente asunto cuerpo with
      | Done (_, st') => st'
      | Throws _ => st
      end
  | Marcar mensaje_id respuesta motivo =>
      match marcar_mensaje_respondido (tablas st) mensaje_id respuesta motivo with
      | Ok d => mk_estado d (seq_reservas st) (seq_mensajes st)
      | Raise _ => st
      end
  end.

Definition ejecutar (ops : list operacion) (st : estado_db) : estado_db :=
  fold_left aplicar ops st.

Definition vacia : estado_db := mk_estado (mk_db [] []) 0 0.

(** A message is stored, cannot be answered automatically and is marked
    for manual review, as [MessageProcessor] does. *)
Definition revision_manual : list operacion :=
  [ Guardar "2024-10-01 09:00:00" (Text "ana@ejemplo.com") (Text "Consulta")
            (Text "Hola");
    Marcar (Int 1) (Text "Requiere revisión manual") (Text "sin fechas") ].

(** what [marcar_mensaje_respondido] writes into a selected row *)
Definition marcado (resp motivo : value) : mensaje -> mensaje :=
  if truthy motivo then set_respuesta_motivo resp motivo else set_respuesta resp.

(** the ids of a list of messages *)
Definition ids (l : list mensaje) : list Z := map mensaje_id l.

End DatabaseOpsProps.

Module TrackerProps.
Import Tracker.

Open Scope Z_scope.

(** the conversation is older than 48 hours at the instant [now] *)
Definition caducada {V : Type} (now : Z) (c : conversation V) : bool :=
  created_at c <? now - hours_48.

End TrackerProps.

Module MemoryEfficientListProps.
Import MemoryEfficientList.

Open Scope Z_scope.

Section List.

Context {A : Type}.
Variable data : list A.
Variable chunk_size : Z.

(** every chunk held is the slice of the data that its index stands for *)
Definition coherent (l : @t A) : Prop :=
  forall k chunk, _chunks l !! k = Some chunk ->
    chunk = slice data (k * chunk_size) (k * chunk_size + chunk_size).

(** the list after the items at the given indexes were asked for *)
Definition access (l : @t A) (index : Z) : @t A :=
  (__getitem__ data chunk_size l index).2.

Definition run (indexes : list Z) (l : @t A) : @t A :=
  fold_left access indexes l.

End List.

(** twelve items in chunks of one, each asked for once *)
Definition doce : list Z := [0; 1; 2; 3; 4; 5; 6; 7; 8; 9; 10; 11].

End MemoryEfficientListProps.

Module CapacityProps.
Import Capacity.

(** "N personas" and the like *)
Definition frase (n : Z) (noun : Py.str) : Py.str :=
  NlpEngine.str_of_Z n ++ Py.u " " ++ noun.

Definition plurales : list Py.str :=
  [Py.u "personas"; Py.u "huéspedes"; Py.u "huespedes"; Py.u "invitados"].

(** the integers from [lo] to [lo + count - 1] *)
Definition desde (lo : Z) (count : nat) : list Z :=
  map (fun i => (lo + Z.of_nat i)%Z) (seq 0 count).

(** on "N noun" the primary engine finds N and the optimized one nothing *)
Definition solo_primario (n : Z) (noun : Py.str) : bool :=
  match extract_capacity (frase n noun),
        extract_capacity_optimized None (frase n noun) with
  | Some m, Ok None => (m =? n)%Z
  | _, _ => false
  end.

(** on "N pax" the optimized engine finds N and the primary one nothing *)
Definition solo_optimizado (n : Z) : bool :=
  match extract_capacity (frase n (Py.u "pax")),
        extract_capacity_optimized None (frase n (Py.u "pax")) with
  | None, Ok (Some m) => (m =? n)%Z
  | _, _ => false
  end.

End CapacityProps.

Module ConnectionPoolProps.
Import ConnectionPool.

Open Scope Z_scope.

Inductive call : Type :=
| GetConnection
| ReturnConnection (conn : connection).

Definition step (p : t) (c : call) : t :=
  match c with
  | GetConnection => (get_connection p).2
  | ReturnConnection conn => (return_connection p conn).2
  end.

Definition run (calls : list call) (p : t) : t := fold_left step calls p.

(** no connection is both idle and in use, none is idle twice, and idle
    and used connections together are no more than [max_connections] *)
Definition consistent (p : t) : Prop :=
  NoDup (_pool p) /\
  (forall conn, conn ∈ _pool p -> conn ∉ _in_use p) /\
  Z.of_nat (length (_pool p) + size (_in_use p)) <= Z.max 0 (max_connections p).

(** [n] connections taken one after the other *)
Definition tomar (n : nat) : list call := repeat GetConnection n.

End ConnectionPoolProps.

Module BatchProps.

Import Sql Batch.

(** the keys [bulk_insert_messages] reads with [msg[...]] *)
Definition claves : list string :=
  ["asunto"; "remitente"; "contenido"; "fecha_recibido"].

(** the message has all of them *)
Definition completo (msg : gmap string value) : bool :=
  forallb (fun k => bool_decide (is_Some (msg !! k))) claves.

End BatchProps.

Module ConversationMessagesProps.

Import Sql DatabaseOps ConversationMessages.

(** two parameters name the same conversation for the TEXT column
    [conversation_id] *)
Definition misma_conversacion (a b : value) : bool :=
  holds (eq3 (store TEXT a) (store TEXT b)).

(** no value of the list sorts before the one in front of it *)
Fixpoint en_orden (l : list value) : bool :=
  match l with
  | a :: (b :: _) as t => negb (sorts_before b a) && en_orden t
  | _ => true
  end.

(** the column [received_at] of the rows [get_conversation_messages]
    returns *)
Definition recibidos (filas : list (list value)) : list value :=
  map (fun fila => nth 3 fila Null) filas.

(** an empty history, a message without a type, and the history that holds
    it under the identifier [a5ddad974bc0] *)
Definition vacio : estado := mk_estado [] 0.

Definition saludo : gmap string value :=
  {[ "sender"%string := Text "ana@ejemplo.com"; "body"%string := Text "Hola" ]}.

Definition con_saludo : estado :=
  mk_estado
    [ mk_message 1 (Text "a5ddad974bc0") Null (Text "ana@ejemplo.com") Null
        (Text "Hola") (Text "2024-10-01 09:00:00") (Text "desconocido")
        (Int 0) ]
    1.

End ConversationMessagesProps.


(* ===================================================================== *)
(** * Properties                                                          *)
(* ===================================================================== *)

(** ** Test vectors of RFC 1321 *)

Module Md5Facts.

Example md5_empty :
  Md5.hexdigest [] = "d41d8cd98f00b204e9800998ecf8427e"%string.
Proof. vm_compute. reflexivity. Qed.

Example md5_abc :
  Md5.hexdigest (Py.bytes_of_string "abc")
  = "900150983cd24fb0d6963f7d28e17f72"%string.
Proof. vm_compute. reflexivity. Qed.

Example md5_two_blocks :
  Md5.hexdigest (Py.bytes_of_string
    "12345678901234567890123456789012345678901234567890123456789012345678901234567890")
  = "57edf4a22be3c955ac49da2e2107b67a"%string.
Proof. vm_compute. reflexivity. Qed.

End Md5Facts.
(** ** The order of SQLite values *)

Module SqlFacts.
Import Sql.
Import SqlProps.

Lemma compare_antisym (a b : value) :
  compare b a = CompOpp <$> compare a b.
Proof.
  destruct a as [|x|s], b as [|y|t]; simpl; try reflexivity.
  - f_equal. apply Z.compare_antisym.
  - f_equal. apply String.compare_antisym.
Qed.

Lemma compare_eq_iff (a b : value) :
  compare a b = Some Eq <-> a = b /\ a <> Null.
Proof.
  destruct a as [|x|s], b as [|y|t]; simpl; split;
    try (intros [? ?]; congruence); try discriminate.
  - intros H. injection H as H. apply Z.compare_eq in H. subst. split; congruence.
  - intros [H _]. injection H as ->. f_equal. apply Z.compare_refl.
  - intros H. injection H as H. apply String.compare_eq_iff in H. subst.
    split; congruence.
  - intros [H _]. injection H as ->. f_equal.
    apply String_as_OT.cmp_eq. reflexivity.
Qed.

Lemma compare_defined (a b : value) :
  a <> Null -> b <> Null -> exists c, compare a b = Some c.
Proof. destruct a, b; simpl; intros; try congruence; eauto. Qed.

Lemma compare_not_null (a b : value) (c : comparison) :
  compare a b = Some c -> a <> Null /\ b <> Null.
Proof. destruct a, b; simpl; intros; split; congruence. Qed.

Lemma vlt_trans (a b c : value) : vlt a b -> vlt b c -> vlt a c.
Proof.
  unfold vlt.
  destruct a as [|x|s], b as [|y|t], c as [|z|w]; simpl; try congruence.
  - intros H1 H2. injection H1 as H1. injection H2 as H2. f_equal.
    rewrite Z.compare_lt_iff in *. lia.
  - intros H1 H2. injection H1 as H1. injection H2 as H2. f_equal.
    apply String_as_OT.cmp_lt. apply String_as_OT.cmp_lt in H1.
    apply String_as_OT.cmp_lt in H2.
    eapply String_as_OT.lt_trans; eassumption.
Qed.

Lemma vle_alt (a b : value) : vle a b <-> vlt a b \/ (a = b /\ a <> Null).
Proof. unfold vle, vlt. rewrite compare_eq_iff. tauto. Qed.

Lemma vle_trans (a b c : value) : vle a b -> vle b c -> vle a c.
Proof.
  rewrite !vle_alt. intros [H1 | [-> Ha]] [H2 | [-> Hb]]; eauto using vlt_trans.
Qed.

Lemma vlt_gt (a b : value) : compare b a = Some Gt <-> vlt a b.
Proof.
  unfold vlt. rewrite (compare_antisym a b).
  destruct (compare a b) as [[]|]; simpl; split; congruence.
Qed.

Lemma vle_total (a b : value) :
  a <> Null -> b <> Null -> vle a b \/ vlt b a.
Proof.
  intros Ha Hb. destruct (compare_defined a b Ha Hb) as [c Hc].
  destruct c; [left; right; exact Hc | left; left; exact Hc |].
  right. apply vlt_gt. exact Hc.
Qed.

Lemma vlt_not_vle (a b : value) : vlt a b -> vle b a -> False.
Proof.
  intros H1 H2. apply vlt_gt in H1. unfold vle in H2.
  destruct H2; congruence.
Qed.

Lemma vlt_irrefl_eq (a b : value) : vlt a b -> a <> b.
Proof.
  intros H ->. unfold vlt in H.
  destruct b as [|y|t]; simpl in H; try discriminate.
  - injection H as H. rewrite Z.compare_refl in H. discriminate.
  - injection H as H.
    assert (String.compare t t = Eq) by (apply String_as_OT.cmp_eq; reflexivity).
    congruence.
Qed.

(** *** Reading three-valued tests *)

Lemma holds_and3 (x y : tv) : holds (and3 x y) = holds x && holds y.
Proof. destruct x as [[]|], y as [[]|]; reflexivity. Qed.

Lemma holds_or3 (x y : tv) : holds (or3 x y) = holds x || holds y.
Proof. destruct x as [[]|], y as [[]|]; reflexivity. Qed.

Lemma holds_not_or3 (x y : tv) :
  holds (not3 (or3 x y)) = true <-> x = Some false /\ y = Some false.
Proof.
  destruct x as [[]|], y as [[]|]; simpl; split;
    try discriminate; try (intros [? ?]; discriminate); auto.
Qed.

Lemma holds_eq3 (a b : value) : holds (eq3 a b) = true <-> a = b /\ a <> Null.
Proof.
  rewrite <- compare_eq_iff. unfold eq3, test.
  destruct (compare a b) as [[]|]; simpl; split; congruence.
Qed.

Lemma holds_ne3 (a b : value) :
  holds (ne3 a b) = true <-> a <> b /\ a <> Null /\ b <> Null.
Proof.
  unfold ne3, test. destruct (compare a b) as [c|] eqn:E; simpl.
  - destruct (compare_not_null _ _ _ E) as [Ha Hb].
    destruct c; simpl; split; try discriminate; intros H.
    + apply compare_eq_iff in E. destruct H as [H _]. tauto.
    + split; [|tauto]. intros ->.
      assert (compare b b = Some Eq) by (apply compare_eq_iff; tauto). congruence.
    + reflexivity.
    + split; [|tauto]. intros ->.
      assert (compare b b = Some Eq) by (apply compare_eq_iff; tauto). congruence.
    + reflexivity.
  - split; [discriminate|]. intros (_ & Ha & Hb).
    destruct (compare_defined a b Ha Hb). congruence.
Qed.

Lemma holds_lt3 (a b : value) : holds (lt3 a b) = true <-> vlt a b.
Proof.
  unfold lt3, test, vlt. destruct (compare a b) as [[]|]; simpl; split; congruence.
Qed.

Lemma holds_gt3 (a b : value) : holds (gt3 a b) = true <-> vlt b a.
Proof.
  rewrite <- vlt_gt. unfold gt3, test.
  destruct (compare a b) as [[]|]; simpl; split; congruence.
Qed.

Lemma holds_le3 (a b : value) : holds (le3 a b) = true <-> vle a b.
Proof.
  unfold le3, test, vle. destruct (compare a b) as [[]|]; simpl; split;
    try congruence; try tauto; intros [?|?]; congruence.
Qed.

Lemma holds_ge3 (a b : value) : holds (ge3 a b) = true <-> vle b a.
Proof.
  unfold ge3, test, vle. rewrite (compare_antisym a b).
  destruct (compare a b) as [[]|]; simpl; split;
    try congruence; try tauto; intros [?|?]; congruence.
Qed.

(** [a < b] is false (and not NULL) exactly when [b <= a]. *)
Lemma lt3_false (a b : value) : lt3 a b = Some false <-> vle b a.
Proof.
  unfold lt3, test, vle. rewrite (compare_antisym a b).
  destruct (compare a b) as [[]|]; simpl; split;
    try congruence; try tauto; intros [?|?]; congruence.
Qed.

Lemma gt3_false (a b : value) : gt3 a b = Some false <-> vle a b.
Proof.
  unfold gt3, test, vle.
  destruct (compare a b) as [[]|]; simpl; split;
    try congruence; try tauto; intros [?|?]; congruence.
Qed.

End SqlFacts.

(** ** db/database.py: availability *)

Module DatabaseFacts.
Import Sql SqlFacts Database.
Import SqlProps DatabaseProps.

(** The test is the inclusive one: the two closed intervals share a day. *)
Lemma solapa_inclusive (inicio fin : value) (r : reserva) :
  solapa inicio fin r <-> vle inicio (fecha_fin r) /\ vle (fecha_inicio r) fin.
Proof.
  unfold solapa. split.
  - intros [(Ha & Hb & Hi & Hf) Hn]. split.
    + destruct (vle_total inicio (fecha_fin r) Hi Hb); tauto.
    + destruct (vle_total (fecha_inicio r) fin Ha Hf); tauto.
  - intros [H1 H2].
    assert (N1 : inicio <> Null /\ fecha_fin r <> Null)
      by (destruct H1 as [H|H]; exact (compare_not_null _ _ _ H)).
    assert (N2 : fecha_inicio r <> Null /\ fin <> Null)
      by (destruct H2 as [H|H]; exact (compare_not_null _ _ _ H)).
    split; [tauto|]. intros [H|H]; eauto using vlt_not_vle.
Qed.

Lemma conflicto_iff (p_id inicio fin : value) (r : reserva) :
  holds (conflicto p_id inicio fin r) = true <->
  de_propiedad p_id r /\ activa r /\
  solapa (store NUMERIC inicio) (store NUMERIC fin) r.
Proof.
  unfold conflicto. rewrite !holds_and3, !andb_true_iff, holds_or3, orb_true_iff.
  rewrite !holds_eq3, holds_not_or3, solapa_inclusive, lt3_false, gt3_false.
  unfold de_propiedad, activa. split.
  - intros [[H1 [[H2 _]|[H2 _]]] H3]; tauto.
  - intros (H1 & [H2|H2] & H3); (split; [split; [exact H1|]|exact H3]);
      [left|right]; (split; [exact H2| rewrite H2; discriminate]).
Qed.

Lemma filter_nil_iff {A : Type} (f : A -> bool) (l : list A) :
  (length (List.filter f l) =? 0)%nat = true <-> forall x, In x l -> f x = false.
Proof.
  rewrite Nat.eqb_eq. induction l as [|a l IH]; simpl.
  - split; [intros _ x []|reflexivity].
  - destruct (f a) eqn:E; simpl.
    + split; [discriminate|]. intros H. specialize (H a (or_introl eq_refl)).
      congruence.
    + rewrite IH. split.
      * intros H x [<-|Hx]; auto.
      * intros H x Hx. apply H. right. exact Hx.
Qed.

Lemma filter_cons_ex {A : Type} (f : A -> bool) (l : list A) :
  (length (List.filter f l) =? 0)%nat = false -> exists x, In x l /\ f x = true.
Proof.
  induction l as [|a l IH]; simpl; [discriminate|].
  destruct (f a) eqn:Fa.
  - intros _. exists a. split; [left; reflexivity|exact Fa].
  - intros E. destruct (IH E) as (r & Hr & Hf).
    exists r. split; [right|]; assumption.
Qed.

Lemma verificar_disponibilidad_unfold (d : db) (p_id inicio fin : value) :
  verificar_disponibilidad d p_id inicio fin =
  if forallb bindable [p_id; inicio; fin]
  then Ok (length (List.filter (fun r => holds (conflicto p_id inicio fin r))
                               (reservas d)) =? 0)%nat
  else Raise OverflowError.
Proof.
  unfold verificar_disponibilidad, bind_params.
  destruct (forallb bindable [p_id; inicio; fin]); reflexivity.
Qed.

(** C1.  Take parameters that SQLite compares as it is given them or as
    the integer they spell (a text that spells a real number, which SQLite
    would turn into a floating-point value, is left aside).
    [verificar_disponibilidad] answers [True] exactly when its three
    parameters can be bound and no reservation of the property with status
    'confirmada' or 'pendiente' satisfies
    [NOT (fecha_fin < inicio OR fecha_inicio > fin)]; otherwise, with
    bindable parameters, it answers [False].  With one 'pendiente'
    reservation from 2024-10-10 to 2024-10-15 the answer is [False] for
    2024-10-12 to 2024-10-20 and for the boundary-touching request
    2024-10-05 to 2024-10-10. *)
Theorem verificar_disponibilidad_spec :
  (forall (d : db) (p_id inicio fin : value),
      exact INTEGER p_id = true ->
      exact NUMERIC inicio = true ->
      exact NUMERIC fin = true ->
      (verificar_disponibilidad d p_id inicio fin = Ok true <->
       forallb bindable [p_id; inicio; fin] = true /\
       forall r, In r (reservas d) ->
         ~ (de_propiedad p_id r /\ activa r /\
            solapa (store NUMERIC inicio) (store NUMERIC fin) r)) /\
      (verificar_disponibilidad d p_id inicio fin = Ok false <->
       forallb bindable [p_id; inicio; fin] = true /\
       exists r, In r (reservas d) /\
         de_propiedad p_id r /\ activa r /\
         solapa (store NUMERIC inicio) (store NUMERIC fin) r)) /\
  verificar_disponibilidad una_reserva_pendiente
    (Int 1) (Text "2024-10-12") (Text "2024-10-20") = Ok false /\
  verificar_disponibilidad una_reserva_pendiente
    (Int 1) (Text "2024-10-05") (Text "2024-10-10") = Ok false.
Proof.
  split; [|split; reflexivity].
  intros d p_id inicio fin _ _ _. rewrite verificar_disponibilidad_unfold.
  destruct (forallb bindable [p_id; inicio; fin]) eqn:B.
  2: { split; split; try discriminate; intros [? _]; discriminate. }
  set (f := fun r => holds (conflicto p_id inicio fin r)).
  destruct (length (List.filter f (reservas d)) =? 0)%nat eqn:E.
  - pose proof (proj1 (filter_nil_iff f (reservas d)) E) as E0. split.
    + split; [|reflexivity]. intros _. split; [reflexivity|].
      intros r Hr Hc. apply (proj2 (conflicto_iff _ _ _ _)) in Hc.
      specialize (E0 r Hr). unfold f in E0. congruence.
    + split; [discriminate|]. intros [_ (r & Hr & Hc)].
      apply (proj2 (conflicto_iff _ _ _ _)) in Hc.
      specialize (E0 r Hr). unfold f in E0. congruence.
  - split.
    + split; [discriminate|]. intros [_ H]. exfalso.
      assert (E' : (length (List.filter f (reservas d)) =? 0)%nat = true).
      { apply filter_nil_iff. intros r Hr. unfold f.
        destruct (holds (conflicto p_id inicio fin r)) eqn:Hc; [|reflexivity].
        apply (proj1 (conflicto_iff _ _ _ _)) in Hc. destruct (H r Hr Hc). }
      congruence.
    + split; [|reflexivity]. intros _. split; [reflexivity|].
      destruct (filter_cons_ex f (reservas d) E) as (r & Hr & Hf).
      exists r. split; [exact Hr|]. apply conflicto_iff. exact Hf.
Qed.

(** The request 2024-10-12 to 2024-10-20 for property 1 is refused
    because of the reservation 2024-10-10 to 2024-10-15. *)
Lemma verificar_disponibilidad_witness :
  forallb bindable [Int 1; Text "2024-10-12"; Text "2024-10-20"] = true /\
  exists r, In r (reservas una_reserva_pendiente) /\
    de_propiedad (Int 1) r /\ activa r /\
    solapa (store NUMERIC (Text "2024-10-12"))
           (store NUMERIC (Text "2024-10-20")) r.
Proof.
  apply (proj1 (proj2 (proj1 verificar_disponibilidad_spec
                         una_reserva_pendiente
                         (Int 1) (Text "2024-10-12") (Text "2024-10-20")
                         eq_refl eq_refl eq_refl))).
  reflexivity.
Defined.

End DatabaseFacts.

(** ** db/optimized_database.py: the cached availability query *)

Module OptimizedDatabaseFacts.
Import Sql SqlFacts Database DatabaseFacts.
Import SqlProps DatabaseProps OptimizedDatabaseProps.

Lemma conflicto_opt_iff (p_id inicio fin : value) (r : reserva) :
  holds (OptimizedDatabase.conflicto p_id inicio fin r) = true <->
  de_propiedad p_id r /\ no_cancelada r /\
  solapa_opt (store NUMERIC inicio) (store NUMERIC fin) r.
Proof.
  unfold OptimizedDatabase.conflicto.
  cbv zeta.
  rewrite !holds_and3, !holds_or3, !holds_and3.
  rewrite !andb_true_iff, !orb_true_iff, !andb_true_iff.
  rewrite holds_eq3, holds_ne3, !holds_le3, !holds_gt3, !holds_lt3, !holds_ge3.
  unfold de_propiedad, no_cancelada, solapa_opt.
  split.
  - intros [[H1 (H2 & H3 & _)] H4]. tauto.
  - intros (H1 & [H2 H3] & H4).
    split; [split; [exact H1|]|tauto].
    split; [exact H2|split; [exact H3|discriminate]].
Qed.

(** Well-formed intervals: whatever the optimized clauses flag, the primary
    test flags too. *)
Lemma solapa_opt_solapa (inicio fin : value) (r : reserva) :
  vle (fecha_inicio r) (fecha_fin r) -> vle inicio fin ->
  solapa_opt inicio fin r -> solapa inicio fin r.
Proof.
  intros Hr Hq H. apply solapa_inclusive.
  destruct H as [[H1 H2]|[[H1 H2]|[H1 H2]]].
  - split; [left; exact H2|eapply vle_trans; eassumption].
  - split; [eapply vle_trans; eassumption|left; exact H1].
  - split; eapply vle_trans; eassumption.
Qed.

(** Away from the two boundaries the primary test implies one of the three
    clauses. *)
Lemma solapa_solapa_opt (inicio fin : value) (r : reserva) :
  fecha_fin r <> inicio -> fecha_inicio r <> fin ->
  solapa inicio fin r -> solapa_opt inicio fin r.
Proof.
  intros Hb He H. pose proof H as [(Na & Nb & Ni & Nf) _].
  apply solapa_inclusive in H. destruct H as [H1 H2].
  apply vle_alt in H1. apply vle_alt in H2.
  destruct H1 as [H1|[H1 _]]; [|congruence].
  destruct H2 as [H2|[H2 _]]; [|congruence].
  unfold solapa_opt.
  destruct (vle_total (fecha_inicio r) inicio Na Ni) as [Ha|Ha]; [left; tauto|].
  destruct (vle_total fin (fecha_fin r) Nf Nb) as [Hf|Hf]; [right; left; tauto|].
  right; right. split; left; assumption.
Qed.

Lemma optimized_unfold (t_get t_set : Z) (d : db) (p_id inicio fin : value) :
  fst <$> OptimizedDatabase.verificar_disponibilidad_optimized
            ∅ t_get t_set d p_id inicio fin =
  if forallb bindable [p_id; inicio; fin]
  then Ok (length (List.filter
                     (fun r => holds (OptimizedDatabase.conflicto p_id inicio fin r))
                     (reservas d)) =? 0)%nat
  else Raise OverflowError.
Proof.
  unfold OptimizedDatabase.verificar_disponibilidad_optimized,
    OptimizedDatabase.cache_get, bind_params.
  rewrite lookup_empty. cbn [forallb].
  destruct (bindable p_id), (bindable inicio), (bindable fin); reflexivity.
Qed.

Lemma filter_count_ext {A : Type} (f g : A -> bool) (l : list A) :
  (forall x, In x l -> f x = g x) ->
  length (List.filter f l) = length (List.filter g l).
Proof.
  induction l as [|a l IH]; simpl; [reflexivity|]. intros H.
  rewrite (H a (or_introl eq_refl)).
  destruct (g a); simpl; rewrite IH; auto.
Qed.

(** C4, as amended.  Take a database whose reservations carry one of the
    three documented statuses (or none) and run from check-in to a later
    or equal check-out, and a request that does the same, with parameters
    that SQLite compares as they are given or as the integers they spell
    (not texts that spell real numbers).  With an empty cache, whenever
    the primary check reports the property available so does the
    optimized one; and the two checks return the same answer provided no
    confirmed or pending reservation of the property ends on the
    requested first day or starts on the requested last day. *)
Theorem optimized_agrees_away_from_boundaries
    (t_get t_set : Z) (d : db) (p_id inicio fin : value) :
  exact INTEGER p_id = true ->
  exact NUMERIC inicio = true ->
  exact NUMERIC fin = true ->
  (forall r, In r (reservas d) -> estado_conocido r) ->
  (forall r, In r (reservas d) -> vle (fecha_inicio r) (fecha_fin r)) ->
  vle (store NUMERIC inicio) (store NUMERIC fin) ->
  (verificar_disponibilidad d p_id inicio fin = Ok true ->
   fst <$> OptimizedDatabase.verificar_disponibilidad_optimized
             ∅ t_get t_set d p_id inicio fin = Ok true) /\
  ((forall r, In r (reservas d) -> de_propiedad p_id r -> activa r ->
      ~ toca (store NUMERIC inicio) (store NUMERIC fin) r) ->
   fst <$> OptimizedDatabase.verificar_disponibilidad_optimized
             ∅ t_get t_set d p_id inicio fin =
   verificar_disponibilidad d p_id inicio fin).
Proof.
  intros _ _ _ Hst Hwf Hq.
  rewrite optimized_unfold, verificar_disponibilidad_unfold.
  assert (Himp : forall r, In r (reservas d) ->
            holds (OptimizedDatabase.conflicto p_id inicio fin r) = true ->
            holds (conflicto p_id inicio fin r) = true).
  { intros r Hr H. apply (proj1 (conflicto_opt_iff _ _ _ _)) in H.
    destruct H as (H1 & [H2 H3] & H4). apply conflicto_iff.
    split; [exact H1|]. split.
    - destruct (Hst r Hr) as [E|[E|[E|E]]]; unfold activa; tauto.
    - apply solapa_opt_solapa; auto. }
  destruct (forallb bindable [p_id; inicio; fin]); [|split; [discriminate|reflexivity]].
  split.
  - intros H. injection H as H. f_equal.
    pose proof (proj1 (filter_nil_iff _ _) H) as H0.
    apply filter_nil_iff. intros r Hr.
    destruct (holds (OptimizedDatabase.conflicto p_id inicio fin r)) eqn:E;
      [|reflexivity].
    rewrite <- (H0 r Hr). symmetry. apply Himp; assumption.
  - intros Hno. f_equal. f_equal. apply filter_count_ext. intros r Hr.
    destruct (holds (conflicto p_id inicio fin r)) eqn:E.
    + apply (proj1 (conflicto_iff _ _ _ _)) in E. destruct E as (H1 & H2 & H3).
      apply conflicto_opt_iff. split; [exact H1|]. split.
      * unfold no_cancelada. destruct H2 as [-> | ->]; split; discriminate.
      * specialize (Hno r Hr H1 H2). unfold toca in Hno.
        apply solapa_solapa_opt; tauto.
    + destruct (holds (OptimizedDatabase.conflicto p_id inicio fin r)) eqn:E';
        [|reflexivity].
      rewrite (Himp r Hr E') in E. discriminate.
Qed.

(** The request 2024-10-12 to 2024-10-20 against the reservation
    2024-10-10 to 2024-10-15 meets every condition of the theorem. *)
Lemma optimized_agrees_witness :
  fst <$> OptimizedDatabase.verificar_disponibilidad_optimized
            ∅ 0 0 una_reserva_pendiente
            (Int 1) (Text "2024-10-12") (Text "2024-10-20") =
  verificar_disponibilidad una_reserva_pendiente
    (Int 1) (Text "2024-10-12") (Text "2024-10-20").
Proof.
  apply (optimized_agrees_away_from_boundaries 0 0 una_reserva_pendiente
           (Int 1) (Text "2024-10-12") (Text "2024-10-20")).
  - reflexivity.
  - reflexivity.
  - reflexivity.
  - intros r [<-|[]]. right; right; left. reflexivity.
  - intros r [<-|[]]. left. reflexivity.
  - left. reflexivity.
  - intros r [<-|[]] _ _ [H|H]; vm_compute in H; discriminate H.
Defined.

(** C4 as stated fails on a boundary-touching request: the reservation
    2024-10-10 to 2024-10-15 makes the primary check refuse the request
    2024-10-05 to 2024-10-10, which the optimized check accepts. *)
Lemma optimized_differs_on_boundary :
  verificar_disponibilidad una_reserva_pendiente
    (Int 1) (Text "2024-10-05") (Text "2024-10-10") = Ok false /\
  fst <$> OptimizedDatabase.verificar_disponibilidad_optimized
            ∅ 0 0 una_reserva_pendiente
            (Int 1) (Text "2024-10-05") (Text "2024-10-10") = Ok true.
Proof. split; vm_compute; reflexivity. Qed.

End OptimizedDatabaseFacts.

(** ** Conversation ids *)

Module ConversationIdFacts.
Import ConversationDb.
Import ConversationIdProps.

Open Scope N_scope.

(** *** [strip] *)

Lemma lstrip_all_space (s : Py.str) : all_space s = true -> Py.lstrip s = [].
Proof.
  induction s as [|c t IH]; simpl; [reflexivity|].
  destruct (Py.isspace c); simpl; [exact IH|discriminate].
Qed.

Lemma lstrip_app (x y : Py.str) :
  Py.lstrip (x ++ y) =
  if all_space x then Py.lstrip y else Py.lstrip x ++ y.
Proof.
  induction x as [|c t IH]; simpl; [reflexivity|].
  destruct (Py.isspace c); simpl; [exact IH|reflexivity].
Qed.

Lemma all_space_rev (s : Py.str) : all_space (rev s) = all_space s.
Proof.
  unfold all_space. induction s as [|c t IH]; simpl; [reflexivity|].
  rewrite forallb_app, IH. simpl. rewrite andb_true_r. apply andb_comm.
Qed.

Lemma rstrip_all_space (s : Py.str) : all_space s = true -> Py.rstrip s = [].
Proof.
  intros H. unfold Py.rstrip. rewrite lstrip_all_space; [reflexivity|].
  rewrite all_space_rev. exact H.
Qed.

Lemma rstrip_cons (c : N) (t : Py.str) :
  Py.rstrip (c :: t) =
  if all_space t then (if Py.isspace c then [] else [c]) else c :: Py.rstrip t.
Proof.
  unfold Py.rstrip. simpl rev. rewrite lstrip_app, all_space_rev.
  destruct (all_space t).
  - simpl. destruct (Py.isspace c); reflexivity.
  - rewrite rev_app_distr. reflexivity.
Qed.

Lemma rstrip_cons_nonspace (c : N) (t : Py.str) :
  Py.isspace c = false -> Py.rstrip (c :: t) = c :: Py.rstrip t.
Proof.
  intros H. rewrite rstrip_cons, H. destruct (all_space t) eqn:E; [|reflexivity].
  rewrite rstrip_all_space by exact E. reflexivity.
Qed.

Lemma lstrip_rstrip (s : Py.str) :
  Py.lstrip (Py.rstrip s) = Py.rstrip (Py.lstrip s).
Proof.
  induction s as [|c t IH]; [reflexivity|].
  destruct (Py.isspace c) eqn:E.
  - rewrite rstrip_cons, E. simpl Py.lstrip at 2. rewrite E.
    destruct (all_space t) eqn:A.
    + rewrite (lstrip_all_space t A). reflexivity.
    + simpl. rewrite E. exact IH.
  - rewrite rstrip_cons_nonspace by exact E. simpl. rewrite E.
    rewrite rstrip_cons_nonspace by exact E. reflexivity.
Qed.

(** *** [lower] *)

Lemma isspace_lower (c : N) : Py.isspace (Py.lower_cp c) = Py.isspace c.
Proof.
  unfold Py.lower_cp. destruct (Py.isupper_cp c) eqn:U; [|reflexivity].
  unfold Py.isupper_cp in U. unfold Py.isspace.
  assert (H : (65 <= c <= 90) \/ (192 <= c <= 222)).
  { apply orb_true_iff in U. destruct U as [U|U].
    - apply andb_true_iff in U. destruct U as [U1 U2].
      apply N.leb_le in U1, U2. lia.
    - apply andb_true_iff in U. destruct U as [U _].
      apply andb_true_iff in U. destruct U as [U1 U2].
      apply N.leb_le in U1, U2. lia. }
  repeat match goal with
         | |- context [?a <=? ?b] =>
             destruct (N.leb_spec a b); try lia
         | |- context [?a =? ?b] =>
             destruct (N.eqb_spec a b); try lia
         end; reflexivity.
Qed.

Lemma all_space_lower (s : Py.str) : all_space (Py.lower s) = all_space s.
Proof.
  unfold all_space, Py.lower. induction s as [|c t IH]; simpl; [reflexivity|].
  rewrite isspace_lower, IH. reflexivity.
Qed.

Lemma lower_app (x y : Py.str) : Py.lower (x ++ y) = Py.lower x ++ Py.lower y.
Proof. apply map_app. Qed.

(** *** The reply-prefix pattern *)

(** [\s*] takes every leading space and cannot fail. *)
Lemma star_ws (fuel i : nat) (pre rest : Py.str) (c : Re.caps) :
  (length rest <= fuel)%nat ->
  exists pre', Re.rep_loop (Re.run Re.ws) 0 here fuel i pre rest c
               = Some (pre', Py.lstrip rest, c)
               /\ (length pre <= length pre')%nat.
Proof.
  revert i pre rest. induction fuel as [|fuel IH]; intros i pre rest Hlen.
  - destruct rest; [|simpl in Hlen; lia]. exists pre. split; [reflexivity|lia].
  - destruct rest as [|x t].
    + exists pre. split; [reflexivity|lia].
    + cbn [Re.rep_loop Re.run Re.ws Py.lstrip].
      destruct (Py.isspace x) eqn:E.
      * destruct (IH (S i) (x :: pre) t) as (pre' & Hrun & Hp);
          [simpl in Hlen; lia|].
        cbn [Re.run Re.ws] in Hrun. rewrite Hrun.
        exists pre'. split; [reflexivity|]. simpl in Hp. lia.
      * exists pre. split; [reflexivity|lia].
Qed.

Lemma star_ws_at (pre rest : Py.str) (c : Re.caps) :
  exists pre', Re.run (Re.star Re.ws) pre rest c here
               = Some (pre', Py.lstrip rest, c)
               /\ (length pre <= length pre')%nat.
Proof. apply star_ws. reflexivity. Qed.

Lemma reply_prefix_eq :
  reply_prefix =
  Re.Seq Re.Bol
    (Re.Seq (Re.Grp 1 (Re.Alt (Re.Seq (Re.Chr (N.eqb 114)) (Re.Chr (N.eqb 101)))
                        (Re.Alt (Re.Seq (Re.Chr (N.eqb 102)) (Re.Chr (N.eqb 119)))
                                (Re.Seq (Re.Chr (N.eqb 102))
                                        (Re.Seq (Re.Chr (N.eqb 119))
                                                (Re.Chr (N.eqb 100)))))))
            (Re.Seq (Re.Chr (N.eqb 58)) (Re.star Re.ws))).
Proof. reflexivity. Qed.

Lemma u_re : Py.u "re:" = [114; 101; 58].
Proof. reflexivity. Qed.
Lemma u_fw : Py.u "fw:" = [102; 119; 58].
Proof. reflexivity. Qed.
Lemma u_fwd : Py.u "fwd:" = [102; 119; 100; 58].
Proof. reflexivity. Qed.

Lemma match_reply_prefix (t : Py.str) :
  if starts_with_reply_prefix t
  then exists pre' c, Re.match_at reply_prefix [] t
                      = Some (pre', without_prefix t, c)
                      /\ (3 <= length pre')%nat
  else Re.match_at reply_prefix [] t = None /\ without_prefix t = t.
Proof.
  unfold starts_with_reply_prefix, without_prefix, Re.match_at.
  rewrite reply_prefix_eq, u_re, u_fw, u_fwd. unfold Re.star.
  destruct t as [|a [|b [|x [|y t]]]];
    cbn [Re.run Py.startswith andb orb skipn];
    split_eqb; cbn [andb orb skipn length Nat.sub firstn rev app];
    try (split; reflexivity);
    match goal with
    | |- context [Re.rep_loop _ 0 _ ?fuel 0%nat ?pre ?rest ?c] =>
        destruct (star_ws fuel 0 pre rest c) as (pre' & Hrun & Hlen);
        [simpl; lia|];
        unfold here in Hrun; rewrite Hrun;
        exists pre', c; split; [reflexivity|simpl in Hlen; lia]
    end.
Qed.

Lemma no_match_later (pre rest : Py.str) :
  pre <> [] -> Re.match_at reply_prefix pre rest = None.
Proof. destruct pre; [congruence|reflexivity]. Qed.

Lemma sub_after_start (fuel : nat) (pre rest : Py.str) :
  pre <> [] -> Re.sub_from fuel reply_prefix [] pre rest = rest.
Proof.
  revert pre rest. induction fuel as [|fuel IH]; intros pre rest Hpre;
    [reflexivity|].
  cbn [Re.sub_from]. rewrite (no_match_later pre rest Hpre).
  destruct rest as [|x t]; [reflexivity|].
  rewrite IH by discriminate. reflexivity.
Qed.

Lemma length_lstrip (s : Py.str) : (length (Py.lstrip s) <= length s)%nat.
Proof.
  induction s as [|c t IH]; simpl; [lia|].
  destruct (Py.isspace c); simpl; lia.
Qed.

Lemma startswith_length (p t : Py.str) :
  Py.startswith p t = true -> (length p <= length t)%nat.
Proof.
  revert t. induction p as [|a p IH]; intros [|b t]; simpl; try lia;
    try discriminate.
  intros H. apply andb_true_iff in H. destruct H as [_ H].
  specialize (IH t H). lia.
Qed.

Lemma without_prefix_shorter (t : Py.str) :
  starts_with_reply_prefix t = true ->
  (length (without_prefix t) < length t)%nat.
Proof.
  unfold starts_with_reply_prefix, without_prefix.
  rewrite u_re, u_fw, u_fwd. intros H.
  destruct (Py.startswith [114; 101; 58] t) eqn:E1;
    [|destruct (Py.startswith [102; 119; 58] t) eqn:E2;
      [|destruct (Py.startswith [102; 119; 100; 58] t) eqn:E3; [|discriminate]]].
  all: match goal with
       | E : Py.startswith _ _ = true |- _ =>
           apply startswith_length in E; cbn [length] in E
       end.
  all: match goal with
       | |- context [Py.lstrip (skipn ?n ?s)] =>
           pose proof (length_lstrip (skipn n s)) as L;
           rewrite length_skipn in L
       end; lia.
Qed.

(** [re.sub] with the reply-prefix pattern removes one leading prefix, with
    the spaces after it, and nothing else. *)
Lemma sub_reply_prefix (t : Py.str) :
  Re.sub reply_prefix [] t = without_prefix t.
Proof.
  unfold Re.sub. cbn [Re.sub_from].
  pose proof (match_reply_prefix t) as H.
  destruct (starts_with_reply_prefix t) eqn:E.
  - destruct H as (pre' & c & -> & Hpre).
    apply without_prefix_shorter in E. apply Nat.ltb_lt in E. rewrite E.
    cbn [app]. apply sub_after_start. destruct pre'; simpl in Hpre; [lia|discriminate].
  - destruct H as [Hm Hw]. rewrite Hm, Hw. destruct t as [|x t]; [reflexivity|].
    rewrite sub_after_start by discriminate. reflexivity.
Qed.

Lemma clean_subject_eq (asunto : Py.str) :
  clean_subject asunto = without_prefix (Py.strip (Py.lower asunto)).
Proof. apply sub_reply_prefix. Qed.

Lemma without_prefix_none (t : Py.str) :
  starts_with_reply_prefix t = false -> without_prefix t = t.
Proof. intros E. pose proof (match_reply_prefix t) as H. rewrite E in H. tauto. Qed.

Lemma without_prefix_app (p z : Py.str) :
  In p prefixes -> without_prefix (p ++ z) = Py.lstrip z.
Proof.
  intros [<-|[<-|[<-|[]]]]; reflexivity.
Qed.

Lemma rstrip_app_nonspace (a z : Py.str) :
  a <> [] -> Py.isspace (List.last a 0) = false ->
  Py.rstrip (a ++ z) = a ++ Py.rstrip z.
Proof.
  intros Ha Hl. induction a as [|c a IH]; [congruence|].
  destruct a as [|c' a].
  - simpl in Hl. simpl. apply rstrip_cons_nonspace. exact Hl.
  - change ((c :: c' :: a) ++ z) with (c :: ((c' :: a) ++ z)).
    rewrite rstrip_cons.
    assert (E : all_space ((c' :: a) ++ z) = false).
    { destruct (all_space ((c' :: a) ++ z)) eqn:E; [|reflexivity].
      unfold all_space in E. rewrite forallb_app in E.
      apply andb_true_iff in E. destruct E as [E _].
      assert (Hlast : In (List.last (c' :: a) 0) (c' :: a)).
      { clear. revert c'. induction a as [|x a IH]; intros c'.
        - left. reflexivity.
        - right. apply IH. }
      rewrite forallb_forall in E. specialize (E _ Hlast).
      change (List.last (c :: c' :: a) 0) with (List.last (c' :: a) 0) in Hl. congruence. }
    rewrite E. rewrite IH; [reflexivity|discriminate|exact Hl].
Qed.

(** A subject with one prefix in front cleans to the stripped, lowercased
    subject. *)
Lemma clean_subject_prefixed (ws1 p ws2 asunto : Py.str) :
  all_space ws1 = true -> all_space ws2 = true ->
  In (Py.lower p) prefixes ->
  clean_subject (ws1 ++ p ++ ws2 ++ asunto) = Py.strip (Py.lower asunto).
Proof.
  intros H1 H2 Hp. rewrite clean_subject_eq.
  rewrite !lower_app. unfold Py.strip at 1.
  rewrite lstrip_app, all_space_lower, H1.
  assert (Hl : Py.lstrip (Py.lower p ++ Py.lower ws2 ++ Py.lower asunto)
               = Py.lower p ++ Py.lower ws2 ++ Py.lower asunto).
  { destruct Hp as [<-|[<-|[<-|[]]]]; reflexivity. }
  rewrite Hl. rewrite rstrip_app_nonspace.
  - rewrite without_prefix_app by exact Hp.
    rewrite lstrip_rstrip, lstrip_app, all_space_lower, H2. reflexivity.
  - destruct Hp as [<-|[<-|[<-|[]]]]; discriminate.
  - destruct Hp as [<-|[<-|[<-|[]]]]; reflexivity.
Qed.

Lemma clean_subject_plain (asunto : Py.str) :
  starts_with_reply_prefix (Py.strip (Py.lower asunto)) = false ->
  clean_subject asunto = Py.strip (Py.lower asunto).
Proof. intros H. rewrite clean_subject_eq. apply without_prefix_none. exact H. Qed.

(** *** The shape of an id *)

Lemma hexchar_is_hex (n : N) : n < 16 -> is_hex_char (Md5.hexchar n) = true.
Proof.
  intros H. destruct n as [|p]; [reflexivity|].
  do 5 (try destruct p as [p|p|]); try reflexivity; exfalso; lia.
Qed.

Lemma hex_high (x : N) : (x mod 256) / 16 < 16.
Proof.
  apply N.Div0.div_lt_upper_bound. change (16 * 16) with 256.
  apply N.mod_lt. discriminate.
Qed.

Lemma hex_low (x : N) : (x mod 256) mod 16 < 16.
Proof. apply N.mod_lt. discriminate. Qed.

(** The first twelve characters of any digest are hexadecimal digits. *)
Lemma hexdigest_prefix (bytes : list N) :
  let s := String.substring 0 12 (Md5.hexdigest bytes) in
  String.length s = 12%nat /\ is_hex_string s = true.
Proof.
  unfold Md5.hexdigest, Md5.digest.
  set (st := Md5.blocks _ _ _).
  unfold Md5.le32. cbn [app Md5.hex String.substring String.length is_hex_string].
  split; [reflexivity|].
  rewrite !hexchar_is_hex;
    first [reflexivity | apply hex_high | apply hex_low].
Qed.

(** *** Latin-1 senders and subjects always get an id *)

Lemma latin1b_spec (s : Py.str) : Py.latin1b s = true -> Py.latin1 s.
Proof.
  unfold Py.latin1b, Py.latin1, Py.latin1_cp. intros H.
  apply List.Forall_forall. intros c Hc. rewrite forallb_forall in H.
  apply N.ltb_lt, H, Hc.
Qed.

Lemma lower_cp_latin1 (c : N) : c < 256 -> Py.lower_cp c < 256.
Proof.
  unfold Py.lower_cp, Py.isupper_cp. intros H.
  destruct (65 <=? c) eqn:A, (c <=? 90) eqn:B, (192 <=? c) eqn:C,
    (c <=? 222) eqn:D, (c =? 215) eqn:E; cbn [andb orb negb]; try exact H;
    repeat match goal with
           | X : (_ <=? _) = true |- _ => apply N.leb_le in X
           end; lia.
Qed.

Lemma latin1_lower (s : Py.str) : Py.latin1 s -> Py.latin1 (Py.lower s).
Proof.
  unfold Py.latin1, Py.lower. intros H. apply Forall_map.
  eapply Forall_impl; [exact H|]. intros c Hc. apply lower_cp_latin1. exact Hc.
Qed.

Lemma latin1_lstrip (s : Py.str) : Py.latin1 s -> Py.latin1 (Py.lstrip s).
Proof.
  unfold Py.latin1. induction 1 as [|c t Hc Ht IH]; simpl; [constructor|].
  destruct (Py.isspace c); [exact IH|constructor; assumption].
Qed.

Lemma latin1_strip (s : Py.str) : Py.latin1 s -> Py.latin1 (Py.strip s).
Proof.
  intros H. unfold Py.strip, Py.rstrip. apply Forall_rev, latin1_lstrip, Forall_rev.
  apply latin1_lstrip. exact H.
Qed.

Lemma latin1_without_prefix (t : Py.str) :
  Py.latin1 t -> Py.latin1 (without_prefix t).
Proof.
  intros H. unfold without_prefix.
  repeat match goal with
         | |- context [if ?b then _ else _] => destruct b
         end; try exact H; apply latin1_lstrip, Forall_drop, H.
Qed.

Lemma utf8_encode_latin1 (s : Py.str) :
  Py.latin1 s -> exists b, Py.utf8_encode s = Some b.
Proof.
  induction 1 as [|c t Hc Ht [b IH]]; simpl; [eauto|].
  rewrite IH. unfold Py.utf8_encode_cp.
  destruct (c <? 128); [eauto|].
  assert (E : (c <? 2048) = true) by (apply N.ltb_lt; lia).
  rewrite E. eauto.
Qed.

Lemma latin1_conversation_key (remitente asunto : Py.str) :
  Py.latin1 remitente -> Py.latin1 asunto ->
  Py.latin1 (conversation_key remitente asunto).
Proof.
  intros Hr Ha. unfold conversation_key. rewrite clean_subject_eq.
  apply Forall_app. split; [apply latin1_lower; exact Hr|].
  apply Forall_app. split.
  - repeat constructor.
  - apply latin1_without_prefix, latin1_strip, latin1_lower. exact Ha.
Qed.

(** C2, as amended.  The file-backed tracker computes the same id as
    [get_conversation_id], for every sender and subject.  An id, when one
    is returned, is twelve hexadecimal digits, and senders and subjects
    of Latin-1 characters always get one.  For such a sender and subject
    the id does not change when the sender or the subject is replaced by
    a text that differs from it in the case of its letters only.  Nor
    does it change when one "re:", "fw:" or "fwd:" prefix (in any case,
    with any whitespace around it) is put in front of a subject that,
    lowercased and stripped, does not begin with such a prefix itself. *)
Theorem conversation_id_invariance :
  (forall remitente asunto : Py.str,
      ConversationTracker.generate_conversation_id remitente asunto
      = get_conversation_id remitente asunto /\
      (forall id, get_conversation_id remitente asunto = Ok id ->
         String.length id = 12%nat /\ is_hex_string id = true) /\
      (Py.latin1 remitente -> Py.latin1 asunto ->
       exists id, get_conversation_id remitente asunto = Ok id)) /\
  (forall remitente remitente' asunto asunto' : Py.str,
      Py.latin1 remitente -> Py.latin1 asunto ->
      Py.lower remitente' = Py.lower remitente ->
      Py.lower asunto' = Py.lower asunto ->
      get_conversation_id remitente' asunto'
      = get_conversation_id remitente asunto) /\
  (forall remitente asunto ws1 p ws2 : Py.str,
      Py.latin1 remitente -> Py.latin1 asunto ->
      all_space ws1 = true -> all_space ws2 = true ->
      In (Py.lower p) prefixes ->
      starts_with_reply_prefix (Py.strip (Py.lower asunto)) = false ->
      get_conversation_id remitente (ws1 ++ p ++ ws2 ++ asunto)
      = get_conversation_id remitente asunto).
Proof.
  split; [|split].
  - intros remitente asunto. split; [reflexivity|]. split.
    + intros id H. unfold get_conversation_id in H.
      destruct (Py.utf8_encode _); [|discriminate].
      injection H as <-. apply hexdigest_prefix.
    + intros Hlr Hl. unfold get_conversation_id.
      destruct (utf8_encode_latin1 _ (latin1_conversation_key _ _ Hlr Hl))
        as [b ->].
      eauto.
  - intros remitente remitente' asunto asunto' _ _ Hr Ha.
    unfold get_conversation_id, conversation_key, clean_subject.
    rewrite Hr, Ha. reflexivity.
  - intros remitente asunto ws1 p ws2 _ _ H1 H2 Hp Hn.
    unfold get_conversation_id, conversation_key.
    rewrite clean_subject_prefixed by assumption.
    rewrite clean_subject_plain by assumption. reflexivity.
Qed.

(** The example of the specification: the prefix "Re: " is dropped, and
    the case of the sender and of the subject does not count. *)
Lemma conversation_id_witness :
  get_conversation_id (Py.u "Maria@Gmail.com") (Py.u "Re: Reserva Casa Playa")
  = get_conversation_id (Py.u "maria@gmail.com") (Py.u "reserva casa playa").
Proof.
  transitivity (get_conversation_id (Py.u "Maria@Gmail.com")
                                    (Py.u "Reserva Casa Playa")).
  - apply (proj2 (proj2 conversation_id_invariance)
             (Py.u "Maria@Gmail.com") (Py.u "Reserva Casa Playa")
             [] (Py.u "Re:") (Py.u " ")).
    + apply latin1b_spec. vm_compute. reflexivity.
    + apply latin1b_spec. vm_compute. reflexivity.
    + vm_compute. reflexivity.
    + vm_compute. reflexivity.
    + left. vm_compute. reflexivity.
    + vm_compute. reflexivity.
  - apply (proj1 (proj2 conversation_id_invariance)
             (Py.u "maria@gmail.com") (Py.u "Maria@Gmail.com")
             (Py.u "reserva casa playa") (Py.u "Reserva Casa Playa")).
    + apply latin1b_spec. vm_compute. reflexivity.
    + apply latin1b_spec. vm_compute. reflexivity.
    + vm_compute. reflexivity.
    + vm_compute. reflexivity.
Defined.

(** C2 as stated fails when the subject already carries a prefix: only the
    first one is removed, so "Fwd: " in front of "Re: reserva casa playa"
    changes the id. *)
Lemma conversation_id_second_prefix :
  get_conversation_id (Py.u "maria@gmail.com") (Py.u "Re: reserva casa playa")
  = Ok "72dcb0a41a6b"%string /\
  get_conversation_id (Py.u "maria@gmail.com")
                      (Py.u "Fwd: " ++ Py.u "Re: reserva casa playa")
  = Ok "c854ebc97aea"%string.
Proof. split; vm_compute; reflexivity. Qed.

End ConversationIdFacts.

(** ** db/conversation_db.py: the conversation store *)

Module ConversationDbFacts.
Import Sql ConversationDb.
Import ConversationDbProps.

Open Scope nat_scope.

(** *** Columns *)

Lemma get_set_same (field : string) (v : value) (c : conversation) :
  field ∈ allowed_fields -> get (set field v c) field = v.
Proof.
  unfold allowed_fields. rewrite !elem_of_cons, elem_of_nil.
  intros [->|[->|[->|[->|[->|[->|[->|[->|[->|[->|[]]]]]]]]]]]; reflexivity.
Qed.

Lemma get_set_other (field other : string) (v : value) (c : conversation) :
  other <> field -> get (set field v c) other = get c other.
Proof. intros H. by_columns. Qed.

Lemma get_with_updated_at (other : string) (v : value) (c : conversation) :
  other <> "updated_at" -> get (with_updated_at v c) other = get c other.
Proof. intros H. by_columns. Qed.

Lemma get_updated_at (v : value) (c : conversation) :
  get (with_updated_at v c) "updated_at" = v.
Proof. reflexivity. Qed.

Lemma allowed_not_updated_at (field : string) :
  field ∈ allowed_fields -> field <> "updated_at".
Proof.
  unfold allowed_fields. rewrite !elem_of_cons, elem_of_nil.
  intros [->|[->|[->|[->|[->|[->|[->|[->|[->|[->|[]]]]]]]]]]]; discriminate.
Qed.

(** *** One update *)

Lemma update_unfold (d : db) (now : string) (conversation_id : value)
    (field : string) (v : value) :
  update_conversation_field d now conversation_id field v =
  if bool_decide (field ∈ allowed_fields) then
    if forallb bindable [v; Text now; conversation_id] then
      Ok (match row_key conversation_id with
          | Some k => alter (updated now field v) k d
          | None => d
          end)
    else Raise OverflowError
  else Raise (ValueError ("Campo no válido: " +:+ field)).
Proof.
  unfold update_conversation_field, bind_params, updated.
  destruct (bool_decide (field ∈ allowed_fields)); [|reflexivity].
  cbn [negb]. destruct (forallb bindable [v; Text now; conversation_id]);
    [|reflexivity].
  destruct (row_key conversation_id); reflexivity.
Qed.

(** C6.  [update_conversation_field] raises [ValueError] for every field
    name outside the list of ten names; for a name in the list it never
    raises [ValueError], and once its parameters are bound it rewrites, in
    the row of that id, the named column and [updated_at], and nothing
    else: every other column of the row and every other row is as before.
    The named column then holds the given value as the column's affinity
    stores it, for a value that SQLite keeps or turns into an integer (a
    text that spells a real number in a numeric column is left aside). *)
Theorem update_conversation_field_whitelist
    (d : db) (now : string) (conversation_id : value) (field : string)
    (v : value) :
  (field ∈ allowed_fields <->
   In field [ "nombre_cliente"; "propiedad"; "propiedad_id"; "check_in";
              "check_out"; "numero_huespedes"; "correo_cliente";
              "telefono_cliente"; "confirmacion"; "estado" ]%string) /\
  (field ∉ allowed_fields ->
   update_conversation_field d now conversation_id field v
   = Raise (ValueError ("Campo no válido: " +:+ field))) /\
  (field ∈ allowed_fields ->
   (forall msg, update_conversation_field d now conversation_id field v
                <> Raise (ValueError msg)) /\
   (forallb bindable [v; Text now; conversation_id] = true ->
    exists d',
      update_conversation_field d now conversation_id field v = Ok d' /\
      (forall k, row_key conversation_id <> Some k -> d' !! k = d !! k) /\
      (forall k c, row_key conversation_id = Some k -> d !! k = Some c ->
         exists c', d' !! k = Some c' /\
           (exact (affinity_of field) v = true ->
            get c' field = store (affinity_of field) v) /\
           get c' "updated_at" = store NUMERIC (Text now) /\
           forall other, other <> field -> other <> "updated_at"%string ->
                         get c' other = get c other) /\
      (forall k, d !! k = None -> d' !! k = None))).
Proof.
  rewrite update_unfold. split; [|split].
  - unfold allowed_fields. rewrite list_elem_of_In. reflexivity.
  - intros H. rewrite bool_decide_eq_false_2 by exact H. reflexivity.
  - intros H. rewrite bool_decide_eq_true_2 by exact H. split.
    + intros msg. destruct (forallb bindable _); discriminate.
    + intros ->. eexists. split; [reflexivity|]. split; [|split].
      * intros k Hk. destruct (row_key conversation_id) as [k'|]; [|reflexivity].
        apply lookup_alter_ne. congruence.
      * intros k c -> Hc. exists (updated now field v c). split.
        { rewrite lookup_alter_eq, Hc. reflexivity. }
        unfold updated. split; [|split].
        { intros _.
          rewrite get_with_updated_at by (apply allowed_not_updated_at, H).
          apply get_set_same, H. }
        { apply get_updated_at. }
        { intros other H1 H2. rewrite get_with_updated_at by exact H2.
          apply get_set_other. exact H1. }
      * intros k Hk. destruct (row_key conversation_id) as [k'|]; [|exact Hk].
        destruct (decide (k' = k)) as [->|Hne].
        { rewrite lookup_alter_eq, Hk. reflexivity. }
        { rewrite lookup_alter_ne by exact Hne. exact Hk. }
Qed.

(** *** Reading a conversation *)

Lemma get_conversation_text (d : db) (id : string) :
  get_conversation d (Text id) = Ok (d !! id).
Proof. reflexivity. Qed.

Lemma get_missing_fields_row (d : db) (id : string) (c : conversation) :
  d !! id = Some c -> get_missing_fields d (Text id) = Ok (faltantes c).
Proof.
  intros H. unfold get_missing_fields. rewrite get_conversation_text, H.
  unfold faltantes, required_fields. cbn [mbind result_bind List.filter].
  destruct (truthy (get c "nombre_cliente")), (truthy (get c "propiedad")),
    (truthy (get c "check_in")), (truthy (get c "check_out")),
    (truthy (get c "numero_huespedes")), (truthy (get c "correo_cliente"));
    reflexivity.
Qed.

Lemma get_missing_fields_none (d : db) (id : string) :
  d !! id = None -> get_missing_fields d (Text id) = Ok required_fields.
Proof.
  intros H. unfold get_missing_fields. rewrite get_conversation_text, H.
  reflexivity.
Qed.

Lemma is_confirmed_row (d : db) (id : string) (c : conversation) :
  d !! id = Some c ->
  is_confirmed d (Text id) = Ok (bool_decide (get c "confirmacion" = Text "sí")).
Proof.
  intros H. unfold is_confirmed. rewrite get_conversation_text, H. reflexivity.
Qed.

Lemma is_confirmed_none (d : db) (id : string) :
  d !! id = None -> is_confirmed d (Text id) = Ok false.
Proof.
  intros H. unfold is_confirmed. rewrite get_conversation_text, H. reflexivity.
Qed.

Lemma falsy_cases (v : value) :
  truthy v = false <-> v = Null \/ v = Int 0 \/ v = Text "".
Proof.
  destruct v as [|n|s]; simpl.
  - split; auto.
  - rewrite negb_false_iff, Z.eqb_eq. split.
    + intros ->. auto.
    + intros [H|[H|H]]; congruence.
  - rewrite negb_false_iff, String.eqb_eq. split.
    + intros ->. auto.
    + intros [H|[H|H]]; congruence.
Qed.

(** *** A caller that sets several fields in turn *)

Lemma update_ok (d d' : db) (now id field : string) (v : value) (c : conversation) :
  d !! id = Some c ->
  update_conversation_field d now (Text id) field v = Ok d' ->
  field ∈ allowed_fields /\ d' !! id = Some (updated now field v c).
Proof.
  intros Hc. rewrite update_unfold.
  destruct (bool_decide (field ∈ allowed_fields)) eqn:A; [|discriminate].
  apply bool_decide_eq_true_1 in A.
  destruct (forallb bindable [v; Text now; Text id]); [|discriminate].
  intros H. injection H as <-. split; [exact A|].
  cbn [row_key store]. rewrite lookup_alter_eq, Hc. reflexivity.
Qed.

Lemma update_fields_get (l : list (string * value)) :
  forall (d d' : db) (now id : string) (c : conversation),
    d !! id = Some c ->
    update_fields d now id l = Ok d' ->
    exists c', d' !! id = Some c' /\
      forall g, g <> "updated_at"%string ->
        get c' g = match assigned l g with
                   | Some v => store (affinity_of g) v
                   | None => get c g
                   end.
Proof.
  induction l as [|[f v] t IH]; intros d d' now id c Hc H.
  - injection H as <-. exists c. split; [exact Hc|]. reflexivity.
  - cbn [update_fields] in H.
    destruct (update_conversation_field d now (Text id) f v) as [d1|e] eqn:U;
      [|discriminate].
    cbn [mbind result_bind] in H.
    destruct (update_ok _ _ _ _ _ _ _ Hc U) as [Ha Hd1].
    destruct (IH _ _ _ _ _ Hd1 H) as (c' & Hc' & Hg).
    exists c'. split; [exact Hc'|]. intros g Hne. rewrite (Hg g Hne).
    cbn [assigned]. destruct (assigned t g); [reflexivity|].
    unfold updated. rewrite get_with_updated_at by exact Hne.
    destruct (decide (f = g)) as [->|Hfg].
    + apply get_set_same, Ha.
    + apply get_set_other. congruence.
Qed.

(** C3, as amended.  A conversation just created, and an id without a
    row, miss the six fields, in the order nombre_cliente, propiedad,
    check_in, check_out, numero_huespedes, correo_cliente, and are not
    confirmed.  After a run of updates that gives each of the six columns
    a value that is still truthy as the column stores it (a value SQLite
    keeps or turns into an integer, which is neither empty nor 0), nothing
    is missing.  A conversation whose confirmacion is not "sí" stays
    unconfirmed through every run of updates that never stores "sí" in
    confirmacion, and is confirmed once "sí" is stored there.
    propiedad_id is never reported. *)
Theorem missing_fields_and_confirmation :
  (forall (d d' : db) (now timestamp id : string) (remitente asunto : Py.str),
      create_or_update_conversation d now timestamp remitente asunto
      = Ok (id, d') ->
      d !! id = None ->
      get_missing_fields d' (Text id)
      = Ok [ "nombre_cliente"; "propiedad"; "check_in"; "check_out";
             "numero_huespedes"; "correo_cliente" ]%string /\
      is_confirmed d' (Text id) = Ok false) /\
  (forall (d : db) (id : string),
      d !! id = None ->
      get_missing_fields d (Text id)
      = Ok [ "nombre_cliente"; "propiedad"; "check_in"; "check_out";
             "numero_huespedes"; "correo_cliente" ]%string /\
      is_confirmed d (Text id) = Ok false) /\
  (forall (d d' : db) (now id : string) (c : conversation)
          (l : list (string * value)),
      d !! id = Some c ->
      update_fields d now id l = Ok d' ->
      (forall f, In f required_fields ->
         exists v, assigned l f = Some v /\
                   exact (affinity_of f) v = true /\
                   truthy (store (affinity_of f) v) = true) ->
      get_missing_fields d' (Text id) = Ok []) /\
  (forall (d d' : db) (now id : string) (c : conversation)
          (l : list (string * value)),
      d !! id = Some c ->
      get c "confirmacion" <> Text "sí" ->
      update_fields d now id l = Ok d' ->
      (forall v, In ("confirmacion"%string, v) l -> store TEXT v <> Text "sí") ->
      is_confirmed d' (Text id) = Ok false) /\
  (forall (d d' : db) (now id : string) (c : conversation),
      d !! id = Some c ->
      update_conversation_field d now (Text id) "confirmacion" (Text "sí")
      = Ok d' ->
      is_confirmed d' (Text id) = Ok true) /\
  (forall (d : db) (id : string) (l : list string),
      get_missing_fields d (Text id) = Ok l ->
      ~ In "propiedad_id"%string l).
Proof.
  split; [|split; [|split; [|split; [|split]]]].
  - intros d d' now timestamp id remitente asunto H Hnone.
    unfold create_or_update_conversation in H.
    destruct (get_conversation_id remitente asunto) as [cid|e]; [|discriminate].
    cbn [mbind result_bind] in H.
    destruct (d !! cid) as [c|] eqn:E.
    + injection H as <- <-. congruence.
    + injection H as <- <-. split.
      * erewrite get_missing_fields_row by apply lookup_insert_eq. reflexivity.
      * erewrite is_confirmed_row by apply lookup_insert_eq. reflexivity.
  - intros d id H. split.
    + apply get_missing_fields_none, H.
    + apply is_confirmed_none, H.
  - intros d d' now id c l Hc Hu Hall.
    destruct (update_fields_get l _ _ _ _ _ Hc Hu) as (c' & Hc' & Hg).
    rewrite (get_missing_fields_row _ _ _ Hc'). f_equal.
    unfold faltantes.
    assert (T : forall f, In f required_fields -> truthy (get c' f) = true).
    { intros f Hf. destruct (Hall f Hf) as (v & Hv & _ & Ht).
      rewrite Hg, Hv; [exact Ht|].
      unfold required_fields in Hf. simpl in Hf.
      intuition (subst; discriminate). }
    unfold required_fields in *. cbn [List.filter].
    rewrite !T by (simpl; tauto). reflexivity.
  - intros d d' now id c l Hc Hn Hu Hl.
    destruct (update_fields_get l _ _ _ _ _ Hc Hu) as (c' & Hc' & Hg).
    rewrite (is_confirmed_row _ _ _ Hc'). f_equal.
    apply bool_decide_eq_false_2.
    rewrite Hg by discriminate.
    destruct (assigned l "confirmacion") as [v|] eqn:A; [|exact Hn].
    apply Hl. clear -A. induction l as [|[f w] t IH]; [discriminate|].
    cbn [assigned] in A. destruct (assigned t "confirmacion") as [u|].
    + right. apply IH. exact A.
    + destruct (decide (f = "confirmacion"%string)) as [->|]; [|discriminate].
      injection A as ->. left. reflexivity.
  - intros d d' now id c Hc Hu.
    destruct (update_ok _ _ _ _ _ _ _ Hc Hu) as [_ Hd'].
    rewrite (is_confirmed_row _ _ _ Hd'). reflexivity.
  - intros d id l H Hin.
    assert (Hreq : In "propiedad_id"%string required_fields).
    { destruct (d !! id) as [c|] eqn:E.
      - rewrite (get_missing_fields_row _ _ _ E) in H. injection H as <-.
        unfold faltantes in Hin. apply filter_In in Hin. tauto.
      - rewrite (get_missing_fields_none _ _ E) in H. injection H as <-.
        exact Hin. }
    unfold required_fields in Hreq. simpl in Hreq.
    intuition discriminate.
Qed.

Lemma missing_fields_witness :
  alta = Ok (conversacion_id, conversacion_nueva) /\
  conversacion_id = "a5ddad974bc0"%string /\
  get_missing_fields conversacion_nueva (Text conversacion_id)
  = Ok required_fields /\
  exists d',
    update_fields conversacion_nueva "2024-10-01T10:05:00" conversacion_id
      seis_campos = Ok d' /\
    get_missing_fields d' (Text conversacion_id) = Ok [].
Proof.
  split; [vm_compute; reflexivity|].
  split; [vm_compute; reflexivity|].
  split; [vm_compute; reflexivity|].
  eexists. split; [vm_compute; reflexivity|].
  eapply (proj1 (proj2 (proj2 missing_fields_and_confirmation))
            conversacion_nueva _ "2024-10-01T10:05:00"%string
            conversacion_id _ seis_campos).
  - vm_compute. reflexivity.
  - vm_compute. reflexivity.
  - intros f [<-|[<-|[<-|[<-|[<-|[<-|[]]]]]]]; eexists;
      (split; [vm_compute; reflexivity|split; vm_compute; reflexivity]).
Defined.

(** C3 as stated fails for a non-empty value that a numeric column turns
    into 0: with the six fields set and "0" given as check-in date, the
    DATE column holds the integer 0 and check_in is still reported. *)
Lemma missing_fields_text_zero :
  exists d',
    update_fields conversacion_nueva "2024-10-01T10:05:00" conversacion_id
      seis_campos_cero = Ok d' /\
    get_missing_fields d' (Text conversacion_id) = Ok ["check_in"%string].
Proof. eexists. split; vm_compute; reflexivity. Qed.

(** C9.  For a conversation that has a row, each of the six fields is in
    the answer of [get_missing_fields] exactly when the column holds NULL,
    0 or the empty string; so setting numero_huespedes to 0, or propiedad
    to the empty string, leaves that field missing. *)
Theorem missing_tests_falsiness :
  (forall (d : db) (id : string) (c : conversation) (f : string),
      d !! id = Some c -> In f required_fields ->
      exists l, get_missing_fields d (Text id) = Ok l /\
                (In f l <->
                 get c f = Null \/ get c f = Int 0 \/ get c f = Text "")) /\
  (forall (d d' : db) (now id : string) (c : conversation),
      d !! id = Some c ->
      update_conversation_field d now (Text id) "numero_huespedes" (Int 0)
      = Ok d' ->
      exists l, get_missing_fields d' (Text id) = Ok l /\
                In "numero_huespedes"%string l) /\
  (forall (d d' : db) (now id : string) (c : conversation),
      d !! id = Some c ->
      update_conversation_field d now (Text id) "propiedad" (Text "") = Ok d' ->
      exists l, get_missing_fields d' (Text id) = Ok l /\
                In "propiedad"%string l).
Proof.
  assert (G : forall (d : db) (id : string) (c : conversation) (f : string),
             d !! id = Some c -> In f required_fields ->
             exists l, get_missing_fields d (Text id) = Ok l /\
                       (In f l <-> truthy (get c f) = false)).
  { intros d id c f Hc Hf. exists (faltantes c).
    split; [apply get_missing_fields_row, Hc|].
    unfold faltantes. rewrite filter_In, negb_true_iff. tauto. }
  split; [|split].
  - intros d id c f Hc Hf. destruct (G d id c f Hc Hf) as (l & Hl & Hi).
    exists l. split; [exact Hl|]. rewrite Hi. apply falsy_cases.
  - intros d d' now id c Hc Hu.
    destruct (update_ok _ _ _ _ _ _ _ Hc Hu) as [_ Hd'].
    destruct (G d' id _ "numero_huespedes"%string Hd') as (l & Hl & Hi).
    { simpl. tauto. }
    exists l. split; [exact Hl|]. apply Hi. reflexivity.
  - intros d d' now id c Hc Hu.
    destruct (update_ok _ _ _ _ _ _ _ Hc Hu) as [_ Hd'].
    destruct (G d' id _ "propiedad"%string Hd') as (l & Hl & Hi).
    { simpl. tauto. }
    exists l. split; [exact Hl|]. apply Hi. reflexivity.
Qed.

End ConversationDbFacts.

(** ** db/database.py: marking a message as answered *)

Module MensajesFacts.
Import Sql SqlFacts Database.
Import SqlProps MensajesProps.

Lemma selected_holds (m_id : value) (m : mensaje) :
  holds (eq3 (Int (mensaje_id m)) (store INTEGER m_id)) = true <-> selected m_id m.
Proof.
  rewrite holds_eq3. unfold selected. split; [tauto|].
  intros H. split; [exact H|discriminate].
Qed.

Lemma marcar_unfold (d : db) (m_id resp motivo : value) :
  marcar_mensaje_respondido d m_id resp motivo =
  if forallb bindable [resp; motivo; m_id] then
    Ok (update_mensajes d m_id
          (if truthy motivo then set_respuesta_motivo resp motivo
           else set_respuesta resp))
  else Raise OverflowError.
Proof.
  unfold marcar_mensaje_respondido, bind_params. cbn [forallb].
  destruct (truthy motivo) eqn:T.
  - destruct (bindable resp), (bindable motivo), (bindable m_id); reflexivity.
  - assert (B : bindable motivo = true).
    { destruct motivo as [|n|s]; try reflexivity.
      simpl in T. apply negb_false_iff, Z.eqb_eq in T. subst. reflexivity. }
    rewrite B. destruct (bindable resp), (bindable m_id); reflexivity.
Qed.

(** C10.  Unless a parameter cannot be bound, [marcar_mensaje_respondido]
    succeeds and leaves the reservations and the number and order of the
    messages as they were.  In every message the id, the sender, the
    subject, the body and the date keep their content, and so does
    [motivo_no_respuesta] when the reason given is [None], empty or 0.
    When the id is one SQLite compares as it is given or as the integer
    it spells (not a text that spells a real number): a message the id
    does not select is unchanged, and in a selected message [respondido]
    becomes 1, [respuesta] the given value as a TEXT column stores it (a
    string stays as it is) and [motivo_no_respuesta] the given reason
    when that is truthy. *)
Theorem marcar_mensaje_respondido_frame
    (d : db) (m_id resp motivo : value) :
  (forallb bindable [resp; motivo; m_id] = false ->
   marcar_mensaje_respondido d m_id resp motivo = Raise OverflowError) /\
  (forallb bindable [resp; motivo; m_id] = true ->
   exists d',
     marcar_mensaje_respondido d m_id resp motivo = Ok d' /\
     reservas d' = reservas d /\
     length (mensajes d') = length (mensajes d) /\
     forall (i : nat) (m : mensaje),
       mensajes d !! i = Some m ->
       exists m', mensajes d' !! i = Some m' /\
         mensaje_id m' = mensaje_id m /\
         remitente m' = remitente m /\
         asunto m' = asunto m /\
         cuerpo m' = cuerpo m /\
         fecha_recibido m' = fecha_recibido m /\
         (truthy motivo = false ->
          motivo_no_respuesta m' = motivo_no_respuesta m) /\
         (exact INTEGER m_id = true ->
          (~ selected m_id m -> m' = m) /\
          (selected m_id m ->
           respondido m' = Int 1 /\
           respuesta m' = store TEXT resp /\
           (forall s, resp = Text s -> respuesta m' = Text s) /\
           (truthy motivo = true ->
            motivo_no_respuesta m' = store TEXT motivo)))).
Proof.
  rewrite marcar_unfold. split; [intros ->; reflexivity|].
  intros ->. eexists. split; [reflexivity|].
  unfold update_mensajes. cbn [reservas mensajes].
  split; [reflexivity|]. split; [apply length_map|].
  intros i m Hm. rewrite list_lookup_fmap, Hm. cbn [fmap option_fmap option_map].
  eexists. split; [reflexivity|].
  destruct (holds (eq3 (Int (mensaje_id m)) (store INTEGER m_id))) eqn:E.
  - apply selected_holds in E.
    destruct (truthy motivo); cbn;
      (repeat split; try reflexivity; try discriminate; try tauto;
       intros s ->; reflexivity).
  - assert (N : ~ selected m_id m).
    { intros Hs. apply selected_holds in Hs. congruence. }
    repeat split; try reflexivity; tauto.
Qed.

(** Answering message 1 without a reason marks it as answered and keeps
    the reason it had. *)
Lemma marcar_mensaje_respondido_witness :
  exists d' m',
    marcar_mensaje_respondido buzon (Int 1) (Text "Gracias") Null = Ok d' /\
    reservas d' = reservas buzon /\
    length (mensajes d') = 2%nat /\
    mensajes d' !! 0%nat = Some m' /\
    respondido m' = Int 1 /\
    respuesta m' = Text "Gracias" /\
    motivo_no_respuesta m' = Text "Sin fechas".
Proof.
  destruct (proj2 (marcar_mensaje_respondido_frame
                     buzon (Int 1) (Text "Gracias") Null) eq_refl)
    as (d' & H1 & H2 & H3 & H4).
  destruct (H4 0%nat _ eq_refl)
    as (m' & Hm' & _ & _ & _ & _ & _ & Hmot & Hsel).
  destruct (proj2 (Hsel eq_refl) eq_refl) as (R1 & R2 & _ & _).
  exists d', m'. split; [exact H1|]. split; [exact H2|]. split; [exact H3|].
  split; [exact Hm'|]. split; [exact R1|]. split; [exact R2|].
  exact (Hmot eq_refl).
Defined.

End MensajesFacts.

(** ** utils/memory_optimizer.py: object pools *)

Module MemoryOptimizerFacts.
Import MemoryOptimizer.
Import MemoryOptimizerProps.

Open Scope nat_scope.

(** *** One pool under [get] and [return_object] *)

Lemma deque_append_length (maxlen : nat) (d : list ref) (x : ref) :
  length d < maxlen -> deque_append maxlen d x = d ++ [x].
Proof.
  intros H. unfold deque_append.
  destruct (Nat.ltb_spec maxlen (length (d ++ [x]))) as [L|L]; [|reflexivity].
  rewrite length_app in L. simpl in L. lia.
Qed.

Lemma get_pool (h : heap) (p : ObjectPool) :
  let '(_, _, p') := get h p in
  max_size p' = max_size p /\ factory p' = factory p /\ pool p' = tail (pool p).
Proof.
  unfold get. destruct (pool p) as [|r rest]; cbn [tail].
  - rewrite lookup_insert_eq. destruct (weakrefable (factory p)); cbn; auto.
  - destruct (h !! r) as [o|]; [destruct (weakrefable o)|]; cbn; auto.
Qed.

Lemma return_object_pool (h : heap) (p : ObjectPool) (r : ref) :
  let '(_, _, p') := return_object h p r in
  max_size p' = max_size p /\ factory p' = factory p /\
  pool p' = if length (pool p) <? max_size p then pool p ++ [r] else pool p.
Proof.
  unfold return_object.
  destruct (Nat.ltb_spec (length (pool p)) (max_size p)) as [L|L].
  - rewrite deque_append_length by exact L.
    destruct (h !! r) as [o|] eqn:E.
    + destruct (has_reset o).
      * rewrite lookup_insert_eq.
        destruct (weakrefable (call_reset o)); cbn; auto.
      * rewrite E. destruct (weakrefable o); cbn; auto.
    + rewrite E. cbn. auto.
  - destruct (h !! r) as [o|]; [destruct (weakrefable o)|]; cbn; auto.
Qed.

Lemma step_bounded (st : heap * ObjectPool) (c : call) :
  bounded st.2 ->
  bounded (step st c).2 /\ max_size (step st c).2 = max_size st.2.
Proof.
  destruct st as [h p]. unfold bounded. simpl. intros B. destruct c as [|r]; simpl.
  - pose proof (get_pool h p) as G. destruct (get h p) as [[res h'] p'].
    cbn. destruct G as (-> & _ & ->). split; [|reflexivity].
    destruct (pool p); simpl in *; lia.
  - pose proof (return_object_pool h p r) as G.
    destruct (return_object h p r) as [[res h'] p'].
    cbn. destruct G as (-> & _ & ->). split; [|reflexivity].
    destruct (Nat.ltb_spec (length (pool p)) (max_size p)) as [L|L].
    + rewrite length_app. simpl. lia.
    + exact B.
Qed.

Lemma run_bounded (calls : list call) (st : heap * ObjectPool) :
  bounded st.2 ->
  bounded (run calls st).2 /\ max_size (run calls st).2 = max_size st.2.
Proof.
  revert st. induction calls as [|c calls IH]; intros st B; [split; auto|].
  unfold run. simpl. destruct (step_bounded st c B) as [B' M].
  destruct (IH (step st c) B') as [B'' M']. unfold run in *.
  split; [exact B''|congruence].
Qed.

(** [return_object] leaves lists and dicts as they are and calls [reset]
    only when the pool has room. *)
Lemma return_object_heap (h : heap) (p : ObjectPool) (r : ref) :
  let '(_, h', _) := return_object h p r in
  forall o, h !! r = Some o ->
    h' !! r = Some (if (length (pool p) <? max_size p) && has_reset o
                    then call_reset o else o).
Proof.
  unfold return_object.
  destruct (length (pool p) <? max_size p); simpl.
  - destruct (h !! r) as [o|] eqn:E.
    + destruct (has_reset o) eqn:R.
      * rewrite lookup_insert_eq. destruct (weakrefable (call_reset o));
          intros o' [= <-]; rewrite lookup_insert_eq, R; reflexivity.
      * rewrite E. destruct (weakrefable o); intros o' [= <-];
          rewrite E, R; reflexivity.
    + rewrite E. intros o' [=].
  - destruct (h !! r) as [o|] eqn:E.
    + destruct (weakrefable o); intros o' [= <-]; exact E.
    + intros o' [=].
Qed.

Lemma return_object_other (h : heap) (p : ObjectPool) (r r' : ref) :
  let '(_, h', _) := return_object h p r in
  r' <> r -> h' !! r' = h !! r'.
Proof.
  unfold return_object.
  destruct (length (pool p) <? max_size p); simpl.
  - destruct (h !! r) as [o|] eqn:E.
    + destruct (has_reset o) eqn:R.
      * rewrite lookup_insert_eq. destruct (weakrefable (call_reset o));
          intros Hne; apply lookup_insert_ne; congruence.
      * rewrite E. destruct (weakrefable o); reflexivity.
    + rewrite E. reflexivity.
  - destruct (h !! r) as [o|]; [destruct (weakrefable o)|]; reflexivity.
Qed.

Lemma get_heap (h : heap) (p : ObjectPool) (r : ref) (o : obj) :
  let '(_, h', _) := get h p in
  h !! r = Some o -> h' !! r = Some o.
Proof.
  unfold get. destruct (pool p) as [|r0 rest].
  - set (f := fresh (dom h)).
    assert (Hf : h !! f = None).
    { apply not_elem_of_dom. apply is_fresh. }
    rewrite lookup_insert_eq.
    destruct (weakrefable (factory p)); intros Hr;
      (rewrite lookup_insert_ne; [exact Hr|congruence]).
  - destruct (h !! r0) as [o0|]; [destruct (weakrefable o0)|]; auto.
Qed.

(** *** The module's pools under [get_pooled_*] and [return_to_pool] *)

Lemma in_tail {A : Type} (x : A) (l : list A) : In x (tail l) -> In x l.
Proof. destruct l; simpl; auto. Qed.

Lemma module_step_cleared (st : heap * pools) (c : module_call) :
  lists_cleared st -> lists_cleared (module_step st c).
Proof.
  destruct st as [h ps]. unfold lists_cleared. simpl. intros (M & B & L).
  destruct c as [| | |r]; simpl.
  - unfold get_pooled_string.
    pose proof (fun r o => get_heap h (string_pool ps) r o) as G.
    destruct (get h (string_pool ps)) as [[res h'] p']. simpl.
    split; [exact M|]. split; [exact B|]. intros r Hr. apply G, L, Hr.
  - unfold get_pooled_list.
    pose proof (fun r o => get_heap h (list_pool ps) r o) as G.
    pose proof (get_pool h (list_pool ps)) as P.
    destruct (get h (list_pool ps)) as [[res h'] p']. simpl.
    destruct P as (-> & _ & ->).
    split; [exact M|]. split.
    + destruct (pool (list_pool ps)); simpl in *; lia.
    + intros r Hr. apply G, L, in_tail, Hr.
  - unfold get_pooled_dict.
    pose proof (fun r o => get_heap h (dict_pool ps) r o) as G.
    destruct (get h (dict_pool ps)) as [[res h'] p']. simpl.
    split; [exact M|]. split; [exact B|]. intros r Hr. apply G, L, Hr.
  - unfold return_to_pool. destruct (h !! r) as [[s|items|items|s f]|] eqn:E.
    + pose proof (fun r' => return_object_other h (string_pool ps) r r') as O.
      pose proof (return_object_heap h (string_pool ps) r) as S.
      destruct (return_object h (string_pool ps) r) as [[res h'] p']. simpl.
      split; [exact M|]. split; [exact B|]. intros r' Hr'.
      destruct (decide (r' = r)) as [->|Hne].
      * rewrite (L r Hr') in E. discriminate.
      * rewrite O by exact Hne. apply L, Hr'.
    + set (h1 := <[r := clear (PyList items)]> h).
      pose proof (fun r' => return_object_other h1 (list_pool ps) r r') as O.
      pose proof (return_object_heap h1 (list_pool ps) r) as S.
      pose proof (return_object_pool h1 (list_pool ps) r) as P.
      destruct (return_object h1 (list_pool ps) r) as [[res h'] p']. simpl.
      destruct P as (-> & _ & ->).
      assert (Hr : h' !! r = Some (PyList [])).
      { rewrite (S (PyList [])) by apply lookup_insert_eq.
        rewrite andb_false_r. reflexivity. }
      split; [exact M|]. split.
      * rewrite M. destruct (Nat.ltb_spec (length (pool (list_pool ps))) 20).
        { rewrite length_app. simpl. lia. }
        { exact B. }
      * intros r' Hr'.
        destruct (decide (r' = r)) as [->|Hne]; [exact Hr|].
        rewrite O by exact Hne. unfold h1.
        rewrite lookup_insert_ne by congruence. apply L.
        destruct (length (pool (list_pool ps)) <? max_size (list_pool ps));
          [|exact Hr'].
        apply in_app_or in Hr'. destruct Hr' as [Hr'|[Hr'|[]]];
          [exact Hr'|congruence].
    + set (h1 := <[r := clear (PyDict items)]> h).
      pose proof (fun r' => return_object_other h1 (dict_pool ps) r r') as O.
      destruct (return_object h1 (dict_pool ps) r) as [[res h'] p']. simpl.
      split; [exact M|]. split; [exact B|]. intros r' Hr'.
      destruct (decide (r' = r)) as [->|Hne].
      * rewrite (L r Hr') in E. discriminate.
      * rewrite O by exact Hne. unfold h1.
        rewrite lookup_insert_ne by congruence. apply L, Hr'.
    + simpl. auto.
    + simpl. auto.
Qed.

Lemma module_run_cleared (calls : list module_call) (st : heap * pools) :
  lists_cleared st -> lists_cleared (module_run calls st).
Proof.
  revert st. induction calls as [|c calls IH]; intros st H; [exact H|].
  apply (IH (module_step st c)), module_step_cleared, H.
Qed.

(** C7, as amended.  Whatever [get] and [return_object] calls a new pool
    receives, it never holds more than [max_size] objects.
    [return_object] does not touch the items of a list or of a dict, and
    it calls the [reset] method of an object that has one when the pool
    has room for the object.  It is [return_to_pool] that clears a list
    or a dict before handing it to [return_object]: whatever calls the
    module's pools receive, the list pool holds at most twenty lists and
    each of them has length 0. *)
Theorem object_pool_bounded_and_cleared :
  (forall (factory : obj) (max_size : nat) (h : heap) (calls : list call),
      length (pool (run calls (h, new_pool factory max_size)).2) <= max_size) /\
  (forall (h : heap) (p : ObjectPool) (r : ref) (items : list Z),
      h !! r = Some (PyList items) ->
      (return_object h p r).1.2 !! r = Some (PyList items)) /\
  (forall (h : heap) (p : ObjectPool) (r : ref) (items : list (Z * Z)),
      h !! r = Some (PyDict items) ->
      (return_object h p r).1.2 !! r = Some (PyDict items)) /\
  (forall (h : heap) (p : ObjectPool) (r : ref) (state : Z) (f : Z -> Z),
      h !! r = Some (PyObject state (Some f)) ->
      (return_object h p r).1.2 !! r =
      Some (PyObject (if length (pool p) <? max_size p then f state else state)
                     (Some f))) /\
  (forall (h : heap) (ps : pools) (r : ref) (items : list Z),
      h !! r = Some (PyList items) ->
      (return_to_pool h ps r).1.2 !! r = Some (PyList [])) /\
  (forall (h : heap) (ps : pools) (r : ref) (items : list (Z * Z)),
      h !! r = Some (PyDict items) ->
      (return_to_pool h ps r).1.2 !! r = Some (PyDict [])) /\
  (forall (h : heap) (calls : list module_call),
      let st := module_run calls (h, initial_pools) in
      length (pool (list_pool st.2)) <= 20 /\
      forall r items, In r (pool (list_pool st.2)) ->
                      st.1 !! r = Some (PyList items) -> length items = 0).
Proof.
  split; [|split; [|split; [|split; [|split; [|split]]]]].
  - intros factory max_size h calls.
    destruct (run_bounded calls (h, new_pool factory max_size)) as [B M].
    { unfold bounded. simpl. lia. }
    unfold bounded in B. rewrite M in B. exact B.
  - intros h p r items H. pose proof (return_object_heap h p r) as S.
    destruct (return_object h p r) as [[res h'] p']. simpl.
    rewrite (S _ H). rewrite andb_false_r. reflexivity.
  - intros h p r items H. pose proof (return_object_heap h p r) as S.
    destruct (return_object h p r) as [[res h'] p']. simpl.
    rewrite (S _ H). rewrite andb_false_r. reflexivity.
  - intros h p r state f H. pose proof (return_object_heap h p r) as S.
    destruct (return_object h p r) as [[res h'] p']. simpl.
    rewrite (S _ H). simpl. rewrite andb_true_r.
    destruct (length (pool p) <? max_size p); reflexivity.
  - intros h ps r items H. unfold return_to_pool. rewrite H.
    set (h1 := <[r := clear (PyList items)]> h).
    pose proof (return_object_heap h1 (list_pool ps) r) as S.
    destruct (return_object h1 (list_pool ps) r) as [[res h'] p']. simpl.
    rewrite (S (PyList [])) by apply lookup_insert_eq.
    rewrite andb_false_r. reflexivity.
  - intros h ps r items H. unfold return_to_pool. rewrite H.
    set (h1 := <[r := clear (PyDict items)]> h).
    pose proof (return_object_heap h1 (dict_pool ps) r) as S.
    destruct (return_object h1 (dict_pool ps) r) as [[res h'] p']. simpl.
    rewrite (S (PyDict [])) by apply lookup_insert_eq.
    rewrite andb_false_r. reflexivity.
  - intros h calls st.
    destruct (module_run_cleared calls (h, initial_pools)) as (_ & B & L).
    { unfold lists_cleared. simpl. split; [reflexivity|]. split; [lia|].
      intros r []. }
    split; [exact B|]. intros r items Hr Hi.
    fold st in L. rewrite (L r Hr) in Hi. injection Hi as <-. reflexivity.
Qed.

(** C7 as stated fails for [return_object] itself: a list of three items
    given back to a pool with room is queued with its three items. *)
Lemma return_object_keeps_list_items :
  let h : heap := {[ 0 := PyList [1; 2; 3]%Z ]} in
  let '(_, h', p') := return_object h (new_pool (PyList []) 20) 0 in
  pool p' = [0] /\ h' !! 0 = Some (PyList [1; 2; 3]%Z).
Proof. vm_compute. split; reflexivity. Qed.

End MemoryOptimizerFacts.

(** ** core/optimized_nlp.py and core/nlp_engine.py: confirmations *)

(** *** Patterns without repetition *)

Module ReFacts.
Import Re ReProps.

Lemma run_reaches (r : regex) :
  simple r = true ->
  forall (A : Type) (k : cont A) (pre rest : Py.str) (c : caps),
    caps_blind k ->
    (is_Some (run r pre rest c k) <->
     exists pre' rest', reaches r pre rest pre' rest' /\
                        is_Some (k pre' rest' [])).
Proof.
  induction r as [|p|a IHa b IHb|a IHa b IHb|lo hi a IHa|n a IHa| |];
    cbn [simple]; intros S A k pre rest c Hk.
  - cbn. split.
    + intros H. exists pre, rest. split; [auto|]. apply (Hk pre rest c []), H.
    + intros (pre' & rest' & [-> ->] & H). apply (Hk pre rest [] c), H.
  - cbn. destruct rest as [|x t].
    + split; [intros H; destruct H; discriminate|].
      intros (pre' & rest' & (x & E & _) & _). discriminate.
    + destruct (p x) eqn:P.
      * split.
        -- intros H. exists (x :: pre), t. split; [exists x; auto|].
           apply (Hk _ _ c []), H.
        -- intros (pre' & rest' & (y & E & -> & _) & H).
           injection E as <- <-. apply (Hk _ _ [] c), H.
      * split; [intros H; destruct H; discriminate|].
        intros (pre' & rest' & (y & E & _ & Py) & _).
        injection E as <- <-. congruence.
  - apply andb_true_iff in S. destruct S as [Sa Sb].
    cbn [run reaches].
    assert (Hk2 : caps_blind (fun pre' rest' c' => run b pre' rest' c' k)).
    { intros p1 r1 c1 c2. rewrite !(IHb Sb A k p1 r1 _ Hk). reflexivity. }
    rewrite (IHa Sa A _ pre rest c Hk2). split.
    + intros (pm & rm & Ha & H). apply (IHb Sb A k pm rm [] Hk) in H.
      destruct H as (pre' & rest' & Hb & H). exists pre', rest'.
      split; [exists pm, rm; auto|exact H].
    + intros (pre' & rest' & (pm & rm & Ha & Hb) & H). exists pm, rm.
      split; [exact Ha|]. apply (IHb Sb A k pm rm [] Hk). eauto.
  - apply andb_true_iff in S. destruct S as [Sa Sb].
    cbn [run reaches].
    pose proof (IHa Sa A k pre rest c Hk) as Ea.
    pose proof (IHb Sb A k pre rest c Hk) as Eb.
    destruct (run a pre rest c k) as [v|].
    + split; [|intros _; eauto].
      intros _. destruct (proj1 Ea (mk_is_Some _ _ eq_refl))
        as (pre' & rest' & Ha & H).
      exists pre', rest'. auto.
    + rewrite Eb. split.
      * intros (pre' & rest' & Hb & H). exists pre', rest'. auto.
      * intros (pre' & rest' & [Ha|Hb] & H); [|eauto].
        destruct (proj2 Ea (ex_intro _ pre' (ex_intro _ rest' (conj Ha H))))
          as [? ?]. discriminate.
  - discriminate.
  - cbn [run reaches].
    match goal with
    | |- context [run a pre rest c ?k0] => set (k' := k0)
    end.
    assert (Hk' : caps_blind k').
    { intros p1 r1 c1 c2. unfold k'. apply Hk. }
    rewrite (IHa S A k' pre rest c Hk'). unfold k'. split.
    + intros (pre' & rest' & Ha & H). exists pre', rest'.
      split; [exact Ha|]. apply (Hk _ _ _ []) in H. exact H.
    + intros (pre' & rest' & Ha & H). exists pre', rest'.
      split; [exact Ha|]. eapply (Hk _ _ [] _). exact H.
  - cbn. destruct pre as [|y pre].
    + split.
      * intros H. exists [], rest. split; [auto|]. apply (Hk _ _ c []), H.
      * intros (pre' & rest' & (_ & -> & ->) & H). apply (Hk _ _ [] c), H.
    + split; [intros H; destruct H; discriminate|].
      intros (pre' & rest' & (E & _) & _). discriminate.
  - cbn. destruct (xorb (word_before pre) (word_before rest)) eqn:X.
    + split.
      * intros H. exists pre, rest. split; [auto|]. apply (Hk _ _ c []), H.
      * intros (pre' & rest' & (_ & -> & ->) & H). apply (Hk _ _ [] c), H.
    + split; [intros H; destruct H; discriminate|].
      intros (pre' & rest' & (E & _) & _). discriminate.
Qed.

Lemma match_at_reaches (r : regex) (pre rest : Py.str) :
  simple r = true ->
  (is_Some (match_at r pre rest) <->
   exists pre' rest', reaches r pre rest pre' rest').
Proof.
  intros S. unfold match_at. rewrite (run_reaches r S).
  - split.
    + intros (pre' & rest' & H & _). eauto.
    + intros (pre' & rest' & H). exists pre', rest'. split; [exact H|eauto].
  - intros p1 r1 c1 c2. split; intros _; eauto.
Qed.

Lemma search_from_reaches (r : regex) (rest pre : Py.str) :
  simple r = true ->
  (is_Some (search_from r pre rest) <->
   exists before after pre' rest',
     rest = before ++ after /\
     reaches r (rev before ++ pre) after pre' rest').
Proof.
  intros S. revert pre. induction rest as [|x t IH]; intros pre.
  - cbn [search_from].
    pose proof (match_at_reaches r pre [] S) as M.
    destruct (match_at r pre []) as [m|].
    + split; [|intros _; eauto]. intros _.
      destruct (proj1 M (mk_is_Some _ _ eq_refl)) as (pre' & rest' & H).
      exists [], [], pre', rest'. auto.
    + split; [intros H; destruct H; discriminate|].
      intros (before & after & pre' & rest' & E & H).
      symmetry in E. apply app_eq_nil in E. destruct E as [-> ->].
      apply M. eauto.
  - cbn [search_from].
    pose proof (match_at_reaches r pre (x :: t) S) as M.
    destruct (match_at r pre (x :: t)) as [m|].
    + split; [|intros _; eauto]. intros _.
      destruct (proj1 M (mk_is_Some _ _ eq_refl)) as (pre' & rest' & H).
      exists [], (x :: t), pre', rest'. auto.
    + rewrite IH. split.
      * intros (before & after & pre' & rest' & -> & H).
        exists (x :: before), after, pre', rest'. split; [reflexivity|].
        cbn [rev]. rewrite <- app_assoc. exact H.
      * intros (before & after & pre' & rest' & E & H).
        destruct before as [|y before].
        -- cbn in E, H. subst after.
           destruct (proj2 M (ex_intro _ pre' (ex_intro _ rest' H))) as [? ?].
           discriminate.
        -- injection E as <- ->. exists before, after, pre', rest'.
           split; [reflexivity|]. cbn [rev] in H. rewrite <- app_assoc in H.
           exact H.
Qed.

Lemma search_reaches (r : regex) (s : Py.str) :
  simple r = true ->
  (search r s = true <->
   exists before after pre' rest',
     s = before ++ after /\ reaches r (rev before) after pre' rest').
Proof.
  intros S. unfold search.
  pose proof (search_from_reaches r s [] S) as H.
  setoid_rewrite app_nil_r in H. rewrite <- H.
  destruct (search_from r [] s); split; intros E; eauto; try discriminate.
  destruct E. discriminate.
Qed.

(** *** Sequences and alternatives *)

Lemma reaches_seqs_cons (r : regex) (l : list regex)
    (pre rest pre' rest' : Py.str) :
  reaches (seqs (r :: l)) pre rest pre' rest' <->
  exists pm rm, reaches r pre rest pm rm /\ reaches (seqs l) pm rm pre' rest'.
Proof.
  destruct l as [|r2 l]; [|reflexivity]. cbn. split.
  - intros H. exists pre', rest'. auto.
  - intros (pm & rm & H & -> & ->). exact H.
Qed.

Lemma reaches_alts_cons (r r2 : regex) (l : list regex)
    (pre rest pre' rest' : Py.str) :
  reaches (alts (r :: r2 :: l)) pre rest pre' rest' <->
  reaches r pre rest pre' rest' \/ reaches (alts (r2 :: l)) pre rest pre' rest'.
Proof. reflexivity. Qed.

(** a literal under [re.IGNORECASE] reads a text with the same lowercase
    form *)
Lemma reaches_chri (l : Py.str) (pre rest pre' rest' : Py.str) :
  reaches (seqs (map chri l)) pre rest pre' rest' <->
  exists w, rest = w ++ rest' /\ pre' = rev w ++ pre /\ Py.lower w = Py.lower l.
Proof.
  revert pre rest. induction l as [|c l IH]; intros pre rest.
  - cbn. split.
    + intros [-> ->]. exists []. auto.
    + intros (w & -> & -> & E). destruct w; [auto|discriminate].
  - cbn [map]. rewrite reaches_seqs_cons. split.
    + intros (pm & rm & (x & -> & -> & Hx) & H).
      apply IH in H. destruct H as (w & -> & -> & E).
      exists (x :: w). cbn. rewrite <- app_assoc. cbn.
      split; [reflexivity|]. split; [reflexivity|].
      apply N.eqb_eq in Hx. unfold Py.lower in E. congruence.
    + intros (w & -> & -> & E). destruct w as [|x w]; [discriminate|].
      cbn in E. injection E as Ex Ew.
      exists (x :: pre), (w ++ rest'). split.
      * exists x. split; [reflexivity|]. split; [reflexivity|].
        apply N.eqb_eq. exact Ex.
      * apply IH. exists w. cbn. rewrite <- app_assoc. auto.
Qed.

End ReFacts.


(** *** The confirmation pattern *)

Module KeywordFacts.
Import Re ReProps ReFacts OptimizedNlp KeywordProps.

Lemma isupper_isalpha (x : N) :
  Py.isupper_cp x = true -> Py.isalpha x = true /\ Py.isalpha (x + 32) = true.
Proof.
  unfold Py.isupper_cp, Py.isalpha.
  rewrite !orb_true_iff, !andb_true_iff, !negb_true_iff, !N.leb_le,
    !N.eqb_eq, N.eqb_neq.
  lia.
Qed.

Lemma isword_lower (x : N) : Py.isword (Py.lower_cp x) = Py.isword x.
Proof.
  unfold Py.lower_cp. destruct (Py.isupper_cp x) eqn:U; [|reflexivity].
  destruct (isupper_isalpha x U) as [H1 H2].
  unfold Py.isword. rewrite H1, H2. reflexivity.
Qed.

Lemma word_before_lower (w : Py.str) :
  word_before (Py.lower w) = word_before w.
Proof. destruct w as [|x w]; [reflexivity|]. cbn. apply isword_lower. Qed.

Lemma word_before_rev_lower (w : Py.str) :
  word_before (rev (Py.lower w)) = word_before (rev w).
Proof.
  unfold Py.lower. rewrite <- map_rev. apply word_before_lower.
Qed.

Lemma word_before_app (s t : Py.str) :
  s <> [] -> word_before (s ++ t) = word_before s.
Proof. destruct s; [congruence|reflexivity]. Qed.

Lemma reaches_alts_liti (ks : list string) (pre rest pre' rest' : Py.str) :
  ks <> [] ->
  (reaches (alts (map liti ks)) pre rest pre' rest' <->
   exists k, In k ks /\
     exists w, rest = w ++ rest' /\ pre' = rev w ++ pre /\
               Py.lower w = Py.lower (Py.u k)).
Proof.
  induction ks as [|k ks IH]; [congruence|]. intros _.
  destruct ks as [|k2 ks].
  - cbn [map alts]. unfold liti. rewrite reaches_chri. split.
    + intros H. exists k. split; [left; reflexivity|exact H].
    + intros (k' & [<-|[]] & H). exact H.
  - cbn [map]. rewrite reaches_alts_cons.
    change (liti k2 :: map liti ks) with (map liti (k2 :: ks)).
    rewrite IH by discriminate. unfold liti at 1. rewrite reaches_chri. split.
    + intros [H|(k' & I & H)].
      * exists k. split; [left; reflexivity|exact H].
      * exists k'. split; [right; exact I|exact H].
    + intros (k' & [<-|I] & H); [left; exact H|right; eauto].
Qed.

Lemma written_facts (k : string) :
  In k written ->
  Py.lower (Py.u k) = Py.u k /\ Py.u k <> [] /\
  word_before (Py.u k) = true /\ word_before (rev (Py.u k)) = true.
Proof.
  unfold written. cbn [In].
  intros H.
  repeat (destruct H as [<-|H];
          [split; [reflexivity|]; split; [discriminate|];
           split; reflexivity|]).
  destruct H.
Qed.

Lemma lower_nonempty (w kw : Py.str) : Py.lower w = kw -> kw <> [] -> w <> [].
Proof. intros <- H ->. apply H. reflexivity. Qed.

Lemma rev_nonempty (w : Py.str) : w <> [] -> rev w <> [].
Proof.
  intros H E. apply H. rewrite <- (rev_involutive w), E. reflexivity.
Qed.

(** The pattern is found in a text exactly when the text holds one of
    the keywords, in any case, as a whole word. *)
Lemma confirmation_search (text : Py.str) :
  search confirmation text = true <-> has_keyword text.
Proof.
  rewrite search_reaches by reflexivity.
  change confirmation with (seqs [Wb; alts (map liti written); Wb]).
  split.
  - intros (before & after & pre' & rest' & E & H).
    apply reaches_seqs_cons in H. destruct H as (pm & rm & (X1 & -> & ->) & H).
    apply reaches_seqs_cons in H. destruct H as (pm2 & rm2 & Halt & Hwb).
    cbn in Hwb. destruct Hwb as (X2 & Ep & Er). subst pm2 rm2.
    apply reaches_alts_liti in Halt; [|discriminate].
    destruct Halt as (k & Ik & w & Er & Ep & L). subst after pre'.
    destruct (written_facts k Ik) as (Lk & Nk & W1 & W2).
    rewrite Lk in L.
    pose proof (lower_nonempty w _ L Nk) as Nw.
    exists before, w, rest', (Py.u k).
    split; [exact E|]. split; [apply in_map, Ik|]. split; [exact L|].
    unfold ends_in_word, starts_with_word. split.
    + rewrite (word_before_app w rest' Nw) in X1.
      rewrite <- (word_before_lower w), L, W1 in X1.
      destruct (word_before (rev before)); [discriminate|reflexivity].
    + rewrite (word_before_app (rev w) _ (rev_nonempty w Nw)) in X2.
      rewrite <- (word_before_rev_lower w), L, W2 in X2.
      destruct (word_before rest'); [discriminate|reflexivity].
  - intros (before & w & after & kw & E & Ik & L & B1 & B2).
    unfold keywords in Ik. apply in_map_iff in Ik.
    destruct Ik as (k & <- & Ik).
    destruct (written_facts k Ik) as (Lk & Nk & W1 & W2).
    pose proof (lower_nonempty w _ L Nk) as Nw.
    unfold ends_in_word, starts_with_word in B1, B2.
    exists before, (w ++ after), (rev w ++ rev before), after.
    split; [exact E|].
    apply reaches_seqs_cons. exists (rev before), (w ++ after). split.
    { cbn. split; [|auto].
      rewrite (word_before_app w after Nw), <- (word_before_lower w), L, W1, B1.
      reflexivity. }
    apply reaches_seqs_cons. exists (rev w ++ rev before), after. split.
    { apply reaches_alts_liti; [discriminate|].
      exists k. split; [exact Ik|]. exists w.
      split; [reflexivity|]. split; [reflexivity|]. rewrite Lk. exact L. }
    cbn. split; [|auto].
    rewrite (word_before_app (rev w) _ (rev_nonempty w Nw)),
      <- (word_before_rev_lower w), L, W2, B2.
    reflexivity.
Qed.

End KeywordFacts.

(** *** The cached detector *)

Module ConfirmationFacts.
Import Re OptimizedNlp.
Import ConfirmationProps KeywordProps KeywordFacts.

Lemma dict_get_In (c : cache) (key : string) (v : cached) :
  dict_get c key = Some v -> In (key, v) c.
Proof.
  induction c as [|[k w] t IH]; simpl; [discriminate|].
  destruct (String.eqb_spec k key) as [->|Hne].
  - intros [= ->]. left. reflexivity.
  - intros H. right. apply IH, H.
Qed.

Lemma dict_set_In (c : cache) (key k : string) (v w : cached) :
  In (k, w) (dict_set c key v) -> In (k, w) c \/ (k, w) = (key, v).
Proof.
  induction c as [|[k' w'] t IH]; simpl.
  - intros [H|[]]. right. congruence.
  - destruct (String.eqb_spec k' key) as [->|Hne]; simpl.
    + intros [H|H]; [right; congruence|left; right; exact H].
    + intros [H|H]; [left; left; exact H|].
      destruct (IH H) as [H'|H']; [left; right; exact H'|right; exact H'].
Qed.

Lemma In_skipn {A : Type} (x : A) (n : nat) (l : list A) :
  In x (skipn n l) -> In x l.
Proof.
  revert l. induction n as [|n IH]; intros l; [exact (fun H => H)|].
  destruct l as [|a l]; simpl; [exact (fun H => H)|]. intros H. right.
  apply IH, H.
Qed.

Lemma In_evicted (x : string * cached) (c : cache) : In x (evicted c) -> In x c.
Proof.
  unfold evicted. destruct (_max_cache_size <=? length c)%nat; [|auto].
  apply In_skipn.
Qed.

Lemma detect_unfold (c : cache) (text : Py.str) :
  detect_confirmation_optimized c text =
  match _get_cache_key text "confirmation" with
  | Raise e => Raise e
  | Ok key =>
      match dict_get c key with
      | Some v => Ok (v, c)
      | None =>
          Ok (CBool (search confirmation text),
              dict_set (evicted c) key (CBool (search confirmation text)))
      end
  end.
Proof.
  unfold detect_confirmation_optimized, _get_cached_result, _cache_result.
  destruct (_get_cache_key text "confirmation") as [key|e]; [|reflexivity].
  cbn [mbind result_bind mret result_ret].
  destruct (dict_get c key); reflexivity.
Qed.

Lemma detect_coherent (texts : list Py.str) (c c' : cache) (text : Py.str)
    (v : cached) :
  In text texts -> coherent texts c ->
  detect_confirmation_optimized c text = Ok (v, c') -> coherent texts c'.
Proof.
  intros Ht Hc. rewrite detect_unfold.
  destruct (_get_cache_key text "confirmation") as [key|e] eqn:K; [|discriminate].
  destruct (dict_get c key) as [w|].
  - intros [= <- <-]. exact Hc.
  - assert (Hev : forall x, In x (evicted c) -> In x c)
      by (intros x; apply In_evicted).
    revert Hev. generalize (evicted c). intros c1 Hev.
    intros E. injection E as <- <-. intros k w Hin.
    apply dict_set_In in Hin. destruct Hin as [Hin|E].
    + apply Hc, Hev, Hin.
    + injection E as -> ->. exists text. auto.
Qed.

Lemma run_history_coherent (texts history : list Py.str) (c : cache) :
  (forall t, In t history -> In t texts) -> coherent texts c ->
  coherent texts (run_history c history).
Proof.
  revert c. induction history as [|t rest IH]; intros c Hsub Hc; [exact Hc|].
  cbn [run_history].
  destruct (detect_confirmation_optimized c t) as [[v c']|e] eqn:D.
  - apply IH.
    + intros x Hx. apply Hsub. right. exact Hx.
    + eapply detect_coherent; [|exact Hc|exact D]. apply Hsub. left. reflexivity.
  - apply IH; [|exact Hc]. intros x Hx. apply Hsub. right. exact Hx.
Qed.

(** C8.  Take a text of Latin-1 characters and an engine that has checked
    the texts of [history], none of which shares a cache key with another
    or with the text.  Then [detect_confirmation_optimized] returns
    [True] exactly when the text holds one of the keywords confirmo,
    confirmado, ok, sí, si, vale, perfecto, de acuerdo, in any case, as a
    whole word; no word about a reservation is asked for.  So "ok" alone
    is a confirmation for the optimized engine and none for
    [NLPEngine.detect_confirmation]. *)
Theorem detect_confirmation_optimized_spec
    (history : list Py.str) (text : Py.str) :
  Py.latin1 text ->
  no_collision (text :: history) ->
  (exists b c',
     detect_confirmation_optimized (run_history [] history) text
     = Ok (CBool b, c') /\
     (b = true <-> has_keyword text)) /\
  (exists c', detect_confirmation_optimized [] (Py.u "ok") = Ok (CBool true, c')) /\
  NlpEngine.detect_confirmation (Py.u "ok") = false.
Proof.
  intros Hl Hno. split; [|split; [eexists; vm_compute; reflexivity|reflexivity]].
  assert (Hc : coherent (text :: history) (run_history [] history)).
  { apply run_history_coherent; [intros t Ht; right; exact Ht|].
    intros key v []. }
  rewrite detect_unfold.
  assert (K : exists key, _get_cache_key text "confirmation" = Ok key).
  { unfold _get_cache_key.
    destruct (ConversationIdFacts.utf8_encode_latin1 text Hl) as [bytes ->].
    eauto. }
  destruct K as [key K]. rewrite K.
  exists (search confirmation text).
  destruct (dict_get (run_history [] history) key) as [v|] eqn:G.
  - apply dict_get_In in G. destruct (Hc key v G) as (t & Ht & Kt & ->).
    rewrite (Hno t text key Ht (or_introl eq_refl) Kt K).
    eexists. split; [reflexivity|]. apply confirmation_search.
  - eexists. split; [reflexivity|]. apply confirmation_search.
Qed.

(** "ok" asked a second time is answered from the cache. *)
Lemma detect_confirmation_optimized_witness :
  exists c', detect_confirmation_optimized
               (run_history [] [Py.u "hola"; Py.u "ok"]) (Py.u "ok")
             = Ok (CBool true, c').
Proof.
  destruct (proj1 (detect_confirmation_optimized_spec
                     [Py.u "hola"; Py.u "ok"] (Py.u "ok")
                     ltac:(apply ConversationIdFacts.latin1b_spec;
                           vm_compute; reflexivity)
                     ltac:(intros t1 t2 key H1 H2;
                           simpl in H1, H2;
                           destruct H1 as [<-|[<-|[<-|[]]]];
                           destruct H2 as [<-|[<-|[<-|[]]]];
                           try reflexivity;
                           vm_compute; intros [= <-]; discriminate)))
    as (b & c' & H & Hb).
  exists c'. rewrite H. f_equal. f_equal. f_equal. apply Hb.
  exists [], (Py.u "ok"), [], (Py.u "ok").
  split; [reflexivity|]. split; [right; right; left; reflexivity|].
  split; [reflexivity|]. split; reflexivity.
Defined.

End ConfirmationFacts.

(** ** core/nlp_engine.py: date extraction *)

Module DateFacts.
Import Re NlpEngine.
Import DateProps.

Lemma is_nil_eq {A : Type} (l : list A) : is_nil l = true -> l = [].
Proof. destruct l; [reflexivity|discriminate]. Qed.

Lemma no_raw_match_extract `{Datetime} (text : Py.str) :
  no_raw_match text = true -> extract_dates text = [].
Proof.
  unfold no_raw_match. rewrite !andb_true_iff.
  intros [[[H1 H2] H3] H4].
  unfold extract_dates, dates_found. cbv zeta.
  rewrite (is_nil_eq _ H1), (is_nil_eq _ H2), (is_nil_eq _ H3), (is_nil_eq _ H4).
  reflexivity.
Qed.

Lemma no_raw_match_entre : forallb no_raw_match entre_texts = true.
Proof. vm_compute. reflexivity. Qed.

(** C5 fails on the code.  The pattern "entre el D1 y D2 de MES" is in the
    table [_build_date_patterns] and finds the two days and the month in
    "entre el 5 y 8 de julio", but [extract_dates] never consults the
    table: whatever the date and the calendar library, it returns no date
    for that text, nor for any text "entre el D1 y D2 de MES" with days
    from 1 to 31 and a Spanish month name. *)
Theorem extract_dates_misses_entre `{Datetime} :
  In (pattern_entre, 3%nat) _build_date_patterns /\
  findall pattern_entre 3 (Py.u "entre el 5 y 8 de julio")
  = [[Py.u "5"; Py.u "8"; Py.u "julio"]] /\
  extract_dates (Py.u "entre el 5 y 8 de julio") = [] /\
  Forall (fun text => extract_dates text = []) entre_texts.
Proof.
  split; [|split; [|split]].
  - simpl. tauto.
  - vm_compute. reflexivity.
  - apply no_raw_match_extract. vm_compute. reflexivity.
  - apply List.Forall_forall. intros text Ht. apply no_raw_match_extract.
    pose proof no_raw_match_entre as E. rewrite forallb_forall in E.
    apply E, Ht.
Qed.

(** The phrasing the engine does support, with the year taken from a
    clock that reads March 2025. *)
Lemma dates_found_del_al `{Datetime} :
  now_month = 3%Z -> now_year = 2025%Z ->
  dates_found (Py.u "del 12 al 15 de agosto")
  = [Py.u "2025-08-12"; Py.u "2025-08-15"].
Proof.
  intros Hm Hy. unfold dates_found. cbv zeta.
  replace (findall pattern1 3 (Py.lower (Py.u "del 12 al 15 de agosto")))
    with [[Py.u "12"; Py.u "15"; Py.u "agosto"]] by (vm_compute; reflexivity).
  replace (findall pattern2 4 (Py.lower (Py.u "del 12 al 15 de agosto")))
    with (@nil (list Py.str)) by (vm_compute; reflexivity).
  replace (findall pattern3 3 (Py.lower (Py.u "del 12 al 15 de agosto")))
    with (@nil (list Py.str)) by (vm_compute; reflexivity).
  replace (findall standard_pattern 1 (Py.u "del 12 al 15 de agosto"))
    with (@nil (list Py.str)) by (vm_compute; reflexivity).
  cbn [map concat app dates_del_al].
  replace (spanish_months !! Py.lower (Py.u "agosto")) with (Some 8%Z)
    by (vm_compute; reflexivity).
  unfold _get_appropriate_year. rewrite Hm, Hy.
  vm_compute. reflexivity.
Qed.

End DateFacts.


(* ===================================================================== *)
(** * Further properties                                                  *)
(* ===================================================================== *)

(** ** db/conversation_db.py: creating a conversation again *)

Module UpsertFacts.
Import Sql ConversationDb.
Import ConversationDbProps ConversationDbFacts UpsertProps.

Lemma create_unfold (d : db) (now timestamp : string)
    (remitente asunto : Py.str) :
  create_or_update_conversation d now timestamp remitente asunto =
  match get_conversation_id remitente asunto with
  | Ok id =>
      Ok (id,
          match d !! id with
          | Some c => <[id := with_updated_at (store NUMERIC (Text now)) c]> d
          | None =>
              <[id := mk_conversation (Text (Py.to_text asunto))
                        (Text (Py.to_text remitente))
                        Null Null Null Null Null Null Null Null Null
                        (Text "en_progreso")
                        (store NUMERIC (Text timestamp))
                        (store NUMERIC (Text timestamp))]> d
          end)
  | Raise e => Raise e
  end.
Proof.
  unfold create_or_update_conversation.
  destruct (get_conversation_id remitente asunto) as [id|e]; [|reflexivity].
  cbn. destruct (d !! id); reflexivity.
Qed.

(** X1.  [create_or_update_conversation] is an upsert keyed by the conversation
    id.  When the id has no row, a row is inserted with the subject, the
    sender, the state 'en_progreso' and every extracted field NULL.  When
    it has one, only [updated_at] changes: whatever was extracted before
    is kept.  No other row is touched. *)
Theorem create_or_update_keeps_fields
    (d d' : db) (now timestamp id : string) (remitente asunto : Py.str) :
  create_or_update_conversation d now timestamp remitente asunto = Ok (id, d') ->
  get_conversation_id remitente asunto = Ok id /\
  (forall k, k <> id -> d' !! k = d !! k) /\
  (d !! id = None ->
   exists c, d' !! id = Some c /\
     get c "asunto" = Text (Py.to_text asunto) /\
     get c "remitente" = Text (Py.to_text remitente) /\
     get c "estado" = Text "en_progreso" /\
     get c "created_at" = store NUMERIC (Text timestamp) /\
     get c "updated_at" = store NUMERIC (Text timestamp) /\
     (forall f, In f ("propiedad_id" :: "telefono_cliente" :: "confirmacion"
                        :: required_fields)%string -> get c f = Null)) /\
  (forall c, d !! id = Some c ->
     exists c', d' !! id = Some c' /\
       get c' "updated_at" = store NUMERIC (Text now) /\
       forall f, f <> "updated_at"%string -> get c' f = get c f).
Proof.
  rewrite create_unfold.
  destruct (get_conversation_id remitente asunto) as [id0|e] eqn:G; [|discriminate].
  intros [= -> <-].
  split; [reflexivity|]. split.
  { intros k Hk. destruct (d !! id); apply lookup_insert_ne; congruence. }
  split.
  - intros Hn. rewrite Hn. eexists. split; [apply lookup_insert_eq|].
    do 5 (split; [reflexivity|]).
    intros f Hf. simpl in Hf.
    repeat (destruct Hf as [<-|Hf]; [reflexivity|]). destruct Hf.
  - intros c Hc. rewrite Hc. eexists. split; [apply lookup_insert_eq|].
    split; [reflexivity|]. intros f Hf. by_columns.
Qed.

(** A reply "RE: Reserva Depa Isla Teja" from "Test123" lands in the
    conversation opened by "test123", whose extracted name is still
    there. *)
Lemma create_or_update_witness :
  respuesta_del_cliente = Ok (conversacion_id, despues_de_responder) /\
  exists c',
    despues_de_responder !! conversacion_id = Some c' /\
    get c' "nombre_cliente" = Text "Juan Pérez" /\
    get c' "updated_at" = Text "2024-10-01T11:00:00".
Proof.
  split; [vm_compute; reflexivity|].
  destruct (create_or_update_keeps_fields con_nombre despues_de_responder
              "2024-10-01T11:00:00" "2024-10-01 11:00:00" conversacion_id
              (Py.u "Test123") (Py.u "RE: Reserva Depa Isla Teja"))
    as (_ & _ & _ & H); [vm_compute; reflexivity|].
  edestruct H as (c' & Hc' & Hu & Hf); [vm_compute; reflexivity|].
  exists c'. split; [exact Hc'|]. split.
  - rewrite Hf by discriminate. vm_compute. reflexivity.
  - rewrite Hu. vm_compute. reflexivity.
Defined.

End UpsertFacts.
(** ** core/optimized_nlp.py: the result cache *)

Module ResultCacheFacts.
Import Re OptimizedNlp.
Import ConfirmationProps ConfirmationFacts.

Open Scope nat_scope.

Lemma dict_set_length (c : cache) (key : string) (v : cached) :
  length (dict_set c key v) <= S (length c).
Proof.
  induction c as [|[k w] t IH]; simpl; [lia|].
  destruct (String.eqb k key); simpl; lia.
Qed.

Lemma dict_get_set (c : cache) (key : string) (v : cached) :
  dict_get (dict_set c key v) key = Some v.
Proof.
  induction c as [|[k w] t IH]; simpl.
  - rewrite String.eqb_refl. reflexivity.
  - destruct (String.eqb k key) eqn:E; simpl; rewrite E; [reflexivity|exact IH].
Qed.

Lemma evicted_length (c : cache) :
  length c <= 1000 -> length (evicted c) <= 999.
Proof.
  intros H. unfold evicted.
  destruct (Nat.leb_spec _max_cache_size (length c)) as [L|L].
  - rewrite length_skipn. lia.
  - change _max_cache_size with 1000 in L. lia.
Qed.

Lemma detect_length (c c' : cache) (text : Py.str) (v : cached) :
  length c <= 1000 ->
  detect_confirmation_optimized c text = Ok (v, c') -> length c' <= 1000.
Proof.
  intros H. rewrite detect_unfold.
  destruct (_get_cache_key text "confirmation") as [key|e]; [|discriminate].
  destruct (dict_get c key) as [w|].
  - intros [= _ <-]. exact H.
  - intros [= _ <-]. pose proof (dict_set_length (evicted c) key
                                   (CBool (search confirmation text))).
    pose proof (evicted_length c H). lia.
Qed.

Lemma run_history_length (history : list Py.str) (c : cache) :
  length c <= 1000 -> length (run_history c history) <= 1000.
Proof.
  revert c. induction history as [|t rest IH]; intros c H; simpl; [exact H|].
  destruct (detect_confirmation_optimized c t) as [[v c']|e] eqn:D.
  - apply IH. eapply detect_length; eassumption.
  - apply IH, H.
Qed.

(** X2.  The engine's result cache never holds more than [_max_cache_size]
    = 1000 entries: [_cache_result], through which every extractor
    writes, keeps the bound, and so does any run of confirmation checks.
    A text that was just checked is answered from the cache: asking again
    returns the same value and leaves the cache as it is. *)
Theorem result_cache_bounded :
  (forall (c c' : cache) (text : Py.str) (operation : string) (v : cached),
      length c <= 1000 -> _cache_result c text operation v = Ok c' ->
      length c' <= 1000) /\
  (forall history : list Py.str, length (run_history [] history) <= 1000) /\
  (forall (c c' : cache) (text : Py.str) (v : cached),
      detect_confirmation_optimized c text = Ok (v, c') ->
      detect_confirmation_optimized c' text = Ok (v, c')).
Proof.
  split; [|split].
  - intros c c' text operation v H. unfold _cache_result. fold (evicted c).
    destruct (_get_cache_key text operation) as [key|e]; [|discriminate].
    intros [= <-]. pose proof (dict_set_length (evicted c) key v).
    pose proof (evicted_length c H). lia.
  - intros history. apply run_history_length. simpl. lia.
  - intros c c' text v. rewrite !detect_unfold.
    destruct (_get_cache_key text "confirmation") as [key|e]; [|discriminate].
    destruct (dict_get c key) as [w|] eqn:G.
    + intros [= <- <-]. rewrite G. reflexivity.
    + intros [= <- <-]. fold (evicted c). rewrite dict_get_set. reflexivity.
Qed.

End ResultCacheFacts.
(** ** utils/memory_optimizer.py: what the pools hand out *)

Module PoolFacts.
Import MemoryOptimizer.
Import MemoryOptimizerProps MemoryOptimizerFacts PoolProps.

Open Scope nat_scope.

Lemma no_weakref_no_reset (o : obj) : weakrefable o = false -> has_reset o = false.
Proof. destruct o; simpl; [reflexivity..|discriminate]. Qed.

Lemma get_raises (h : heap) (p : ObjectPool) :
  weakrefable (factory p) = false ->
  (forall r, In r (pool p) -> no_weakref h r) ->
  (get h p).1.1 = Raise TypeError.
Proof.
  intros F P. unfold get. destruct (pool p) as [|r rest].
  - rewrite lookup_insert_eq, F. reflexivity.
  - destruct (P r (or_introl eq_refl)) as (o & -> & ->). reflexivity.
Qed.

Lemma return_object_raises (h : heap) (p : ObjectPool) (r : ref) :
  no_weakref h r -> (return_object h p r).1.1 = Raise TypeError.
Proof.
  intros (o & Ho & W). unfold return_object. rewrite Ho.
  rewrite (no_weakref_no_reset o W).
  destruct (length (pool p) <? max_size p); cbn; rewrite Ho, W; reflexivity.
Qed.

Lemma get_keeps (h : heap) (p : ObjectPool) (r : ref) :
  no_weakref h r -> no_weakref (get h p).1.2 r.
Proof.
  intros (o & Ho & W). exists o. split; [|exact W].
  pose proof (get_heap h p r o) as G.
  destruct (get h p) as [[res h'] p']. apply G, Ho.
Qed.

Lemma return_object_keeps (h : heap) (p : ObjectPool) (r r' : ref) :
  no_weakref h r' -> no_weakref (return_object h p r).1.2 r'.
Proof.
  intros (o & Ho & W). exists o. split; [|exact W].
  pose proof (return_object_heap h p r) as G.
  pose proof (return_object_other h p r r') as G'.
  destruct (return_object h p r) as [[res h'] p']. simpl.
  destruct (decide (r' = r)) as [->|Hne].
  - rewrite (G o Ho), (no_weakref_no_reset o W), andb_false_r. reflexivity.
  - rewrite (G' Hne). exact Ho.
Qed.

Lemma cleared_keeps (h : heap) (r r' : ref) (o : obj) :
  h !! r = Some o -> weakrefable o = false ->
  no_weakref h r' -> no_weakref (<[r := clear o]> h) r'.
Proof.
  intros Ho W (o' & Ho' & W'). destruct (decide (r' = r)) as [->|Hne].
  - exists (clear o). rewrite lookup_insert_eq. split; [reflexivity|].
    destruct o; simpl in *; congruence.
  - exists o'. rewrite lookup_insert_ne by congruence. auto.
Qed.

Lemma in_pool_after_return (h : heap) (p : ObjectPool) (r x : ref) :
  In x (pool (return_object h p r).2) -> In x (pool p) \/ x = r.
Proof.
  pose proof (return_object_pool h p r) as G.
  destruct (return_object h p r) as [[res h'] p']. simpl.
  destruct G as (_ & _ & ->).
  destruct (length (pool p) <? max_size p); [|auto].
  rewrite in_app_iff. simpl. intuition.
Qed.

Lemma in_pool_after_get (h : heap) (p : ObjectPool) (x : ref) :
  In x (pool (get h p).2) -> In x (pool p).
Proof.
  pose proof (get_pool h p) as G.
  destruct (get h p) as [[res h'] p']. simpl.
  destruct G as (_ & _ & ->). apply in_tail.
Qed.

Lemma factory_after_get (h : heap) (p : ObjectPool) :
  factory (get h p).2 = factory p.
Proof.
  pose proof (get_pool h p) as G.
  destruct (get h p) as [[res h'] p']. simpl. tauto.
Qed.

Lemma factory_after_return (h : heap) (p : ObjectPool) (r : ref) :
  factory (return_object h p r).2 = factory p.
Proof.
  pose proof (return_object_pool h p r) as G.
  destruct (return_object h p r) as [[res h'] p']. simpl. tauto.
Qed.

Lemma module_step_builtin (st : heap * pools) (c : module_call) :
  builtin_pools st -> builtin_pools (module_step st c).
Proof.
  destruct st as [h ps]. unfold builtin_pools. simpl.
  intros (Fs & Fl & Fd & P). destruct c as [| | |r]; simpl.
  - unfold get_pooled_string.
    pose proof (factory_after_get h (string_pool ps)) as F.
    pose proof (in_pool_after_get h (string_pool ps)) as I.
    pose proof (get_keeps h (string_pool ps)) as K.
    destruct (get h (string_pool ps)) as [[res h'] p']. simpl in *.
    rewrite F. repeat (split; [assumption|]).
    intros x Hx. apply K, P. intuition.
  - unfold get_pooled_list.
    pose proof (factory_after_get h (list_pool ps)) as F.
    pose proof (in_pool_after_get h (list_pool ps)) as I.
    pose proof (get_keeps h (list_pool ps)) as K.
    destruct (get h (list_pool ps)) as [[res h'] p']. simpl in *.
    rewrite F. repeat (split; [assumption|]).
    intros x Hx. apply K, P. intuition.
  - unfold get_pooled_dict.
    pose proof (factory_after_get h (dict_pool ps)) as F.
    pose proof (in_pool_after_get h (dict_pool ps)) as I.
    pose proof (get_keeps h (dict_pool ps)) as K.
    destruct (get h (dict_pool ps)) as [[res h'] p']. simpl in *.
    rewrite F. repeat (split; [assumption|]).
    intros x Hx. apply K, P. intuition.
  - unfold return_to_pool. destruct (h !! r) as [o|] eqn:Ho; [|simpl; auto].
    destruct o as [s|items|items|state reset]; [| | |simpl; auto].
    + pose proof (factory_after_return h (string_pool ps) r) as F.
      pose proof (in_pool_after_return h (string_pool ps) r) as I.
      pose proof (return_object_keeps h (string_pool ps) r) as K.
      destruct (return_object h (string_pool ps) r) as [[res h'] p']. simpl in *.
      rewrite F. repeat (split; [assumption|]).
      intros x Hx. apply K.
      destruct Hx as [Hx|Hx]; [destruct (I x Hx) as [Hx'| ->]|]; auto.
      exists (PyStr s). auto.
    + set (h1 := <[r := clear (PyList items)]> h).
      pose proof (factory_after_return h1 (list_pool ps) r) as F.
      pose proof (in_pool_after_return h1 (list_pool ps) r) as I.
      pose proof (return_object_keeps h1 (list_pool ps) r) as K.
      assert (C : forall x, no_weakref h x -> no_weakref h1 x).
      { intros x. apply (cleared_keeps h r x (PyList items) Ho eq_refl). }
      destruct (return_object h1 (list_pool ps) r) as [[res h'] p']. simpl in *.
      rewrite F. repeat (split; [assumption|]).
      intros x Hx. apply K.
      destruct Hx as [Hx|[Hx|Hx]]; [|destruct (I x Hx) as [Hx'| ->]|]; auto.
      exists (PyList []). split; [apply lookup_insert_eq|reflexivity].
    + set (h1 := <[r := clear (PyDict items)]> h).
      pose proof (factory_after_return h1 (dict_pool ps) r) as F.
      pose proof (in_pool_after_return h1 (dict_pool ps) r) as I.
      pose proof (return_object_keeps h1 (dict_pool ps) r) as K.
      assert (C : forall x, no_weakref h x -> no_weakref h1 x).
      { intros x. apply (cleared_keeps h r x (PyDict items) Ho eq_refl). }
      destruct (return_object h1 (dict_pool ps) r) as [[res h'] p']. simpl in *.
      rewrite F. repeat (split; [assumption|]).
      intros x Hx. apply K.
      destruct Hx as [Hx|[Hx|Hx]]; [| |destruct (I x Hx) as [Hx'| ->]]; auto.
      exists (PyDict []). split; [apply lookup_insert_eq|reflexivity].
Qed.

Lemma module_run_builtin (calls : list module_call) (st : heap * pools) :
  builtin_pools st -> builtin_pools (module_run calls st).
Proof.
  revert st. induction calls as [|c calls IH]; intros st B; [exact B|].
  apply (IH (module_step st c)), module_step_builtin, B.
Qed.

(** X3.  In CPython a [str], a [list] or a [dict] cannot be weakly referenced,
    and every pool records what it hands out in a [WeakSet].  So, whatever
    was done with the module's three pools before, [get_pooled_string],
    [get_pooled_list] and [get_pooled_dict] raise [TypeError] instead of
    returning an object, and so does [return_to_pool] on a [str], a [list]
    or a [dict]. *)
Theorem pooled_helpers_raise (h0 : heap) (calls : list module_call) :
  let st := module_run calls (h0, initial_pools) in
  (get_pooled_string st.1 st.2).1.1 = Raise TypeError /\
  (get_pooled_list st.1 st.2).1.1 = Raise TypeError /\
  (get_pooled_dict st.1 st.2).1.1 = Raise TypeError /\
  (forall r o, st.1 !! r = Some o -> weakrefable o = false ->
     (return_to_pool st.1 st.2 r).1.1 = Raise TypeError).
Proof.
  intros st.
  assert (B : builtin_pools st).
  { apply module_run_builtin. unfold builtin_pools. simpl.
    repeat (split; [reflexivity|]). intros r [[]|[[]|[]]]. }
  destruct st as [h ps]. destruct B as (Fs & Fl & Fd & P). simpl in *.
  split; [|split; [|split]].
  - unfold get_pooled_string.
    pose proof (get_raises h (string_pool ps) Fs) as G.
    destruct (get h (string_pool ps)) as [[res h'] p']. simpl in *.
    apply G. intros r Hr. apply P. auto.
  - unfold get_pooled_list.
    pose proof (get_raises h (list_pool ps) Fl) as G.
    destruct (get h (list_pool ps)) as [[res h'] p']. simpl in *.
    apply G. intros r Hr. apply P. auto.
  - unfold get_pooled_dict.
    pose proof (get_raises h (dict_pool ps) Fd) as G.
    destruct (get h (dict_pool ps)) as [[res h'] p']. simpl in *.
    apply G. intros r Hr. apply P. auto.
  - intros r o Ho W. unfold return_to_pool. rewrite Ho.
    destruct o as [s|items|items|state reset]; [| | |discriminate W].
    + pose proof (return_object_raises h (string_pool ps) r) as G.
      destruct (return_object h (string_pool ps) r) as [[res h'] p']. simpl in *.
      apply G. exists (PyStr s). auto.
    + set (h1 := <[r := clear (PyList items)]> h).
      pose proof (return_object_raises h1 (list_pool ps) r) as G.
      destruct (return_object h1 (list_pool ps) r) as [[res h'] p']. simpl in *.
      apply G. exists (PyList []). split; [apply lookup_insert_eq|reflexivity].
    + set (h1 := <[r := clear (PyDict items)]> h).
      pose proof (return_object_raises h1 (dict_pool ps) r) as G.
      destruct (return_object h1 (dict_pool ps) r) as [[res h'] p']. simpl in *.
      apply G. exists (PyDict []). split; [apply lookup_insert_eq|reflexivity].
Qed.

(** X4.  A pool of class instances hands an object back out.  An instance
    returned to an empty pool with room is, with its [reset] method
    called if it has one, the object the next [get] returns, and it is
    then recorded as active; with [max_size = 0] it is dropped and [get]
    builds a new object. *)
Theorem object_pool_reuse
    (h : heap) (p : ObjectPool) (r : ref) (state : Z) (reset : option (Z -> Z)) :
  h !! r = Some (PyObject state reset) -> pool p = [] ->
  let '(res1, h1, p1) := return_object h p r in
  let '(res2, h2, p2) := get h1 p1 in
  res1 = Ok tt /\
  if 0 <? max_size p then
    res2 = Ok r /\ pool p2 = [] /\ r ∈ active_objects p2 /\
    h2 !! r = Some (PyObject (match reset with Some f => f state | None => state end)
                             reset)
  else
    pool p1 = [] /\ h2 !! fresh (dom h) = Some (factory p) /\ h !! fresh (dom h) = None.
Proof.
  intros Ho Hp. unfold return_object. rewrite Hp, Ho. simpl length.
  destruct (0 <? max_size p) eqn:M.
  - unfold deque_append. simpl app. simpl length.
    assert (L : (max_size p <? 1) = false).
    { apply Nat.ltb_ge. apply Nat.ltb_lt in M. lia. }
    rewrite L. destruct reset as [f|]; simpl.
    + rewrite lookup_insert_eq. simpl. unfold get. simpl.
      rewrite lookup_insert_eq. simpl.
      repeat split; try reflexivity; [set_solver|apply lookup_insert_eq].
    + rewrite Ho. simpl. unfold get. simpl. rewrite Ho. simpl.
      repeat split; try reflexivity; [set_solver|exact Ho].
  - rewrite Ho. simpl. unfold get. simpl.
    rewrite lookup_insert_eq.
    assert (Hf : h !! fresh (dom h) = None).
    { apply not_elem_of_dom. apply is_fresh. }
    destruct (weakrefable (factory p)); simpl;
      (repeat split; [apply lookup_insert_eq|exact Hf]).
Qed.

(** An instance with state 7 goes back to an empty pool of size 5 and
    comes out of it again, reset to 0. *)
Lemma object_pool_reuse_witness :
  let '(res1, h1, p1) :=
    return_object en_uso (new_pool (PyObject 0 None) 5) 0%nat in
  let '(res2, h2, p2) := get h1 p1 in
  res1 = Ok tt /\ res2 = Ok 0%nat /\ pool p2 = [] /\ 0%nat ∈ active_objects p2 /\
  h2 !! 0%nat = Some (PyObject 0 (Some reiniciar)).
Proof.
  exact (object_pool_reuse en_uso (new_pool (PyObject 0 None) 5) 0%nat 7
           (Some reiniciar) eq_refl eq_refl).
Defined.

End PoolFacts.
(** ** db/optimized_database.py: the query cache *)

Module QueryCacheFacts.
Import OptimizedQueries QueryCacheProps.

(** *** Keys *)

Lemma pretty_N_go_chars (P : ascii -> Prop) (x : N) (s : string) :
  (forall d, (d < 10)%N -> P (pretty_N_char d)) ->
  Forall P (list_ascii_of_string s) ->
  Forall P (list_ascii_of_string (pretty_N_go x s)).
Proof.
  intros Hd. revert s.
  induction (N.lt_wf_0 x) as [x _ IH]; intros s Hs.
  destruct (decide (x = 0)%N) as [->|Hx].
  - rewrite pretty_N_go_0. exact Hs.
  - rewrite pretty_N_go_step by lia. apply IH.
    + apply N.div_lt; lia.
    + simpl. constructor; [|exact Hs]. apply Hd. apply N.mod_lt. lia.
Qed.

Lemma pretty_N_chars (P : ascii -> Prop) (x : N) :
  (forall d, (d < 10)%N -> P (pretty_N_char d)) ->
  Forall P (list_ascii_of_string (pretty x)).
Proof.
  intros Hd. unfold pretty, pretty_N. destruct (decide (x = 0)%N).
  - simpl. constructor; [apply (Hd 0%N); lia|constructor].
  - apply pretty_N_go_chars; [exact Hd|constructor].
Qed.

Lemma bytes_of_string_Forall (P : N -> Prop) (s : string) :
  Forall (fun a => P (N_of_ascii a)) (list_ascii_of_string s) ->
  Forall P (Py.bytes_of_string s).
Proof.
  induction s as [|a t IH]; simpl; intros H; [constructor|].
  inversion H; subst. constructor; auto.
Qed.

Lemma digit_key_char (d : N) : (d < 10)%N -> key_char (N_of_ascii (pretty_N_char d)) = true.
Proof.
  intros H. destruct d as [|p]; [reflexivity|].
  do 4 (try destruct p as [p|p|]); try reflexivity; exfalso; lia.
Qed.

Lemma str_of_Z_key_chars (n : Z) :
  Forall (fun c => key_char c = true) (NlpEngine.str_of_Z n).
Proof.
  unfold NlpEngine.str_of_Z. apply bytes_of_string_Forall.
  unfold pretty, pretty_Z. destruct n as [|p|p].
  - simpl. constructor; [reflexivity|constructor].
  - apply (pretty_N_chars (fun a => key_char (N_of_ascii a) = true)).
    apply digit_key_char.
  - simpl. constructor; [reflexivity|].
    apply (pretty_N_chars (fun a => key_char (N_of_ascii a) = true)).
    apply digit_key_char.
Qed.

Lemma cache_key_chars (hq hp : Z) :
  Forall (fun c => key_char c = true) (_cache_key hq hp).
Proof.
  unfold _cache_key. rewrite !Forall_app. split; [apply str_of_Z_key_chars|].
  split; [|apply str_of_Z_key_chars].
  constructor; [reflexivity|constructor].
Qed.

Lemma startswith_Forall (P : N -> Prop) (p s : Py.str) :
  Py.startswith p s = true -> Forall P s -> Forall P p.
Proof.
  revert s. induction p as [|a p IH]; intros s H Hs; [constructor|].
  destruct s as [|b s]; [discriminate|]. simpl in H.
  apply andb_true_iff in H. destruct H as [E H]. apply N.eqb_eq in E. subst b.
  inversion Hs; subst. constructor; [assumption|]. eapply IH; eassumption.
Qed.

Lemma contains_Forall (P : N -> Prop) (p s : Py.str) :
  Py.contains p s = true -> Forall P s -> Forall P p.
Proof.
  induction s as [|b s IH]; simpl; intros H Hs.
  - rewrite orb_false_r in H. eapply startswith_Forall; eassumption.
  - apply orb_true_iff in H. destruct H as [H|H].
    + eapply startswith_Forall; eassumption.
    + inversion Hs; subst. auto.
Qed.

(** a table name with a letter occurs in no key of [_cache_key] *)
Lemma not_in_cache_key (name : Py.str) (hq hp : Z) :
  forallb key_char name = false -> Py.contains name (_cache_key hq hp) = false.
Proof.
  intros H. destruct (Py.contains name (_cache_key hq hp)) eqn:C; [|reflexivity].
  pose proof (contains_Forall _ _ _ C (cache_key_chars hq hp)) as F.
  rewrite <- H. symmetry. apply forallb_forall.
  intros x Hx. exact (proj1 (List.Forall_forall _ _) F x Hx).
Qed.

(** *** [get], [set] and [invalidate] *)

Section Cache.

Context {A : Type}.

Implicit Types (c : QueryCache.t A) (key : Py.str) (v : A).

Lemma set_lookup c now key v ttl :
  QueryCache.set c now key v ttl !! key = Some (v, now, effective_ttl ttl).
Proof. unfold QueryCache.set. cbv zeta. rewrite lookup_insert_eq. reflexivity. Qed.

Lemma get_hit c key v t l now' :
  c !! key = Some (v, t, l) -> (now' - t < l)%Z ->
  QueryCache.get c now' key = (Some v, c).
Proof.
  intros E L. unfold QueryCache.get. rewrite E.
  destruct (Z.ltb_spec (now' - t) l); [reflexivity|lia].
Qed.

Lemma get_expired c key v t l now' :
  c !! key = Some (v, t, l) -> (l <= now' - t)%Z ->
  QueryCache.get c now' key = (None, delete key c).
Proof.
  intros E L. unfold QueryCache.get. rewrite E.
  destruct (Z.ltb_spec (now' - t) l); [lia|reflexivity].
Qed.

Lemma get_answer_other c c' key key' now' :
  key' <> key -> c' !! key' = c !! key' ->
  (QueryCache.get c' now' key').1 = (QueryCache.get c now' key').1.
Proof.
  intros Hne E. unfold QueryCache.get. rewrite E.
  destruct (c !! key') as [[[r t] l]|]; [|reflexivity].
  destruct (now' - t <? l)%Z; reflexivity.
Qed.

Lemma invalidate_lookup c (x : N) (p : Py.str) key :
  QueryCache.invalidate c (Some (x :: p)) !! key =
  if Py.contains (x :: p) key then None else c !! key.
Proof.
  unfold QueryCache.invalidate. rewrite map_lookup_filter.
  destruct (c !! key) as [e|]; simpl.
  - destruct (Py.contains (x :: p) key); simpl; reflexivity.
  - destruct (Py.contains (x :: p) key); reflexivity.
Qed.

(** X5.  A value put in the cache is answered for [ttl] seconds and dropped by
    the first lookup after that; a [ttl] of [None] or 0 stands for 300
    seconds.  Lookups of other keys are not affected. *)
Theorem query_cache_ttl c (now now' : Z) key v (ttl : option Z) :
  let c' := QueryCache.set c now key v ttl in
  ((now' - now < effective_ttl ttl)%Z ->
   QueryCache.get c' now' key = (Some v, c')) /\
  ((effective_ttl ttl <= now' - now)%Z ->
   QueryCache.get c' now' key = (None, delete key c)) /\
  (forall key', key' <> key ->
     (QueryCache.get c' now' key').1 = (QueryCache.get c now' key').1) /\
  effective_ttl None = 300%Z /\ effective_ttl (Some 0%Z) = 300%Z /\
  (forall n, n <> 0%Z -> effective_ttl (Some n) = n).
Proof.
  intros c'. split; [|split; [|split; [|split; [|split]]]].
  - intros H. eapply get_hit; [apply set_lookup|exact H].
  - intros H. erewrite get_expired; [|apply set_lookup|exact H].
    unfold c', QueryCache.set. rewrite delete_insert_eq. reflexivity.
  - intros key' Hne. apply (get_answer_other c c' key key' now' Hne).
    unfold c', QueryCache.set. apply lookup_insert_ne. congruence.
  - reflexivity.
  - reflexivity.
  - intros n Hn. simpl. destruct (Z.eqb_spec n 0); [contradiction|reflexivity].
Qed.

(** X6.  [invalidate] with a non-empty pattern drops exactly the keys in which
    the pattern occurs: a later lookup of such a key finds nothing, and a
    lookup of any other key answers as before.  Without a pattern, or
    with the empty one, the cache is emptied. *)
Theorem invalidate_by_substring c (x : N) (p : Py.str) key (now : Z) :
  (QueryCache.get (QueryCache.invalidate c (Some (x :: p))) now key).1 =
  (if Py.contains (x :: p) key then None else (QueryCache.get c now key).1) /\
  QueryCache.invalidate c None = ∅ /\
  QueryCache.invalidate c (Some []) = ∅.
Proof.
  split; [|split; reflexivity].
  unfold QueryCache.get at 1. rewrite invalidate_lookup.
  destruct (Py.contains (x :: p) key); [reflexivity|].
  unfold QueryCache.get. destruct (c !! key) as [[[r t] l]|]; [|reflexivity].
  destruct (now - t <? l)%Z; reflexivity.
Qed.

End Cache.

(** *** Writes and cached reads *)

Section Queries.

Context {rows : Type}.

Lemma write_keeps_key (c : QueryCache.t rows) (query : Py.str)
    (executed : outcome (option Z * Z)) (hq hp : Z) :
  names_a_table query ->
  (execute_write_query c query executed).2 !! _cache_key hq hp
  = c !! _cache_key hq hp.
Proof.
  intros Hn. unfold execute_write_query.
  destruct executed as [[lastrowid rowcount]|e]; [|reflexivity].
  destruct (_extract_table_name query) as [[name|]|e] eqn:E; [|reflexivity..].
  destruct name as [|x name]; [reflexivity|]. cbn [snd].
  rewrite invalidate_lookup.
  destruct (Hn _ E) as [?|F]; [discriminate|].
  rewrite (not_in_cache_key _ hq hp F). reflexivity.
Qed.

(** X7.  A write through [execute_write_query] into a table whose name,
    as [_extract_table_name] reads it off the statement, has a character
    other than a digit, a minus sign and an underscore (a letter, as in
    [reservas], [mensajes] and [propiedades]) does not invalidate what
    [execute_cached_query] cached.  The keys of cached queries are made
    of two hash values, so such a name occurs in none of them: once a
    query was answered from the database, the same query is answered with
    the same rows until its time to live is over, whatever such write was
    made in between and whatever the database would return now. *)
Theorem writes_do_not_invalidate_cached_queries
    (c : QueryCache.t rows) (t_get t_set t_get' t_set' hq hp ttl : Z)
    (result : rows) (query : Py.str) (executed : outcome (option Z * Z))
    (fetched' : outcome rows) :
  (QueryCache.get c t_get (_cache_key hq hp)).1 = None ->
  names_a_table query ->
  (t_get' - t_set < effective_ttl (Some ttl))%Z ->
  let c1 := (execute_cached_query c t_get t_set hq hp ttl (Done result)).2 in
  let c2 := (execute_write_query c1 query executed).2 in
  (execute_cached_query c t_get t_set hq hp ttl (Done result)).1 = Done result /\
  execute_cached_query c2 t_get' t_set' hq hp ttl fetched' = (Done result, c2).
Proof.
  intros Hmiss Hn Httl c1 c2.
  assert (E1 : execute_cached_query c t_get t_set hq hp ttl (Done result) =
               (Done result,
                QueryCache.set (QueryCache.get c t_get (_cache_key hq hp)).2
                  t_set (_cache_key hq hp) result (Some ttl))).
  { unfold execute_cached_query.
    destruct (QueryCache.get c t_get (_cache_key hq hp)) as [[r|] c'];
      [discriminate|reflexivity]. }
  split; [rewrite E1; reflexivity|].
  assert (L : c2 !! _cache_key hq hp
              = Some (result, t_set, effective_ttl (Some ttl))).
  { unfold c2. rewrite write_keeps_key by exact Hn.
    unfold c1. rewrite E1. apply set_lookup. }
  unfold execute_cached_query.
  rewrite (get_hit c2 _ _ _ _ t_get' L Httl). reflexivity.
Qed.

End Queries.

(** The rows cached at time 0 are served at time 299, after a write into
    [reservas], although the database would now return other rows. *)
Lemma writes_do_not_invalidate_witness :
  execute_cached_query tras_cancelar 299 299 1234567 (-89) 300 (Done [8]%Z)
  = (Done [7; 8]%Z, tras_cancelar).
Proof.
  apply (writes_do_not_invalidate_cached_queries
           (∅ : QueryCache.t (list Z)) 0 0 299 299 1234567 (-89) 300
           [7; 8]%Z cancelar (Done (Some 0%Z, 1%Z)) (Done [8]%Z)).
  - reflexivity.
  - intros name E. vm_compute in E. injection E as <-. right. reflexivity.
  - reflexivity.
Defined.

(** *** The availability cache *)

(** X8.  Once [verificar_disponibilidad_optimized] has computed an answer, it
    gives the same answer to the same request for the next 300 seconds
    whatever the reservations have become: the cache is keyed by the
    request and nothing that creates or cancels a reservation touches
    it. *)
Theorem cached_availability_outlives_changes
    (c c1 : OptimizedDatabase.QueryCache) (t_get t_set t_get' t_set' : Z)
    (d d' : Database.db) (p_id inicio fin : Sql.value) (b : bool) :
  (OptimizedDatabase.cache_get c t_get
     (OptimizedDatabase.cache_key p_id inicio fin)).1 = None ->
  OptimizedDatabase.verificar_disponibilidad_optimized
    c t_get t_set d p_id inicio fin = Ok (b, c1) ->
  (t_get' - t_set < 300)%Z ->
  OptimizedDatabase.verificar_disponibilidad_optimized
    c1 t_get' t_set' d' p_id inicio fin = Ok (b, c1).
Proof.
  unfold OptimizedDatabase.verificar_disponibilidad_optimized.
  destruct (OptimizedDatabase.cache_get c t_get
              (OptimizedDatabase.cache_key p_id inicio fin)) as [[r|] c'];
    [discriminate|]. intros _.
  destruct (Sql.bind_params _); [|discriminate].
  cbn [mbind result_bind mret result_ret]. intros [= <- <-] H.
  unfold OptimizedDatabase.cache_get, OptimizedDatabase.cache_set.
  rewrite lookup_insert_eq. cbn [Z.eqb].
  destruct (Z.ltb_spec (t_get' - t_set) 300); [reflexivity|lia].
Qed.

(** The request was answered "available" at time 0, when there was no
    reservation; at time 299 the pending reservation 2024-10-10 to
    2024-10-15 is in the table and the cached answer is still given. *)
Lemma cached_availability_witness :
  OptimizedDatabase.verificar_disponibilidad_optimized
    tras_verificar 299 299 DatabaseProps.una_reserva_pendiente
    (Sql.Int 1) (Sql.Text "2024-10-12") (Sql.Text "2024-10-20")
  = Ok (true, tras_verificar) /\
  Database.verificar_disponibilidad DatabaseProps.una_reserva_pendiente
    (Sql.Int 1) (Sql.Text "2024-10-12") (Sql.Text "2024-10-20") = Ok false.
Proof.
  split; [|reflexivity].
  apply (cached_availability_outlives_changes ∅ tras_verificar 0 0 299 299
           sin_reservas DatabaseProps.una_reserva_pendiente).
  - reflexivity.
  - vm_compute. reflexivity.
  - reflexivity.
Defined.

End QueryCacheFacts.
(** ** db/database.py: storing, listing and answering messages *)

Module DatabaseOpsFacts.
Import Sql Database DatabaseOps.
Import SqlProps SqlFacts DatabaseProps DatabaseFacts MensajesProps MensajesFacts.
Import DatabaseOpsProps.

Open Scope Z_scope.

(** *** ORDER BY keeps the rows *)

Lemma insert_desc_In {A : Type} (key : A -> value) (x y : A) (l : list A) :
  In y (insert_desc key x l) <-> y = x \/ In y l.
Proof.
  induction l as [|z t IH]; simpl; [intuition|].
  destruct (sorts_before (key x) (key z)); simpl; rewrite ?IH; intuition.
Qed.

Lemma order_by_desc_In {A : Type} (key : A -> value) (y : A) (l : list A) :
  In y (order_by_desc key l) <-> In y l.
Proof.
  induction l as [|x t IH]; simpl; [tauto|].
  rewrite insert_desc_In, IH. intuition.
Qed.

Lemma order_by_desc_nil {A : Type} (key : A -> value) (l : list A) :
  order_by_desc key l = [] <-> l = [].
Proof.
  split; [|intros ->; reflexivity].
  destruct l as [|x t]; [reflexivity|]. intros H.
  assert (I : In x (order_by_desc key (x :: t))).
  { apply order_by_desc_In. left. reflexivity. }
  rewrite H in I. destruct I.
Qed.

(** *** Fresh keys *)

Lemma fold_max_ge (x : Z) (l : list Z) (y : Z) :
  y = x \/ In y l -> y <= fold_right Z.max x l.
Proof.
  induction l as [|a t IH]; simpl.
  - intros [->|[]]. lia.
  - intros [->|[->|H]]; [specialize (IH (or_introl eq_refl))|
                          |specialize (IH (or_intror H))]; lia.
Qed.

Lemma next_rowid_fresh (l : list Z) (seq id : Z) :
  next_rowid l seq = Done id ->
  (forall y, In y l -> y < id) /\ seq < id.
Proof.
  unfold next_rowid.
  destruct (Z.ltb_spec 9223372036854775807
              match l with [] => 1 | x :: t => fold_right Z.max x t + 1 end);
    [discriminate|].
  destruct (Z.eqb_spec seq 9223372036854775807); [discriminate|].
  cbn [orb]. intros [= <-]. split; [|lia].
  destruct l as [|x t]; [intros y []|].
  intros y Hy. pose proof (fold_max_ge x t y) as G.
  assert (y <= fold_right Z.max x t) by (apply G; destruct Hy; auto).
  lia.
Qed.

(** *** The writers *)

Lemma guardar_unfold (st : estado_db) (timestamp : string)
    (remitente asunto cuerpo : value) :
  guardar_mensaje st timestamp remitente asunto cuerpo =
  if forallb bindable [remitente; asunto; cuerpo] then
    match next_rowid (map mensaje_id (mensajes (tablas st))) (seq_mensajes st) with
    | Done id =>
        Done (id,
              mk_estado
                (mk_db (reservas (tablas st))
                   (mensajes (tablas st) ++
                    [mk_mensaje id (store TEXT remitente) (store TEXT asunto)
                       (store TEXT cuerpo) (store NUMERIC (Text timestamp))
                       (Int 0) Null Null]))
                (seq_reservas st) id)
    | Throws e => Throws e
    end
  else Throws (Builtin OverflowError).
Proof.
  unfold guardar_mensaje, bind_params.
  destruct (forallb bindable [remitente; asunto; cuerpo]); [|reflexivity].
  cbn [lift mbind outcome_bind].
  destruct (next_rowid _ _); reflexivity.
Qed.

Lemma marcado_respondido (resp motivo : value) (m : mensaje) :
  respondido (marcado resp motivo m) = Int 1 /\
  mensaje_id (marcado resp motivo m) = mensaje_id m.
Proof. unfold marcado. destruct (truthy motivo); split; reflexivity. Qed.

Lemma no_respondido_iff (m : mensaje) :
  holds (eq3 (respondido m) (Int 0)) = true <-> respondido m = Int 0.
Proof.
  rewrite holds_eq3. split; [tauto|]. intros ->. split; [reflexivity|discriminate].
Qed.

Lemma In_no_respondidos (d : db) (m : mensaje) :
  In m (obtener_mensajes_no_respondidos d) <->
  In m (mensajes d) /\ respondido m = Int 0.
Proof.
  unfold obtener_mensajes_no_respondidos.
  rewrite order_by_desc_In, filter_In, no_respondido_iff. tauto.
Qed.

Lemma In_requieren_atencion (d : db) (m : mensaje) :
  In m (obtener_mensajes_que_requieren_atencion d) <->
  In m (mensajes d) /\ respondido m = Int 0 /\ motivo_no_respuesta m <> Null.
Proof.
  unfold obtener_mensajes_que_requieren_atencion.
  rewrite order_by_desc_In, filter_In, holds_and3, andb_true_iff, no_respondido_iff.
  destruct (decide (motivo_no_respuesta m = Null)) as [E|E].
  - rewrite (bool_decide_eq_true_2 _ E). simpl. intuition discriminate.
  - rewrite (bool_decide_eq_false_2 _ E). simpl. tauto.
Qed.

Lemma In_update_mensajes (d : db) (m_id : value) (f : mensaje -> mensaje)
    (m : mensaje) :
  In m (mensajes (update_mensajes d m_id f)) <->
  exists m0, In m0 (mensajes d) /\
    m = if holds (eq3 (Int (mensaje_id m0)) (store INTEGER m_id)) then f m0 else m0.
Proof.
  unfold update_mensajes. simpl. rewrite in_map_iff.
  split; intros (m0 & H1 & H2); exists m0; auto.
Qed.

(** *** The life of a message *)

(** X9.  [guardar_mensaje] gives the new message a key larger than every key
    in the table, stores the three texts with [respondido] = 0 and no
    answer, and leaves the other rows alone; the message is then listed
    by [obtener_mensajes_no_respondidos].  Once
    [marcar_mensaje_respondido] is called with that key the message is no
    longer listed, and the other messages are listed as before. *)
Theorem message_lifecycle
    (st st' : estado_db) (timestamp : string) (remitente asunto cuerpo : value)
    (id : Z) :
  guardar_mensaje st timestamp remitente asunto cuerpo = Done (id, st') ->
  let nuevo := mk_mensaje id (store TEXT remitente) (store TEXT asunto)
                 (store TEXT cuerpo) (store NUMERIC (Text timestamp))
                 (Int 0) Null Null in
  (forall m, In m (mensajes (tablas st)) -> mensaje_id m < id) /\
  reservas (tablas st') = reservas (tablas st) /\
  mensajes (tablas st') = mensajes (tablas st) ++ [nuevo] /\
  In nuevo (obtener_mensajes_no_respondidos (tablas st')) /\
  (forall m, mensaje_id m <> id ->
     (In m (obtener_mensajes_no_respondidos (tablas st')) <->
      In m (obtener_mensajes_no_respondidos (tablas st)))) /\
  (forall (resp motivo : value) (d : db),
     marcar_mensaje_respondido (tablas st') (Int id) resp motivo = Ok d ->
     ~ In id (ids (obtener_mensajes_no_respondidos d)) /\
     forall m, mensaje_id m <> id ->
       (In m (obtener_mensajes_no_respondidos d) <->
        In m (obtener_mensajes_no_respondidos (tablas st)))).
Proof.
  rewrite guardar_unfold.
  destruct (forallb bindable [remitente; asunto; cuerpo]); [|discriminate].
  destruct (next_rowid _ _) as [id0|e] eqn:N; [|discriminate].
  intros [= -> <-] nuevo.
  destruct (next_rowid_fresh _ _ _ N) as (Hfresh & _).
  assert (F : forall m, In m (mensajes (tablas st)) -> mensaje_id m < id).
  { intros m Hm. apply Hfresh. apply in_map. exact Hm. }
  assert (L : forall m, mensaje_id m <> id ->
            (In m (obtener_mensajes_no_respondidos
                     (mk_db (reservas (tablas st)) (mensajes (tablas st) ++ [nuevo])))
             <-> In m (obtener_mensajes_no_respondidos (tablas st)))).
  { intros m Hne. rewrite !In_no_respondidos. cbn [mensajes].
    rewrite in_app_iff. simpl. split; [|tauto].
    intros [[H|[<-|[]]] R]; [tauto|]. destruct Hne. reflexivity. }
  cbn [tablas reservas mensajes].
  split; [exact F|]. split; [reflexivity|]. split; [reflexivity|]. split.
  { apply In_no_respondidos. cbn [mensajes]. split; [|reflexivity].
    apply in_app_iff. right. left. reflexivity. }
  split; [exact L|].
  intros resp motivo d. rewrite marcar_unfold.
  destruct (forallb bindable [resp; motivo; Int id]); [|discriminate].
  intros [= <-]. fold (marcado resp motivo).
  assert (S : forall m0, holds (eq3 (Int (mensaje_id m0)) (store INTEGER (Int id)))
                         = true <-> mensaje_id m0 = id).
  { intros m0. rewrite selected_holds. unfold selected. simpl.
    split; [intros [= ->]; reflexivity|intros ->; reflexivity]. }
  split.
  - unfold ids. rewrite in_map_iff. intros (m & Hid & Hm).
    apply In_no_respondidos in Hm. destruct Hm as [Hm R].
    apply In_update_mensajes in Hm. destruct Hm as (m0 & Hm0 & ->).
    destruct (holds (eq3 (Int (mensaje_id m0)) (store INTEGER (Int id)))) eqn:E.
    + destruct (marcado_respondido resp motivo m0) as [R1 _]. congruence.
    + apply (proj2 (S m0)) in Hid. congruence.
  - intros m Hne. rewrite <- (L m Hne). rewrite !In_no_respondidos.
    rewrite In_update_mensajes. split.
    + intros [(m0 & Hm0 & ->) R].
      destruct (holds (eq3 (Int (mensaje_id m0)) (store INTEGER (Int id)))) eqn:E.
      * destruct (marcado_respondido resp motivo m0) as [R1 _]. congruence.
      * tauto.
    + intros [Hm R]. split; [|exact R]. exists m. split; [exact Hm|].
      destruct (holds (eq3 (Int (mensaje_id m)) (store INTEGER (Int id)))) eqn:E;
        [|reflexivity].
      apply S in E. contradiction.
Qed.

(** A first message gets the key 1 and is listed until it is answered. *)
Lemma message_lifecycle_witness :
  exists st',
    guardar_mensaje vacia "2024-10-01 09:00:00" (Text "ana@ejemplo.com")
      (Text "Consulta") (Text "Hola") = Done (1, st') /\
    ids (obtener_mensajes_no_respondidos (tablas st')) = [1] /\
    forall d, marcar_mensaje_respondido (tablas st') (Int 1) (Text "Gracias") Null
              = Ok d ->
              ~ In 1 (ids (obtener_mensajes_no_respondidos d)).
Proof.
  eexists. split; [reflexivity|]. split; [reflexivity|].
  intros d Hd.
  refine (proj1 (proj2 (proj2 (proj2 (proj2 (proj2
            (message_lifecycle vacia _ "2024-10-01 09:00:00"
               (Text "ana@ejemplo.com") (Text "Consulta") (Text "Hola") 1
               eq_refl)))))
            (Text "Gracias") Null d Hd)).
Defined.

(** *** Messages that need attention *)

Lemma aplicar_sin_motivo (st : estado_db) (op : operacion) :
  sin_motivo_pendiente (tablas st) -> sin_motivo_pendiente (tablas (aplicar st op)).
Proof.
  intros I. destruct op as [ts r a c|m_id resp motivo]; simpl.
  - rewrite guardar_unfold.
    destruct (forallb bindable [r; a; c]); [|exact I].
    destruct (next_rowid _ _) as [id|e]; [|exact I].
    intros m. cbn [tablas mensajes]. rewrite in_app_iff. simpl.
    intros [H|[<-|[]]]; [apply I, H|reflexivity].
  - rewrite marcar_unfold.
    destruct (forallb bindable [resp; motivo; m_id]); [|exact I].
    fold (marcado resp motivo). cbn [tablas].
    intros m Hm R. apply In_update_mensajes in Hm.
    destruct Hm as (m0 & Hm0 & ->).
    destruct (holds (eq3 (Int (mensaje_id m0)) (store INTEGER m_id))).
    + destruct (marcado_respondido resp motivo m0) as [R1 _]. congruence.
    + apply I; assumption.
Qed.

Lemma ejecutar_sin_motivo (ops : list operacion) (st : estado_db) :
  sin_motivo_pendiente (tablas st) ->
  sin_motivo_pendiente (tablas (ejecutar ops st)).
Proof.
  revert st. induction ops as [|op ops IH]; intros st I; [exact I|].
  apply (IH (aplicar st op)), aplicar_sin_motivo, I.
Qed.

(** X10.  [obtener_mensajes_que_requieren_atencion] lists the messages with
    [respondido] = 0 and a reason, but the only writer of a reason,
    [marcar_mensaje_respondido], sets [respondido] to 1 in the same
    statement.  So on a database where no unanswered message carries a
    reason (an empty one, say) and whatever messages are then stored and
    marked, the list is empty: a message marked "needs manual review"
    never shows up in it. *)
Theorem attention_list_stays_empty (ops : list operacion) (st : estado_db) :
  sin_motivo_pendiente (tablas st) ->
  obtener_mensajes_que_requieren_atencion (tablas (ejecutar ops st)) = [].
Proof.
  intros I. pose proof (ejecutar_sin_motivo ops st I) as J.
  destruct (obtener_mensajes_que_requieren_atencion (tablas (ejecutar ops st)))
    as [|m l] eqn:E; [reflexivity|].
  assert (Hm : In m (obtener_mensajes_que_requieren_atencion
                       (tablas (ejecutar ops st)))).
  { rewrite E. left. reflexivity. }
  apply In_requieren_atencion in Hm. destruct Hm as (Hm & R & M).
  destruct M. apply J; assumption.
Qed.

Lemma attention_list_witness :
  obtener_mensajes_que_requieren_atencion (tablas (ejecutar revision_manual vacia))
  = [] /\
  map motivo_no_respuesta (mensajes (tablas (ejecutar revision_manual vacia)))
  = [Text "sin fechas"].
Proof.
  split; [|reflexivity].
  apply (attention_list_stays_empty revision_manual vacia).
  intros m [].
Defined.

(** *** Reservations *)

Lemma crear_unfold (st : estado_db)
    (p_id inicio fin huesped correo telefono estado : value) :
  crear_reserva_con_detalles st p_id inicio fin huesped correo telefono estado =
  if forallb bindable [p_id; inicio; fin; huesped; correo; telefono; estado] then
    match next_rowid (map reserva_id (reservas (tablas st))) (seq_reservas st) with
    | Done id =>
        match inicio, fin, huesped with
        | Null, _, _ =>
            Throws (IntegrityError "NOT NULL constraint failed: reservas.fecha_inicio")
        | _, Null, _ =>
            Throws (IntegrityError "NOT NULL constraint failed: reservas.fecha_fin")
        | _, _, Null =>
            Throws (IntegrityError "NOT NULL constraint failed: reservas.huesped")
        | _, _, _ =>
            Done (id,
                  mk_estado
                    (mk_db (reservas (tablas st) ++
                            [mk_reserva id (store INTEGER p_id)
                               (store NUMERIC inicio) (store NUMERIC fin)
                               (store TEXT huesped) (store TEXT correo)
                               (store TEXT telefono) (store TEXT estado)])
                           (mensajes (tablas st)))
                    id (seq_mensajes st))
        end
    | Throws e => Throws e
    end
  else Throws (Builtin OverflowError).
Proof.
  unfold crear_reserva_con_detalles, bind_params. cbn [forallb].
  destruct (bindable p_id); cbn [andb lift mbind outcome_bind]; [|reflexivity].
  destruct (bindable inicio && _); cbn [lift mbind outcome_bind]; [|reflexivity].
  destruct (next_rowid _ _) as [id|e]; [|reflexivity].
  destruct inicio, fin, huesped; reflexivity.
Qed.

(** X11.  Take a property id and two dates that SQLite stores as they are
    given or as the integers they spell (not texts that spell real
    numbers).  [crear_reserva_con_detalles] appends the reservation under
    a key larger than every key in the table and touches nothing else.
    Whether it succeeds, and with which key, depends on the keys already
    given and on the arguments only: the availability of the dates plays
    no part.  Afterwards, when the status stored is 'confirmada' or
    'pendiente' and the property is given, [verificar_disponibilidad]
    answers [False] for that property and every request, made of such
    parameters, that shares a day with the new reservation. *)
Theorem created_reservation_blocks_its_dates
    (st st' : estado_db)
    (p_id inicio fin huesped correo telefono estado : value) (id : Z) :
  exact INTEGER p_id = true ->
  exact NUMERIC inicio = true ->
  exact NUMERIC fin = true ->
  crear_reserva_con_detalles st p_id inicio fin huesped correo telefono estado
  = Done (id, st') ->
  let nueva := mk_reserva id (store INTEGER p_id) (store NUMERIC inicio)
                 (store NUMERIC fin) (store TEXT huesped) (store TEXT correo)
                 (store TEXT telefono) (store TEXT estado) in
  reservas (tablas st') = reservas (tablas st) ++ [nueva] /\
  mensajes (tablas st') = mensajes (tablas st) /\
  (forall r, In r (reservas (tablas st)) -> reserva_id r < id) /\
  (forall st0 : estado_db,
     map reserva_id (reservas (tablas st0)) = map reserva_id (reservas (tablas st)) ->
     seq_reservas st0 = seq_reservas st ->
     exists st0',
       crear_reserva_con_detalles st0 p_id inicio fin huesped correo telefono estado
       = Done (id, st0')) /\
  (activa nueva -> p_id <> Null ->
   forall p_id' inicio' fin' : value,
     exact INTEGER p_id' = true ->
     exact NUMERIC inicio' = true ->
     exact NUMERIC fin' = true ->
     forallb bindable [p_id'; inicio'; fin'] = true ->
     store INTEGER p_id' = store INTEGER p_id ->
     vle (store NUMERIC inicio') (store NUMERIC fin) ->
     vle (store NUMERIC inicio) (store NUMERIC fin') ->
     verificar_disponibilidad (tablas st') p_id' inicio' fin' = Ok false).
Proof.
  intros _ _ _. rewrite crear_unfold.
  destruct (forallb bindable _) eqn:B; [|discriminate].
  destruct (next_rowid _ _) as [id0|e] eqn:N; [|discriminate].
  intros H nueva.
  assert (E : id0 = id /\
              st' = mk_estado (mk_db (reservas (tablas st) ++ [nueva])
                                     (mensajes (tablas st)))
                              id (seq_mensajes st) /\
              inicio <> Null /\ fin <> Null /\ huesped <> Null).
  { destruct inicio, fin, huesped; try discriminate H;
      injection H as -> <-; repeat split; discriminate. }
  destruct E as (-> & -> & Hi & Hf & Hh). clear H.
  cbn [tablas reservas mensajes].
  split; [reflexivity|]. split; [reflexivity|]. split.
  { intros r Hr. destruct (next_rowid_fresh _ _ _ N) as [F _].
    apply F. apply in_map. exact Hr. }
  split.
  { intros st0 Hids Hseq. rewrite crear_unfold, B, Hids, Hseq, N.
    destruct inicio, fin, huesped; try contradiction; eexists; reflexivity. }
  intros Ha Hp p_id' inicio' fin' _ _ _ B' Ep H1 H2.
  rewrite verificar_disponibilidad_unfold, B'. f_equal.
  destruct (length _ =? 0)%nat eqn:L; [|reflexivity].
  pose proof (proj1 (filter_nil_iff _ _) L nueva) as C.
  cbn [reservas] in C. rewrite in_app_iff in C.
  specialize (C (or_intror (or_introl eq_refl))).
  assert (T : holds (conflicto p_id' inicio' fin' nueva) = true).
  { apply conflicto_iff. split; [|split; [exact Ha|]].
    - unfold de_propiedad.
      change (propiedad_id nueva) with (store INTEGER p_id).
      split; [symmetry; exact Ep|].
      destruct p_id as [|n|s]; [contradiction|discriminate|].
      simpl. destruct (classify s); discriminate.
    - apply solapa_inclusive.
      change (fecha_fin nueva) with (store NUMERIC fin).
      change (fecha_inicio nueva) with (store NUMERIC inicio). tauto. }
  congruence.
Qed.

(** The stay 2024-10-10 to 2024-10-15 is booked on an empty database;
    the request 2024-10-12 to 2024-10-20 is then refused, and the same
    stay can be booked a second time. *)
Lemma created_reservation_witness :
  exists st' st'',
    crear_reserva_con_detalles vacia (Int 1) (Text "2024-10-10")
      (Text "2024-10-15") (Text "Maria") Null Null (Text "confirmada")
    = Done (1, st') /\
    verificar_disponibilidad (tablas st') (Int 1) (Text "2024-10-12")
      (Text "2024-10-20") = Ok false /\
    crear_reserva_con_detalles st' (Int 1) (Text "2024-10-10")
      (Text "2024-10-15") (Text "Maria") Null Null (Text "confirmada")
    = Done (2, st'').
Proof.
  eexists. eexists. split; [reflexivity|]. split; [|reflexivity].
  refine (proj2 (proj2 (proj2 (proj2
            (created_reservation_blocks_its_dates vacia _ (Int 1)
               (Text "2024-10-10") (Text "2024-10-15") (Text "Maria") Null Null
               (Text "confirmada") 1 eq_refl eq_refl eq_refl eq_refl))))
            _ _ (Int 1) (Text "2024-10-12") (Text "2024-10-20")
            eq_refl eq_refl eq_refl eq_refl eq_refl _ _).
  - left. reflexivity.
  - discriminate.
  - left. reflexivity.
  - left. reflexivity.
Defined.

(** *** The order of the rows *)

Lemma sorts_before_irrefl (a : value) : sorts_before a a = false.
Proof.
  destruct a as [|x|s]; cbn; [reflexivity| |].
  - rewrite Z.compare_refl. reflexivity.
  - replace (String.compare s s) with Eq; [reflexivity|].
    symmetry. apply String_as_OT.cmp_eq. reflexivity.
Qed.

Lemma sorts_before_asym (a b : value) :
  sorts_before a b = true -> sorts_before b a = false.
Proof.
  destruct a as [|x|s], b as [|y|t]; cbn; try congruence.
  - destruct (x ?= y) eqn:E; try discriminate. intros _.
    rewrite Z.compare_antisym, E. reflexivity.
  - destruct (String.compare s t) eqn:E; try discriminate. intros _.
    rewrite String.compare_antisym, E. reflexivity.
Qed.

Lemma sorts_before_text (s t : string) :
  sorts_before (Text s) (Text t) = true <-> String_as_OT.lt s t.
Proof.
  rewrite <- String_as_OT.cmp_lt. unfold String_as_OT.cmp. cbn.
  destruct (String.compare s t); split; congruence.
Qed.

Lemma sorts_before_trans (a b c : value) :
  sorts_before a b = true -> sorts_before b c = true ->
  sorts_before a c = true.
Proof.
  destruct a as [|x|s], b as [|y|t], c as [|z|w];
    try (cbn; congruence).
  - cbn. destruct (x ?= y) eqn:E1; try discriminate.
    destruct (y ?= z) eqn:E2; try discriminate. intros _ _.
    rewrite Z.compare_lt_iff in *.
    replace (x ?= z) with Lt; [reflexivity|].
    symmetry. apply Z.compare_lt_iff. lia.
  - rewrite !sorts_before_text. apply String_as_OT.lt_trans.
Qed.

Lemma sorts_before_total (a b : value) :
  sorts_before a b = false -> sorts_before b a = false -> a = b.
Proof.
  destruct a as [|x|s], b as [|y|t]; cbn; try congruence.
  - destruct (x ?= y) eqn:E; try discriminate.
    + apply Z.compare_eq in E. congruence.
    + rewrite Z.compare_antisym, E. discriminate.
  - destruct (String.compare s t) eqn:E; try discriminate.
    + apply String.compare_eq_iff in E. congruence.
    + rewrite String.compare_antisym, E. discriminate.
Qed.

Lemma sorts_before_neg_trans (a b c : value) :
  sorts_before a b = false -> sorts_before b c = false ->
  sorts_before a c = false.
Proof.
  intros H1 H2. destruct (sorts_before a c) eqn:E; [|reflexivity].
  destruct (sorts_before b a) eqn:E3.
  - rewrite (sorts_before_trans b a c E3 E) in H2. discriminate.
  - rewrite (sorts_before_total a b H1 E3) in E. congruence.
Qed.

Lemma order_by_desc_head {A : Type} (key : A -> value) (l : list A) (h : A) :
  head (order_by_desc key l) = Some h ->
  In h l /\ forall y, In y l -> sorts_before (key h) (key y) = false.
Proof.
  revert h. induction l as [|x t IH]; [discriminate|].
  intros h.
  change (order_by_desc key (x :: t))
    with (insert_desc key x (order_by_desc key t)).
  destruct (order_by_desc key t) as [|h' rest] eqn:E.
  - apply order_by_desc_nil in E. subst t. cbn. intros [= <-].
    split; [auto|]. intros y [<- | []]. apply sorts_before_irrefl.
  - destruct (IH h' eq_refl) as [I T]. cbn [insert_desc].
    destruct (sorts_before (key x) (key h')) eqn:S1; cbn; intros [= <-].
    + split; [auto|]. intros y [<- | Hy]; [|auto].
      apply sorts_before_asym. exact S1.
    + split; [auto|]. intros y [<- | Hy]; [apply sorts_before_irrefl|].
      eapply sorts_before_neg_trans; [exact S1|auto].
Qed.

(** X12.  The last answer of the system.  [obtener_ultima_respuesta_sistema]
    returns nothing exactly when no message has an answer.  Otherwise
    it returns an answered message that was received last: no answered
    message has a later [fecha_recibido].  The time at which an answer
    was given plays no part. *)
Theorem last_answer_by_reception (d : db) :
  (obtener_ultima_respuesta_sistema d = None <->
   forall m, In m (mensajes d) -> respuesta m = Null)
  /\ (forall m, obtener_ultima_respuesta_sistema d = Some m ->
        In m (mensajes d) /\ respuesta m <> Null
        /\ forall m', In m' (mensajes d) -> respuesta m' <> Null ->
             sorts_before (fecha_recibido m) (fecha_recibido m') = false).
Proof.
  unfold obtener_ultima_respuesta_sistema.
  set (answered := List.filter _ (mensajes d)).
  assert (A : forall m, In m answered <-> In m (mensajes d) /\ respuesta m <> Null).
  { intros m. unfold answered. rewrite filter_In, negb_true_iff.
    rewrite bool_decide_eq_false. tauto. }
  split.
  - split.
    + intros H m I.
      destruct (decide (respuesta m = Null)) as [|N]; [assumption|].
      assert (E : order_by_desc fecha_recibido answered = []).
      { destruct (order_by_desc fecha_recibido answered); [reflexivity|discriminate]. }
      apply order_by_desc_nil in E.
      assert (Im : In m answered) by (apply A; auto).
      rewrite E in Im. destruct Im.
    + intros H.
      assert (E : answered = []).
      { destruct answered as [|m t] eqn:E'; [reflexivity|].
        assert (Im : In m (m :: t)) by (left; reflexivity).
        apply A in Im. destruct Im as [I N]. elim N. auto. }
      rewrite E. reflexivity.
  - intros m H. apply order_by_desc_head in H. destruct H as [I T].
    apply A in I. destruct I as [I N].
    split; [exact I|]. split; [exact N|].
    intros m' I' N'. apply T. apply A. auto.
Qed.

End DatabaseOpsFacts.
(** ** utils/conversation_tracker.py: the file-backed store *)

Module TrackerFacts.
Import Tracker TrackerProps.

Open Scope Z_scope.

Section Store.

Context {V : Type}.

Implicit Types (file cs : conversations V) (conv : conversation V).

Lemma cleanup_lookup (now : Z) cs (k : string) :
  _cleanup_old_conversations now cs !! k =
  match cs !! k with
  | Some conv => if caducada now conv then None else Some conv
  | None => None
  end.
Proof.
  unfold _cleanup_old_conversations, caducada. rewrite map_lookup_filter.
  destruct (cs !! k) as [conv|]; [|reflexivity]. simpl.
  destruct (created_at conv <? now - hours_48); reflexivity.
Qed.

Lemma cleanup_kept (now : Z) cs (k : string) conv :
  _cleanup_old_conversations now cs !! k = Some conv ->
  now - hours_48 <= created_at conv.
Proof.
  rewrite cleanup_lookup. destruct (cs !! k) as [conv'|]; [|discriminate].
  unfold caducada. destruct (Z.ltb_spec (created_at conv') (now - hours_48));
    [discriminate|]. intros [= <-]. assumption.
Qed.

Lemma get_conversation_stored file (t1 t2 : Z) (k : string) conv :
  file !! k = Some conv -> get_conversation file t1 t2 k = conv.
Proof. unfold get_conversation. intros ->. reflexivity. Qed.

Lemma get_conversation_new file (t1 t2 : Z) (k : string) :
  file !! k = None ->
  get_conversation file t1 t2 k = _create_empty_conversation t1 t2 k.
Proof. unfold get_conversation. intros ->. reflexivity. Qed.

(** the dictionary of [update_conversation_data] before it is saved *)
Lemma updated_lookup file (t1 t2 t3 : Z) (k : string) (dd : gmap string V) :
  let previous := get_conversation file t1 t2 k in
  alter (fun c => mk_conversation (id c) (created_at c) t3 (state c)
                    (dd ∪ data c) (messages c)) k
        (match file !! k with
         | Some _ => file
         | None => <[k := _create_empty_conversation t1 t2 k]> file
         end) !! k
  = Some (mk_conversation (id previous) (created_at previous) t3
            (state previous) (dd ∪ data previous) (messages previous)).
Proof.
  intros previous. rewrite lookup_alter_eq. unfold previous, get_conversation.
  destruct (file !! k) as [conv|] eqn:E.
  - rewrite E. reflexivity.
  - rewrite lookup_insert_eq. reflexivity.
Qed.

Lemma updated_lookup_ne file (t1 t2 t3 : Z) (k k' : string) (dd : gmap string V) :
  k' <> k ->
  alter (fun c => mk_conversation (id c) (created_at c) t3 (state c)
                    (dd ∪ data c) (messages c)) k
        (match file !! k with
         | Some _ => file
         | None => <[k := _create_empty_conversation t1 t2 k]> file
         end) !! k'
  = file !! k'.
Proof.
  intros Hne. rewrite lookup_alter_ne by congruence.
  destruct (file !! k); [reflexivity|]. apply lookup_insert_ne. congruence.
Qed.

Lemma update_lookup file (t1 t2 t3 t4 : Z) (k : string) (dd : gmap string V) :
  let previous := get_conversation file t1 t2 k in
  (update_conversation_data file t1 t2 t3 t4 k dd).2 !! k =
  if caducada t4 previous then None
  else Some (mk_conversation (id previous) (created_at previous) t3
               (state previous) (dd ∪ data previous) (messages previous)).
Proof.
  intros previous.
  unfold update_conversation_data, _save_conversations. cbn [snd].
  rewrite cleanup_lookup, updated_lookup. reflexivity.
Qed.

Lemma update_outcome file (t1 t2 t3 t4 : Z) (k : string) (dd : gmap string V) :
  (update_conversation_data file t1 t2 t3 t4 k dd).1 =
  match (update_conversation_data file t1 t2 t3 t4 k dd).2 !! k with
  | Some c => Done (data c)
  | None => Throws (KeyError k)
  end.
Proof. reflexivity. Qed.

(** X13.  [update_conversation_data] merges [data_dict] into the data of the
    conversation (a new one when the id is unknown): its keys take the
    given values and the other keys keep theirs.  The result is
    returned, written to the file and read back by
    [get_conversation_data].  But the save first drops every
    conversation created more than 48 hours before: when the updated
    conversation is itself that old, it is dropped with the data just
    merged, and the function raises [KeyError] on its last line.  No
    other conversation is changed, and none older than 48 hours is left
    in the file. *)
Theorem update_conversation_data_merges
    file (t1 t2 t3 t4 : Z) (conversation_id : string)
    (data_dict : gmap string V) :
  let previous := get_conversation file t1 t2 conversation_id in
  let merged := data_dict ∪ data previous in
  let outcome := (update_conversation_data file t1 t2 t3 t4
                    conversation_id data_dict).1 in
  let file' := (update_conversation_data file t1 t2 t3 t4
                  conversation_id data_dict).2 in
  (forall field v, data_dict !! field = Some v -> merged !! field = Some v) /\
  (forall field, data_dict !! field = None ->
                 merged !! field = data previous !! field) /\
  (caducada t4 previous = false ->
   outcome = Done merged /\
   file' !! conversation_id
   = Some (mk_conversation (id previous) (created_at previous) t3
             (state previous) merged (messages previous)) /\
   forall t1' t2', get_conversation_data file' t1' t2' conversation_id = merged) /\
  (caducada t4 previous = true ->
   outcome = Throws (KeyError conversation_id) /\
   file' !! conversation_id = None) /\
  (forall k, k <> conversation_id ->
     file' !! k = match file !! k with
                  | Some conv => if caducada t4 conv then None else Some conv
                  | None => None
                  end) /\
  (forall k conv, file' !! k = Some conv -> t4 - hours_48 <= created_at conv).
Proof.
  intros previous merged outcome file'.
  pose proof (update_lookup file t1 t2 t3 t4 conversation_id data_dict) as L.
  pose proof (update_outcome file t1 t2 t3 t4 conversation_id data_dict) as O.
  cbv zeta in L. fold previous merged file' in L. fold outcome file' in O.
  split; [|split; [|split; [|split; [|split]]]].
  - intros field v H. unfold merged. apply lookup_union_Some_l. exact H.
  - intros field H. unfold merged. apply lookup_union_r. exact H.
  - intros F. rewrite F in L. rewrite O, L. split; [reflexivity|].
    split; [reflexivity|]. intros t1' t2'.
    unfold get_conversation_data. rewrite (get_conversation_stored _ _ _ _ _ L).
    reflexivity.
  - intros F. rewrite F in L. rewrite O, L. split; reflexivity.
  - intros k Hne. unfold file', update_conversation_data, _save_conversations.
    cbn [snd]. rewrite cleanup_lookup, updated_lookup_ne by exact Hne.
    reflexivity.
  - intros k conv. unfold file', update_conversation_data, _save_conversations.
    cbn [snd]. apply cleanup_kept.
Qed.

Lemma missing_iff file (t1 t2 : Z) (k field : string) :
  In field (get_missing_reservation_fields file t1 t2 k) <->
  In field required /\ get_conversation_data file t1 t2 k !! field = None.
Proof.
  unfold get_missing_reservation_fields. rewrite filter_In, negb_true_iff.
  rewrite bool_decide_eq_false, <- eq_None_not_Some. tauto.
Qed.

(** X14.  The two readers agree: [has_complete_reservation_data] answers
    [True] exactly when [get_missing_reservation_fields] returns no
    field.  A field is missing when its key is absent from the data, so a
    key recorded with any value, even an empty one, counts as present; an
    unknown conversation misses the four fields. After a successful
    [update_conversation_data] the fields still missing are those that
    were missing and are not keys of [data_dict]. *)
Theorem tracker_missing_fields file (t1 t2 : Z) (conversation_id : string) :
  (has_complete_reservation_data file t1 t2 conversation_id = true <->
   get_missing_reservation_fields file t1 t2 conversation_id = []) /\
  (forall field,
     In field (get_missing_reservation_fields file t1 t2 conversation_id) <->
     In field ["property_id"; "check_in"; "check_out"; "guest_name"]%string /\
     get_conversation_data file t1 t2 conversation_id !! field = None) /\
  (file !! conversation_id = None ->
   get_missing_reservation_fields file t1 t2 conversation_id
   = ["property_id"; "check_in"; "check_out"; "guest_name"]%string) /\
  (forall (t3 t4 t1' t2' : Z) (data_dict merged : gmap string V),
     (update_conversation_data file t1 t2 t3 t4 conversation_id data_dict).1
     = Done merged ->
     forall field,
       In field (get_missing_reservation_fields
                   (update_conversation_data file t1 t2 t3 t4
                      conversation_id data_dict).2 t1' t2' conversation_id) <->
       In field (get_missing_reservation_fields file t1 t2 conversation_id) /\
       data_dict !! field = None).
Proof.
  split; [|split; [|split]].
  - unfold has_complete_reservation_data, get_missing_reservation_fields.
    induction required as [|f l IH]; simpl; [tauto|].
    destruct (bool_decide (is_Some _)); simpl; [exact IH|].
    split; discriminate.
  - intros field. apply missing_iff.
  - intros E. unfold get_missing_reservation_fields, get_conversation_data.
    rewrite (get_conversation_new _ _ _ _ E). reflexivity.
  - intros t3 t4 t1' t2' data_dict merged H field.
    pose proof (update_lookup file t1 t2 t3 t4 conversation_id data_dict) as L.
    rewrite update_outcome in H. cbv zeta in L.
    destruct (caducada t4 (get_conversation file t1 t2 conversation_id));
      rewrite L in H; [discriminate|].
    rewrite !missing_iff. unfold get_conversation_data at 1.
    rewrite (get_conversation_stored _ _ _ _ _ L). cbn [data].
    rewrite lookup_union_None. unfold get_conversation_data. tauto.
Qed.

(** X15.  [set_conversation_state] does nothing for an id the file does not
    hold: no conversation is created.  For a stored conversation the
    state is replaced and read back by [get_conversation_state], the data
    being kept, unless the conversation is older than 48 hours: the save
    then drops it, and its state reads 'new' again. *)
Theorem set_conversation_state_spec
    file (t1 t2 t3 t4 : Z) (conversation_id new_state : string) :
  let file' := set_conversation_state file t3 t4 conversation_id new_state in
  (file !! conversation_id = None ->
   file' = file /\
   get_conversation_state file' t1 t2 conversation_id = "new"%string) /\
  (forall conv, file !! conversation_id = Some conv ->
     if caducada t4 conv then
       file' !! conversation_id = None /\
       get_conversation_state file' t1 t2 conversation_id = "new"%string
     else
       get_conversation_state file' t1 t2 conversation_id = new_state /\
       get_conversation_data file' t1 t2 conversation_id = data conv /\
       created_at (get_conversation file' t1 t2 conversation_id)
       = created_at conv).
Proof.
  intros file'. split.
  - intros E. unfold file', set_conversation_state. rewrite E.
    split; [reflexivity|]. unfold get_conversation_state.
    rewrite (get_conversation_new _ _ _ _ E). reflexivity.
  - intros conv E.
    assert (L : file' !! conversation_id =
                if caducada t4 conv then None
                else Some (mk_conversation (id conv) (created_at conv) t3
                             new_state (data conv) (messages conv))).
    { unfold file', set_conversation_state, _save_conversations. rewrite E.
      rewrite cleanup_lookup, lookup_insert_eq. reflexivity. }
    destruct (caducada t4 conv).
    + split; [exact L|]. unfold get_conversation_state.
      rewrite (get_conversation_new _ _ _ _ L). reflexivity.
    + unfold get_conversation_state, get_conversation_data.
      rewrite (get_conversation_stored _ _ _ _ _ L). auto.
Qed.

End Store.

End TrackerFacts.
(** ** utils/memory_optimizer.py: [MemoryEfficientList] *)

Module MemoryEfficientListFacts.
Import MemoryEfficientList MemoryEfficientListProps.

Open Scope Z_scope.

Section List.

Context {A : Type}.
Variable data : list A.
Variable chunk_size : Z.
Hypothesis chunk_size_positive : 0 < chunk_size.

Implicit Types (l : @t A) (index k : Z).

(** *** Chunks *)

Lemma chunk_length k :
  0 <= k ->
  Z.of_nat (length (slice data (k * chunk_size) (k * chunk_size + chunk_size)))
  = Z.max 0 (Z.min (k * chunk_size + chunk_size) (Z.of_nat (length data))
             - k * chunk_size).
Proof.
  intros Hk.
  assert (0 <= k * chunk_size) by (apply Z.mul_nonneg_nonneg; lia).
  unfold slice, clamp. rewrite length_firstn, length_skipn.
  destruct (Z.ltb_spec (k * chunk_size) 0); [lia|].
  destruct (Z.ltb_spec (k * chunk_size + chunk_size) 0); [lia|]. lia.
Qed.

Lemma chunk_item k (r : Z) :
  0 <= k -> 0 <= r < chunk_size ->
  k * chunk_size + r < Z.of_nat (length data) ->
  nth_error (slice data (k * chunk_size) (k * chunk_size + chunk_size))
            (Z.to_nat r)
  = nth_error data (Z.to_nat (k * chunk_size + r)).
Proof.
  intros Hk Hr Hn.
  assert (0 <= k * chunk_size) by (apply Z.mul_nonneg_nonneg; lia).
  unfold slice, clamp.
  destruct (Z.ltb_spec (k * chunk_size) 0); [lia|].
  destruct (Z.ltb_spec (k * chunk_size + chunk_size) 0); [lia|].
  rewrite nth_error_firstn, nth_error_skipn.
  destruct (Nat.ltb_spec (Z.to_nat r)
              (Z.to_nat (Z.min (k * chunk_size + chunk_size) (Z.of_nat (length data))
                         - Z.min (k * chunk_size) (Z.of_nat (length data)))));
    [|lia].
  f_equal. lia.
Qed.

Lemma last_chunk_empty :
  slice data (-1 * chunk_size) (-1 * chunk_size + chunk_size) = [].
Proof.
  unfold slice, clamp. replace (-1 * chunk_size + chunk_size) with 0 by lia.
  destruct (Z.ltb_spec (-1 * chunk_size) 0); [|lia]. rewrite Z.ltb_irrefl.
  match goal with
  | |- firstn ?a _ = _ => replace a with 0%nat by lia
  end.
  reflexivity.
Qed.

(** *** One access *)

Lemma load_lookup l k :
  coherent data chunk_size l ->
  exists l',
    (match _chunks l !! k with Some _ => l | None => _load_chunk data chunk_size l k end)
    = l' /\
    coherent data chunk_size l' /\
    _chunks l' !! k
    = Some (slice data (k * chunk_size) (k * chunk_size + chunk_size)) /\
    _total_size l' = _total_size l.
Proof.
  intros C. destruct (_chunks l !! k) as [chunk|] eqn:E.
  - exists l. rewrite E, (C k chunk E). auto.
  - eexists. split; [reflexivity|]. unfold _load_chunk. rewrite E. cbn.
    split; [|split; [apply lookup_insert_eq|reflexivity]].
    intros k' chunk'. cbn. destruct (decide (k' = k)) as [->|Hne].
    + rewrite lookup_insert_eq. intros [= <-]. reflexivity.
    + rewrite lookup_insert_ne by congruence.
      destruct (10 <? Z.of_nat (size (_chunks l))); [|apply C].
      destruct (oldest_chunk (_chunks l)) as [o|]; [|apply C].
      intros H. apply (C k'). apply lookup_delete_Some in H. tauto.
Qed.

Lemma getitem_spec l index :
  coherent data chunk_size l ->
  coherent data chunk_size (access data chunk_size l index) /\
  _total_size (access data chunk_size l index) = _total_size l /\
  (__getitem__ data chunk_size l index).1 =
  let chunk := slice data (index / chunk_size * chunk_size)
                     (index / chunk_size * chunk_size + chunk_size) in
  if index mod chunk_size <? Z.of_nat (length chunk)
  then item chunk (index mod chunk_size)
  else Throws IndexError.
Proof.
  intros C. unfold access, __getitem__.
  destruct (Z.eqb_spec chunk_size 0); [lia|].
  destruct (load_lookup l (index / chunk_size) C) as (l' & -> & C' & L & T).
  rewrite L. cbv zeta.
  destruct (index mod chunk_size <? _); auto.
Qed.

Lemma run_coherent (indexes : list Z) l :
  coherent data chunk_size l ->
  coherent data chunk_size (run data chunk_size indexes l) /\
  _total_size (run data chunk_size indexes l) = _total_size l.
Proof.
  revert l. induction indexes as [|i rest IH]; intros l C; [auto|].
  destruct (getitem_spec l i C) as (C' & T & _).
  destruct (IH _ C') as [C'' T']. unfold run in *. simpl. split; [exact C''|].
  congruence.
Qed.

Lemma new_coherent : coherent data chunk_size new.
Proof. intros k chunk. unfold new. cbn. rewrite lookup_empty. discriminate. Qed.

(** X16.  With a positive chunk size and whatever was read before, an index
    from 0 up to the length of the data gives the item the data holds
    there, and an index from the length on raises [IndexError].  Unlike a
    Python list, the last [chunk_size] items cannot be reached by a
    negative index: [-chunk_size .. -1] raise [IndexError] too.  [len]
    is the length of the data. *)
Theorem memory_efficient_list_index (indexes : list Z) (index : Z) :
  let l := run data chunk_size indexes new in
  (0 <= index < Z.of_nat (length data) ->
   exists x, nth_error data (Z.to_nat index) = Some x /\
             (__getitem__ data chunk_size l index).1 = Done x) /\
  (Z.of_nat (length data) <= index ->
   (__getitem__ data chunk_size l index).1 = Throws IndexError) /\
  (- chunk_size <= index < 0 ->
   (__getitem__ data chunk_size l index).1 = Throws IndexError) /\
  (__len__ data l).1 = Z.of_nat (length data).
Proof.
  intros l. destruct (run_coherent indexes new new_coherent) as [C T].
  fold l in C, T. destruct (getitem_spec l index C) as (_ & _ & G).
  cbv zeta in G. rewrite G. clear G.
  pose proof (Z.div_mod index chunk_size ltac:(lia)) as DM.
  pose proof (Z.mod_pos_bound index chunk_size chunk_size_positive) as MB.
  split; [|split; [|split]].
  - intros Hi.
    assert (Hk : 0 <= index / chunk_size) by (apply Z.div_pos; lia).
    destruct (nth_error data (Z.to_nat index)) as [x|] eqn:E;
      [|apply nth_error_None in E; lia].
    exists x. split; [reflexivity|].
    rewrite chunk_length by exact Hk.
    destruct (Z.ltb_spec (index mod chunk_size)
                (Z.max 0 (Z.min (index / chunk_size * chunk_size + chunk_size)
                            (Z.of_nat (length data))
                          - index / chunk_size * chunk_size))); [|lia].
    unfold item. rewrite chunk_length by exact Hk.
    destruct (Z.ltb_spec (index mod chunk_size) 0); [lia|].
    destruct (Z.leb_spec 0 (index mod chunk_size)); [|lia].
    destruct (Z.ltb_spec (index mod chunk_size)
                (Z.max 0 (Z.min (index / chunk_size * chunk_size + chunk_size)
                            (Z.of_nat (length data))
                          - index / chunk_size * chunk_size))); [|lia].
    cbn [andb]. rewrite chunk_item by lia.
    replace (index / chunk_size * chunk_size + index mod chunk_size)
      with index by lia.
    rewrite E. reflexivity.
  - intros Hi.
    assert (Hk : 0 <= index / chunk_size) by (apply Z.div_pos; lia).
    rewrite chunk_length by exact Hk.
    destruct (Z.ltb_spec (index mod chunk_size)
                (Z.max 0 (Z.min (index / chunk_size * chunk_size + chunk_size)
                            (Z.of_nat (length data))
                          - index / chunk_size * chunk_size))); [lia|reflexivity].
  - intros Hi.
    assert (Hk : index / chunk_size = -1).
    { symmetry. apply (Z.div_unique index chunk_size (-1) (index + chunk_size)); lia. }
    rewrite Hk, last_chunk_empty. simpl length.
    destruct (Z.ltb_spec (index mod chunk_size) (Z.of_nat 0)); [lia|reflexivity].
  - unfold __len__. rewrite T. reflexivity.
Qed.

End List.

(** Items 3 of five, in chunks of two, after two other reads. *)
Lemma memory_efficient_list_witness :
  exists x, nth_error [10; 20; 30; 40; 50] (Z.to_nat 3) = Some x /\
            (__getitem__ [10; 20; 30; 40; 50] 2
               (run [10; 20; 30; 40; 50] 2 [4; 0] new) 3).1 = Done x.
Proof.
  apply (memory_efficient_list_index [10; 20; 30; 40; 50] 2 ltac:(lia) [4; 0] 3).
  simpl. lia.
Defined.

(** *** The chunks kept *)

Section Chunks.

Context {A : Type}.
Variable data : list A.
Variable chunk_size : Z.

Lemma fold_min_In (k : Z) (ks : list Z) : In (fold_right Z.min k ks) (k :: ks).
Proof.
  induction ks as [|a t IH]; simpl; [auto|].
  destruct (Z.min_spec a (fold_right Z.min k t)) as [[_ ->]|[_ ->]]; [auto|].
  destruct IH as [H|H]; auto.
Qed.

Lemma oldest_chunk_held (chunks : gmap Z (list A)) (k : Z) :
  oldest_chunk chunks = Some k -> is_Some (chunks !! k).
Proof.
  unfold oldest_chunk. destruct ((map_to_list chunks).*1) as [|k0 ks] eqn:E;
    [discriminate|]. intros [= <-].
  pose proof (fold_min_In k0 ks) as H. rewrite <- E in H.
  apply in_map_iff in H. destruct H as ([k v] & Hk & Hin). simpl in Hk.
  exists v. apply elem_of_map_to_list. apply list_elem_of_In. rewrite <- Hk.
  exact Hin.
Qed.

Lemma oldest_chunk_some (chunks : gmap Z (list A)) :
  size chunks <> 0%nat -> exists k, oldest_chunk chunks = Some k.
Proof.
  intros H. unfold oldest_chunk.
  destruct ((map_to_list chunks).*1) as [|k0 ks] eqn:E; [|eauto].
  destruct H. rewrite <- length_map_to_list.
  rewrite <- (length_fmap fst), E. reflexivity.
Qed.

Lemma access_size (l : @t A) (index : Z) :
  (size (_chunks l) <= 11)%nat ->
  (size (_chunks (access data chunk_size l index)) <= 11)%nat.
Proof.
  intros B. unfold access, __getitem__.
  destruct (chunk_size =? 0); [exact B|].
  destruct (_chunks l !! (index / chunk_size)) as [chunk|] eqn:E.
  - rewrite E. destruct (_ <? _); exact B.
  - assert (S : (size (_chunks (_load_chunk data chunk_size l (index / chunk_size)))
                 <= 11)%nat).
    { unfold _load_chunk. rewrite E. cbn [_chunks].
      destruct (Z.ltb_spec 10 (Z.of_nat (size (_chunks l)))) as [L|L].
      - destruct (oldest_chunk_some (_chunks l)) as [o Ho]; [lia|].
        rewrite Ho. pose proof (oldest_chunk_held _ _ Ho) as Hin.
        rewrite map_size_insert.
        destruct (delete o (_chunks l) !! (index / chunk_size));
          rewrite map_size_delete_Some by exact Hin; simpl; lia.
      - rewrite map_size_insert. rewrite E. simpl. lia. }
    destruct (_chunks (_load_chunk data chunk_size l (index / chunk_size))
              !! (index / chunk_size)); [destruct (_ <? _)|]; exact S.
Qed.

Lemma run_size (indexes : list Z) (l : @t A) :
  (size (_chunks l) <= 11)%nat ->
  (size (_chunks (run data chunk_size indexes l)) <= 11)%nat.
Proof.
  revert l. induction indexes as [|i rest IH]; intros l B; [exact B|].
  apply (IH (access data chunk_size l i)), access_size, B.
Qed.

End Chunks.

(** X17.  Whatever is read, the list holds at most eleven chunks at a time: a
    chunk is dropped only once more than ten are held, so the eleventh
    is kept (the comment in the source promises ten).  Eleven are held
    after twelve items in chunks of one were read one after the other. *)
Theorem chunk_cache_bound :
  (forall (A : Type) (data : list A) (chunk_size : Z) (indexes : list Z),
      (size (_chunks (run data chunk_size indexes new)) <= 11)%nat) /\
  size (_chunks (run doce 1 doce new)) = 11%nat.
Proof.
  split.
  - intros A data chunk_size indexes. apply run_size.
    unfold new. cbn. rewrite map_size_empty. lia.
  - vm_compute. reflexivity.
Qed.

End MemoryEfficientListFacts.
(** ** core/nlp_engine.py and core/optimized_nlp.py: capacity *)

Module CapacityFacts.
Import Capacity CapacityProps.

Open Scope Z_scope.

Lemma first_in_range_bounds (matches : list (list Py.str)) (n : Z) :
  first_in_range matches = Some n -> 1 <= n <= 20.
Proof.
  induction matches as [|m rest IH]; simpl; [discriminate|].
  destruct (Z.leb_spec 1 (Py.int_of_digits (hd [] m)));
    destruct (Z.leb_spec (Py.int_of_digits (hd [] m)) 20); simpl;
    try exact IH.
  intros [= <-]. lia.
Qed.

Lemma first_pattern_bounds (patterns : list Re.regex) (text : Py.str) (n : Z) :
  first_pattern patterns text = Some n -> 1 <= n <= 20.
Proof.
  induction patterns as [|p rest IH]; simpl; [discriminate|].
  destruct (first_in_range (Re.findall p 1 text)) as [c|] eqn:E; [|exact IH].
  intros [= <-]. eapply first_in_range_bounds, E.
Qed.

Lemma In_desde (lo : Z) (count : nat) (n : Z) :
  lo <= n < lo + Z.of_nat count -> In n (desde lo count).
Proof.
  intros H. unfold desde. apply in_map_iff. exists (Z.to_nat (n - lo)).
  split; [lia|]. apply in_seq. lia.
Qed.

Lemma plurales_checked :
  forallb (fun n => forallb (solo_primario n) plurales) (desde 1 20) = true.
Proof. vm_compute. reflexivity. Qed.

Lemma pax_checked : forallb solo_optimizado (desde 21 79) = true.
Proof. vm_compute. reflexivity. Qed.

(** X18.  [NLPEngine.extract_capacity] only returns capacities from 1 to 20.
    The two engines do not extract the same capacities.  On "N personas",
    "N huéspedes", "N huespedes" and "N invitados" with N from 1 to 20
    the primary engine returns N and [extract_capacity_optimized], whose
    pattern ends the noun at a word boundary, returns nothing; on "N pax"
    with N from 21 to 99 the optimized engine returns N, having no range
    check, and the primary engine nothing. *)
Theorem capacity_engines_differ :
  (forall (text : Py.str) (n : Z), extract_capacity text = Some n -> 1 <= n <= 20) /\
  (forall (n : Z) (noun : Py.str),
     1 <= n <= 20 -> In noun plurales ->
     extract_capacity (frase n noun) = Some n /\
     extract_capacity_optimized None (frase n noun) = Ok None) /\
  (forall n : Z,
     20 < n < 100 ->
     extract_capacity (frase n (Py.u "pax")) = None /\
     extract_capacity_optimized None (frase n (Py.u "pax")) = Ok (Some n)).
Proof.
  split; [|split].
  - intros text n. apply first_pattern_bounds.
  - intros n noun Hn Hnoun.
    pose proof (proj1 (forallb_forall _ _) plurales_checked n
                  (In_desde 1 20 n ltac:(lia))) as H.
    pose proof (proj1 (forallb_forall _ _) H noun Hnoun) as H'.
    unfold solo_primario in H'.
    destruct (extract_capacity (frase n noun)) as [m|]; [|discriminate].
    destruct (extract_capacity_optimized None (frase n noun)) as [[k|]|e];
      try discriminate.
    apply Z.eqb_eq in H'. subst. auto.
  - intros n Hn.
    pose proof (proj1 (forallb_forall _ _) pax_checked n
                  (In_desde 21 79 n ltac:(lia))) as H.
    unfold solo_optimizado in H.
    destruct (extract_capacity (frase n (Py.u "pax"))) as [m|]; [discriminate|].
    destruct (extract_capacity_optimized None (frase n (Py.u "pax")))
      as [[k|]|e]; try discriminate.
    apply Z.eqb_eq in H. subst. auto.
Qed.

End CapacityFacts.
(** ** db/optimized_database.py: [ConnectionPool] *)

Module ConnectionPoolFacts.
Import ConnectionPool ConnectionPoolProps.

Open Scope Z_scope.

Lemma pool_last (p : t) :
  match rev (_pool p) with
  | [] => _pool p = []
  | conn :: rest => _pool p = rev rest ++ [conn]
  end.
Proof.
  destruct (rev (_pool p)) as [|conn rest] eqn:E;
    apply (f_equal (@rev _)) in E; rewrite rev_involutive in E; exact E.
Qed.

Lemma get_connection_consistent (p : t) :
  consistent p -> consistent (get_connection p).2.
Proof.
  intros (N & D & B). unfold get_connection.
  destruct (_lock_held p); [repeat split; assumption|].
  pose proof (pool_last p) as L.
  destruct (rev (_pool p)) as [|conn rest].
  - rewrite L in B. simpl in B.
    destruct (Z.ltb_spec (Z.of_nat (size (_in_use p))) (max_connections p)).
    + split; [apply NoDup_nil_2|]. split; [intros conn H'; inversion H'|].
      cbn. rewrite size_union by (apply disjoint_singleton_l, is_fresh).
      rewrite size_singleton. lia.
    + split; [apply NoDup_nil_2|]. split; [intros conn H'; inversion H'|].
      exact B.
  - rewrite L in N, D, B. apply NoDup_app in N. destruct N as (N1 & N2 & _).
    assert (Hc : conn ∉ _in_use p).
    { apply D. apply elem_of_app. right. apply list_elem_of_singleton. reflexivity. }
    split; [exact N1|]. split; cbn.
    + intros c Hc'. rewrite elem_of_union, elem_of_singleton.
      intros [->|H].
      * apply (N2 conn Hc'). apply list_elem_of_singleton. reflexivity.
      * apply (D c); [|exact H]. apply elem_of_app. left. exact Hc'.
    + rewrite size_union by (apply disjoint_singleton_l; exact Hc).
      rewrite size_singleton. rewrite length_app in B. simpl in B. lia.
Qed.

Lemma return_connection_consistent (p : t) (conn : connection) :
  consistent p -> consistent (return_connection p conn).2.
Proof.
  intros (N & D & B). unfold return_connection.
  destruct (_lock_held p); [repeat split; assumption|].
  destruct (bool_decide_reflect (conn ∈ _in_use p)) as [Hin|Hout];
    [|repeat split; assumption].
  split; [|split]; cbn.
  - apply NoDup_app. split; [exact N|]. split; [|apply NoDup_singleton].
    intros c Hc Hc'. apply list_elem_of_singleton in Hc'. subst c.
    exact (D conn Hc Hin).
  - intros c Hc. rewrite elem_of_difference, elem_of_singleton.
    apply elem_of_app in Hc. destruct Hc as [Hc|Hc].
    + intros [H _]. exact (D c Hc H).
    + apply list_elem_of_singleton in Hc. tauto.
  - rewrite length_app. simpl.
    assert (Hs : size (_in_use p) = S (size (_in_use p ∖ {[conn]}))).
    { rewrite (union_difference_L {[conn]} (_in_use p)) at 1
        by (apply singleton_subseteq_l; exact Hin).
      rewrite size_union.
      - rewrite size_singleton. reflexivity.
      - apply disjoint_singleton_l.
        rewrite elem_of_difference, elem_of_singleton. tauto. }
    lia.
Qed.

Lemma run_consistent (calls : list call) (p : t) :
  consistent p -> consistent (run calls p).
Proof.
  revert p. induction calls as [|c calls IH]; intros p C; [exact C|].
  apply (IH (step p c)). destruct c as [|conn]; simpl.
  - apply get_connection_consistent, C.
  - apply return_connection_consistent, C.
Qed.

Lemma new_consistent (n : Z) : consistent (new n).
Proof.
  split; [apply NoDup_nil_2|]. split; [intros conn H; inversion H|].
  cbn. rewrite size_empty. lia.
Qed.

Lemma run_max (calls : list call) (p : t) :
  max_connections (run calls p) = max_connections p.
Proof.
  revert p. induction calls as [|c calls IH]; intros p; [reflexivity|].
  unfold run in *. simpl. rewrite IH. destruct c as [|conn]; simpl.
  - unfold get_connection. destruct (_lock_held p); [reflexivity|].
    destruct (rev (_pool p)); [destruct (_ <? _)|]; reflexivity.
  - unfold return_connection. destruct (_lock_held p); [reflexivity|].
    destruct (bool_decide _); reflexivity.
Qed.

Lemma run_tomar (k : nat) (p : t) :
  _pool p = [] -> _lock_held p = false ->
  Z.of_nat (size (_in_use p) + k) <= max_connections p ->
  _pool (run (tomar k) p) = [] /\ _lock_held (run (tomar k) p) = false /\
  size (_in_use (run (tomar k) p)) = (size (_in_use p) + k)%nat /\
  max_connections (run (tomar k) p) = max_connections p.
Proof.
  revert p. induction k as [|k IH]; intros p Hp Hl Hk; [cbn; auto with lia|].
  change (run (tomar (S k)) p) with (run (tomar k) (get_connection p).2).
  assert (G : get_connection p =
              (Some (fresh (_in_use p)),
               mk (max_connections p) [] ({[fresh (_in_use p)]} ∪ _in_use p) false)).
  { unfold get_connection. rewrite Hl, Hp. simpl rev. cbv iota.
    destruct (Z.ltb_spec (Z.of_nat (size (_in_use p))) (max_connections p));
      [reflexivity|lia]. }
  rewrite G. cbn [snd].
  assert (Hs : size ({[fresh (_in_use p)]} ∪ _in_use p) = S (size (_in_use p))).
  { rewrite size_union by (apply disjoint_singleton_l, is_fresh).
    rewrite size_singleton. reflexivity. }
  destruct (IH (mk (max_connections p) [] ({[fresh (_in_use p)]} ∪ _in_use p) false))
    as (H1 & H2 & H3 & H4); cbn; [reflexivity|reflexivity|rewrite Hs; lia|].
  cbn in H3, H4. rewrite Hs in H3.
  split; [exact H1|]. split; [exact H2|]. split; [lia|exact H4].
Qed.

(** X19.  Whatever connections were taken and returned, a pool keeps its
    connections apart: none is idle and in use at once, none is idle
    twice, and the idle and the used ones together never exceed
    [max_connections].  A connection handed out was not in use before
    and is in use afterwards.  But when every connection is in use,
    [get_connection] calls itself while holding the lock and never
    returns; the lock stays held, so that no later [get_connection] or
    [return_connection] returns either.  This happens as soon as one more
    connection is asked for than [max_connections]. *)
Theorem connection_pool_consistent (n : Z) (calls : list call) :
  let p := run calls (new n) in
  consistent p /\
  Z.of_nat (size (_in_use p)) <= Z.max 0 n /\
  (forall conn, (get_connection p).1 = Some conn ->
     (conn ∉ _in_use p) /\ (conn ∈ _in_use (get_connection p).2) /\
     (conn ∉ _pool (get_connection p).2)) /\
  (_lock_held p = false -> _pool p = [] ->
   n <= Z.of_nat (size (_in_use p)) ->
   (get_connection p).1 = None /\ _lock_held (get_connection p).2 = true) /\
  (_lock_held p = true ->
   get_connection p = (None, p) /\
   forall conn, return_connection p conn = (None, p)) /\
  (forall k : nat, _lock_held (run (tomar (S k)) (new (Z.of_nat k))) = true).
Proof.
  intros p. pose proof (run_consistent calls (new n) (new_consistent n)) as C.
  fold p in C. pose proof (run_max calls (new n)) as M. fold p in M. simpl in M.
  split; [exact C|]. split.
  { destruct C as (_ & _ & B). rewrite M in B. lia. }
  split.
  { intros conn. pose proof (get_connection_consistent p C) as C'.
    destruct C as (N & D & B). unfold get_connection in *.
    destruct (_lock_held p); [discriminate|].
    pose proof (pool_last p) as L.
    destruct (rev (_pool p)) as [|c rest].
    - destruct (_ <? _); [|discriminate]. cbn. intros [= <-].
      split; [apply is_fresh|].
      split; [apply elem_of_union_l, elem_of_singleton; reflexivity|].
      intros H. inversion H.
    - cbn. intros [= <-]. split.
      + apply D. rewrite L. apply elem_of_app. right.
        apply list_elem_of_singleton. reflexivity.
      + split; [apply elem_of_union_l, elem_of_singleton; reflexivity|].
        destruct C' as (_ & D' & _). cbn in D'.
        intros H. apply (D' c H).
        apply elem_of_union_l, elem_of_singleton. reflexivity. }
  split; [|split].
  - intros Hl Hp Hn. unfold get_connection. rewrite Hl, Hp. simpl rev. cbv iota.
    rewrite M.
    destruct (Z.ltb_spec (Z.of_nat (size (_in_use p))) n); [lia|]. auto.
  - intros Hl. unfold get_connection, return_connection. rewrite Hl. auto.
  - intros k.
    destruct (run_tomar k (new (Z.of_nat k))) as (H1 & H2 & H3 & H4);
      [reflexivity|reflexivity|cbn; rewrite size_empty; lia|].
    cbn in H3, H4. rewrite size_empty in H3.
    assert (E : tomar (S k) = tomar k ++ [GetConnection]).
    { unfold tomar. rewrite <- repeat_cons. reflexivity. }
    rewrite E. unfold run. rewrite fold_left_app. cbn [fold_left step].
    fold (run (tomar k) (new (Z.of_nat k))).
    unfold get_connection. rewrite H2, H1. simpl rev. cbv iota. rewrite H4.
    destruct (Z.ltb_spec (Z.of_nat (size (_in_use (run (tomar k) (new (Z.of_nat k))))))
                (Z.of_nat k)); [lia|reflexivity].
Qed.

End ConnectionPoolFacts.
Module BatchFacts.

Import Sql OptimizedQueries Batch BatchProps.

Lemma bulk_insert_table :
  _extract_table_name bulk_insert_query = Done (Some (Py.u "mensajes")).
Proof. vm_compute. reflexivity. Qed.

Lemma bulk_insert_prepare :
  prepare_insert bulk_insert_columns
  = Throws (OperationalError "table mensajes has no column named contenido").
Proof. vm_compute. reflexivity. Qed.

Lemma params_of_complete (msg : gmap string value) :
  completo msg = true -> exists params, params_of msg = Done params.
Proof.
  unfold completo, claves. cbn [forallb].
  rewrite !andb_true_iff, !bool_decide_eq_true.
  intros ([a Ha] & [b Hb] & [c Hc] & [d Hd] & _).
  unfold params_of, subscript. rewrite Ha, Hb, Hc, Hd. cbn. eauto.
Qed.

Lemma params_of_incomplete (msg : gmap string value) :
  completo msg = false ->
  exists key, In key claves /\ msg !! key = None
              /\ params_of msg = Throws (KeyError key).
Proof.
  unfold completo, claves, params_of, subscript. cbn [forallb In].
  destruct (msg !! "asunto"%string) eqn:Ha; [|eauto 10].
  destruct (msg !! "remitente"%string) eqn:Hb; [|eauto 10].
  destruct (msg !! "contenido"%string) eqn:Hc; [|eauto 10].
  destruct (msg !! "fecha_recibido"%string) eqn:Hd; [|eauto 10].
  intros H. exfalso. revert H.
  rewrite !bool_decide_eq_true_2 by eauto. discriminate.
Qed.

Lemma params_list_of_cases (messages : list (gmap string value)) :
  (exists params_list, params_list_of messages = Done params_list
      /\ length params_list = length messages
      /\ forallb completo messages = true)
  \/ (exists key msg, params_list_of messages = Throws (KeyError key)
      /\ In msg messages /\ In key claves /\ msg !! key = None).
Proof.
  induction messages as [|msg rest IH].
  - left. exists []. auto.
  - cbn [params_list_of forallb].
    destruct (completo msg) eqn:C.
    + destruct (params_of_complete msg C) as [params ->]. cbn.
      destruct IH as [(pl & -> & L & F) | (key & m & -> & I & K & N)].
      * left. exists (params :: pl). cbn. rewrite L. auto.
      * right. exists key, m. cbn. auto.
    + destruct (params_of_incomplete msg C) as (key & K & N & ->).
      right. exists key, msg. cbn. auto.
Qed.

Section Cached.

Context {rows S : Type}.
Variable insert : list value -> S -> outcome ((option Z * Z) * S).

(** X20.  [bulk_insert_messages] cannot insert a message.  Its statement
    names a column [contenido] that the table [mensajes] of [init_db]
    does not have, so whatever a compiled insert would do, a non-empty
    list of messages ends in an exception, namely [KeyError] when a
    message lacks one of the four keys read with [msg[...]] and
    otherwise [OperationalError], and the database and the cache stay as
    they were.  Only the empty list returns, with the empty list, after
    dropping the cache entries whose key contains [mensajes]. *)
Theorem bulk_insert_never_inserts (c : QueryCache.t rows) (st : S)
    (messages : list (gmap string value)) :
  let r := bulk_insert_messages insert c st messages in
  r.1.2 = st
  /\ (messages = [] ->
        r.1.1 = Done [] /\ r.2 = QueryCache.invalidate c (Some (Py.u "mensajes")))
  /\ (messages <> [] ->
        r.2 = c
        /\ if forallb completo messages
           then r.1.1 = Throws (OperationalError
                                  "table mensajes has no column named contenido")
           else exists key msg,
                  r.1.1 = Throws (KeyError key) /\ In msg messages
                  /\ In key claves /\ msg !! key = None).
Proof.
  cbv zeta. unfold bulk_insert_messages.
  destruct (params_list_of_cases messages)
    as [(pl & E & L & F) | (key & msg & E & I & K & N)]; rewrite E.
  - destruct pl as [|params pl].
    + destruct messages; [|discriminate L].
      unfold execute_batch. cbn [execute_all]. rewrite bulk_insert_table.
      cbn. split; [reflexivity|]. split; [auto|]. intros Hne. congruence.
    + unfold execute_batch. cbn [execute_all].
      rewrite bulk_insert_prepare. cbn.
      split; [reflexivity|]. split.
      * intros ->. discriminate L.
      * intros _. split; [reflexivity|]. rewrite F. reflexivity.
  - cbn. split; [reflexivity|]. split.
    + intros ->. destruct I.
    + intros _. split; [reflexivity|].
      destruct (forallb completo messages) eqn:F.
      * exfalso. rewrite forallb_forall in F. specialize (F msg I).
        unfold completo in F. rewrite forallb_forall in F.
        specialize (F key K). rewrite bool_decide_eq_true in F.
        rewrite N in F. destruct F. discriminate.
      * eauto 10.
Qed.

End Cached.

End BatchFacts.

Module ConversationMessagesFacts.

Import Sql DatabaseOps ConversationMessages ConversationMessagesProps.
Import DatabaseOpsFacts.

Lemma insert_asc_In {A : Type} (key : A -> value) (x y : A) (l : list A) :
  In y (insert_asc key x l) <-> y = x \/ In y l.
Proof.
  induction l as [|z t IH]; cbn.
  - intuition.
  - destruct (sorts_before (key z) (key x)); cbn; rewrite ?IH; intuition.
Qed.

Lemma order_by_In {A : Type} (key : A -> value) (y : A) (l : list A) :
  In y (order_by key l) <-> In y l.
Proof.
  induction l as [|x t IH]; [cbn; tauto|].
  change (order_by key (x :: t)) with (insert_asc key x (order_by key t)).
  rewrite insert_asc_In, IH. cbn. intuition.
Qed.

Lemma insert_asc_length {A : Type} (key : A -> value) (x : A) (l : list A) :
  length (insert_asc key x l) = S (length l).
Proof.
  induction l as [|z t IH]; cbn; [reflexivity|].
  destruct (sorts_before (key z) (key x)); cbn; rewrite ?IH; reflexivity.
Qed.

Lemma order_by_length {A : Type} (key : A -> value) (l : list A) :
  length (order_by key l) = length l.
Proof.
  induction l as [|x t IH]; [reflexivity|].
  change (order_by key (x :: t)) with (insert_asc key x (order_by key t)).
  rewrite insert_asc_length, IH. reflexivity.
Qed.

Lemma insert_asc_en_orden {A : Type} (key : A -> value) (x : A) (l : list A) :
  en_orden (map key l) = true ->
  en_orden (map key (insert_asc key x l)) = true.
Proof.
  induction l as [|y t IH]; [reflexivity|].
  intros H. cbn [insert_asc].
  destruct (sorts_before (key y) (key x)) eqn:E.
  - assert (Ht : en_orden (map key t) = true).
    { destruct t; [reflexivity|]. cbn in H. apply andb_true_iff in H. tauto. }
    specialize (IH Ht).
    destruct t as [|z t].
    + cbn. rewrite (sorts_before_asym _ _ E). reflexivity.
    + cbn [insert_asc] in *.
      destruct (sorts_before (key z) (key x)) eqn:E2.
      * cbn [map en_orden] in *. apply andb_true_iff in H.
        apply andb_true_iff. split; [tauto|exact IH].
      * cbn [map en_orden] in *.
        rewrite (sorts_before_asym _ _ E). cbn [negb andb]. exact IH.
  - cbn [map en_orden] in *. rewrite E. cbn [negb andb].
    destruct t; exact H.
Qed.

Lemma order_by_en_orden {A : Type} (key : A -> value) (l : list A) :
  en_orden (map key (order_by key l)) = true.
Proof.
  induction l as [|x t IH]; [reflexivity|].
  change (order_by key (x :: t)) with (insert_asc key x (order_by key t)).
  apply insert_asc_en_orden. exact IH.
Qed.

Lemma add_unfold (st st' : estado) (timestamp : string) (cid : value)
    (data : gmap string value) :
  add_message_to_conversation st timestamp cid data = Done st' ->
  exists rowid,
    conversation_messages st'
    = conversation_messages st ++
      [mk_message rowid (store TEXT cid)
         (store INTEGER (dict_get data "message_id" Null))
         (store TEXT (dict_get data "sender" Null))
         (store TEXT (dict_get data "subject" Null))
         (store TEXT (dict_get data "body" Null))
         (store NUMERIC (Text timestamp))
         (store TEXT (dict_get data "message_type" (Text "desconocido")))
         (Int 0)].
Proof.
  unfold add_message_to_conversation. cbv zeta.
  destruct (lift (bind_params _)) as [[]|e]; [|discriminate].
  cbn [mbind outcome_bind].
  destruct (next_rowid _ _) as [rowid|e]; [|discriminate].
  cbn. intros [= <-]. exists rowid. reflexivity.
Qed.

(** X21.  The history of a conversation.  After [add_message_to_conversation]
    returns, [get_conversation_messages] gives, for every identifier it
    can be asked about, the rows it gave before and, when the identifier
    names the conversation the message was added to, one more row made
    of the sender, subject and body of the message as texts, the
    timestamp and the message type, which is [desconocido] when the
    message has none.  The rows come in ascending order of
    [received_at].  A message added under the identifier [None] is never
    returned. *)
Theorem conversation_history (st st' : estado) (timestamp : string)
    (cid q : value) (data : gmap string value) :
  add_message_to_conversation st timestamp cid data = Done st' ->
  bindable q = true ->
  exists before after,
    get_conversation_messages st q = Ok before
    /\ get_conversation_messages st' q = Ok after
    /\ (forall fila,
          In fila after <->
          In fila before
          \/ (misma_conversacion cid q = true
              /\ fila = [ store TEXT (dict_get data "sender" Null);
                          store TEXT (dict_get data "subject" Null);
                          store TEXT (dict_get data "body" Null);
                          store NUMERIC (Text timestamp);
                          store TEXT (dict_get data "message_type"
                                        (Text "desconocido")) ]))
    /\ length after
       = (length before + if misma_conversacion cid q then 1 else 0)%nat
    /\ en_orden (recibidos after) = true
    /\ (cid = Null -> misma_conversacion cid q = false).
Proof.
  intros Hadd Hq.
  destruct (add_unfold _ _ _ _ _ Hadd) as [rowid E].
  unfold get_conversation_messages, bind_params. cbn [forallb].
  rewrite Hq. cbn [andb]. cbn [mbind mret].
  eexists _, _. split; [reflexivity|]. split; [reflexivity|].
  rewrite E, List.filter_app. cbn [List.filter].
  repeat match goal with
         | |- context [of_conversation q (mk_message ?a ?b ?c ?d ?e ?f ?g ?h ?i)] =>
             change (of_conversation q (mk_message a b c d e f g h i))
               with (misma_conversacion cid q)
         end.
  split; [|split; [|split]].
  - intros fila. rewrite !in_map_iff.
    setoid_rewrite order_by_In. setoid_rewrite in_app_iff.
    destruct (misma_conversacion cid q); cbn [In]; split.
    + intros (m & <- & [H | [<- | []]]); [left; eauto | right; auto].
    + intros [(m & <- & H) | [_ ->]]; [eauto | eexists; split; [|right; left; reflexivity]; reflexivity].
    + intros (m & <- & [H | []]). left; eauto.
    + intros [(m & <- & H) | [? _]]; [eauto | discriminate].
  - rewrite !length_map, !order_by_length, length_app.
    destruct (misma_conversacion cid q); reflexivity.
  - unfold recibidos. rewrite map_map. cbn [selected nth].
    apply order_by_en_orden.
  - intros ->. reflexivity.
Qed.

(** The first message of the conversation [a5ddad974bc0], stored without
    a type, makes its history one row longer. *)
Lemma conversation_history_witness :
  add_message_to_conversation vacio "2024-10-01 09:00:00"
    (Text "a5ddad974bc0") saludo = Done con_saludo
  /\ exists before after,
       get_conversation_messages vacio (Text "a5ddad974bc0") = Ok before
       /\ get_conversation_messages con_saludo (Text "a5ddad974bc0") = Ok after
       /\ length after = (length before + 1)%nat
       /\ In [Text "ana@ejemplo.com"; Null; Text "Hola";
              Text "2024-10-01 09:00:00"; Text "desconocido"] after.
Proof.
  assert (E : add_message_to_conversation vacio "2024-10-01 09:00:00"
                (Text "a5ddad974bc0") saludo = Done con_saludo)
    by (vm_compute; reflexivity).
  split; [exact E|].
  destruct (conversation_history vacio con_saludo "2024-10-01 09:00:00"
              (Text "a5ddad974bc0") (Text "a5ddad974bc0") saludo E eq_refl)
    as (before & after & H1 & H2 & H3 & H4 & _).
  exists before, after.
  split; [exact H1|]. split; [exact H2|]. split; [exact H4|].
  apply H3. right. split; vm_compute; reflexivity.
Defined.

End ConversationMessagesFacts.

